(** * Canvas editor: history engine, selection and pointer state machine

    A shallow embedding of the parts of the canvas editor that carry its
    behaviour:

    - [Types]  : the data model of [types/canvas.ts];
    - [Home]   : the state of the [Home] component of [app/page.tsx] and the
                 functions that own the undo/redo history and the selection
                 ([saveToHistory], [undo], [redo], [updateElements],
                 [selectElement], [deleteSelectedElements], ...);
    - [Canvas] : the local state of the [Canvas] component of
                 [components/Canvas.tsx] and its pointer handlers
                 ([handleMouseDown], [handleMouseMove], [handleMouseUp] and
                 the [onMouseDown] closures of elements and handles).

    JavaScript numbers are modelled by exact rationals ([Q]): every finite
    double is a rational.  The arithmetic of the handlers of [Canvas] is
    taken without rounding; [Rounded] gives the computations of the resize
    and rotate gestures and the sizing of the workspace with the rounding
    of every operation.  [Math.atan2] and [Math.PI] are parameters of the
    [Canvas] model.  Integer-valued numbers that are never computed with
    beyond [max]/[+1] ([zIndex], [Date.now()]) are in [Z].  A string is the
    sequence of the bytes of its UTF-8 encoding.

    React state is modelled with snapshot semantics: a handler reads the
    state of the render it was created in and queues updates; the queued
    updates are applied in order once the handler returns. *)

From Stdlib Require Import ZArith QArith List String Ascii Bool Lia Lqa.
From Stdlib Require Import DecimalString Qround Qpower Qabs Permutation.
Import ListNotations.

Local Open Scope Q_scope.
Local Open Scope list_scope.

(** ** JavaScript helpers *)

Definition number := Q.

(** [Math.max(a, b)] on two finite numbers. *)
Definition Math_max (a b : number) : number :=
  if Qle_bool a b then b else a.

(** [Math.trunc]: the integer part, rounded toward zero. *)
Definition Math_trunc (q : number) : Z :=
  Z.quot (Qnum q) (Zpos (Qden q)).

(** [a % b] for a non-zero divisor: the remainder has the sign of the
    dividend and a magnitude below that of the divisor. *)
Definition js_rem (a b : number) : number :=
  a - b * inject_Z (Math_trunc (a / b)).

(** [a < b] as a JavaScript condition. *)
Definition Qlt_bool (a b : number) : bool := negb (Qle_bool b a).

(** Truthiness of a [string | null] value: [null] and [''] are falsy. *)
Definition truthy (o : option string) : bool :=
  match o with
  | Some s => negb (String.eqb s EmptyString)
  | None => false
  end.

(** [n || 0] on a number. *)
Definition orZero (n : number) : number :=
  if Qeq_bool n 0 then 0 else n.

(** [`${n}`] for an integer. *)
Definition string_of_Z (z : Z) : string :=
  NilZero.string_of_int (Z.to_int z).

(** [arr.includes(s)] on an array of strings. *)
Definition includes (arr : list string) (s : string) : bool :=
  existsb (String.eqb s) arr.

(** [Math.min(a, b)] on two finite numbers. *)
Definition Math_min (a b : number) : number :=
  if Qle_bool a b then a else b.

(** [Math.floor] *)
Definition Math_floor (q : number) : Z := Qfloor q.

(** [Math.round]: the nearest integer, a half rounded up. *)
Definition Math_round (q : number) : Z := Qfloor (q + (1 # 2)).

(** ** The data model ([types/canvas.ts]) *)

Module Types.

Inductive TextAlign := AlignLeft | AlignCenter | AlignRight.
Inductive VerticalAlign := AlignTop | AlignMiddle | AlignBottom.
Inductive MediaType := MediaImage | MediaSvg.
Inductive Overlay := OverlayNone | OverlayDark | OverlayLight.

(** [Tool = 'cursor' | 'text' | 'label' | 'signature' | 'media'] *)
Inductive Tool := ToolCursor | ToolText | ToolLabel | ToolSignature | ToolMedia.

(** The fields [x], [y], [width], [height], [rotation] shared by the text,
    label, signature and media interfaces. *)
Record Geometry := mkGeometry {
  x : number;
  y : number;
  width : number;
  height : number;
  rotation : number
}.

(** The fields that are particular to one of the four drawable interfaces. *)
Inductive ElementKind :=
| KText (text : string) (fontSize : number) (fontFamily color backgroundColor : string)
        (textAlign : TextAlign)
| KLabel (jsonKey placeholder : string) (fontSize minFontSize : number)
         (fontFamily color backgroundColor : string) (textAlign : TextAlign)
         (verticalAlign : VerticalAlign) (autoSizeText : bool)
| KSignature (svgData imageData : string) (originalImageData : option string)
             (color : string)
| KMedia (mediaType : MediaType) (data : string) (originalData : option string)
         (fileName : string) (strokeColor fillColor : option string).

(** [CanvasElement = TextElement | LabelElement | GroupElement |
    SignatureElement | MediaElement].  [Drawn] covers the four interfaces
    that carry a geometry, the [type] tag being the constructor of [kind]. *)
Inductive CanvasElement :=
| Drawn (id : string) (zIndex : Z) (visible : bool) (name : string)
        (groupId : option string) (geometry : Geometry) (kind : ElementKind)
| Group (id : string) (name : string) (zIndex : Z) (visible : bool)
        (children : list string).

Definition id (el : CanvasElement) : string :=
  match el with Drawn i _ _ _ _ _ _ => i | Group i _ _ _ _ => i end.

Definition zIndex (el : CanvasElement) : Z :=
  match el with Drawn _ z _ _ _ _ _ => z | Group _ _ z _ _ => z end.

(** [el.type === 'text'] and [el.type === 'label'] *)
Definition isText (el : CanvasElement) : bool :=
  match el with Drawn _ _ _ _ _ _ (KText _ _ _ _ _ _) => true | _ => false end.

Definition isLabel (el : CanvasElement) : bool :=
  match el with
  | Drawn _ _ _ _ _ _ (KLabel _ _ _ _ _ _ _ _ _ _) => true
  | _ => false
  end.

(** [el.type === 'text' || el.type === 'label' || el.type === 'signature'
    || el.type === 'media'] *)
Definition hasGeometry (el : CanvasElement) : bool :=
  match el with Drawn _ _ _ _ _ _ _ => true | Group _ _ _ _ _ => false end.

Definition geometryOf (el : CanvasElement) : option Geometry :=
  match el with Drawn _ _ _ _ _ g _ => Some g | Group _ _ _ _ _ => None end.

(** [{ ...el, <geometry fields> }] on an element that carries a geometry. *)
Definition withGeometry (el : CanvasElement) (g : Geometry) : CanvasElement :=
  match el with
  | Drawn i z v n gi _ k => Drawn i z v n gi g k
  | Group _ _ _ _ _ => el
  end.

Record CanvasSettings := mkCanvasSettings {
  meshColor : string;
  backgroundColor : string;
  canvasRatio : string;
  showGrid : bool;
  backgroundImage : option string;
  backgroundImageOpacity : number;
  backgroundImageBrightness : number;
  backgroundImageContrast : number;
  backgroundImageBlur : number;
  backgroundImageOverlay : Overlay;
  backgroundImageOverlayOpacity : number
}.

Record HistoryState := mkHistoryState {
  elements : list CanvasElement;
  canvasSettings : CanvasSettings;
  timestamp : Z;
  operation : string
}.

Record HistoryStack := mkHistoryStack {
  past : list HistoryState;
  present : HistoryState;
  future : list HistoryState
}.

Definition visible (el : CanvasElement) : bool :=
  match el with Drawn _ _ v _ _ _ _ => v | Group _ _ _ v _ => v end.

(** [el.type === 'group'] *)
Definition isGroup (el : CanvasElement) : bool :=
  match el with Group _ _ _ _ _ => true | Drawn _ _ _ _ _ _ _ => false end.

(** [{ ...el, visible: v }] *)
Definition withVisible (el : CanvasElement) (v : bool) : CanvasElement :=
  match el with
  | Drawn i z _ n gi g k => Drawn i z v n gi g k
  | Group i n z _ ch => Group i n z v ch
  end.

(** [{ ...el, zIndex: z }] *)
Definition withZIndex (el : CanvasElement) (z : Z) : CanvasElement :=
  match el with
  | Drawn i _ v n gi g k => Drawn i z v n gi g k
  | Group i n _ v ch => Group i n z v ch
  end.

(** [{ ...el, groupId: gi }] on an element that may belong to a group. *)
Definition withGroupId (el : CanvasElement) (gi : option string)
  : CanvasElement :=
  match el with
  | Drawn i z v n _ g k => Drawn i z v n gi g k
  | Group _ _ _ _ _ => el
  end.

(** [el.groupId === groupId] *)
Definition groupIdIs (el : CanvasElement) (groupId : string) : bool :=
  match el with
  | Drawn _ _ _ _ (Some gi) _ _ => String.eqb gi groupId
  | _ => false
  end.



End Types.
Import Types.

(** ** The [Home] component ([app/page.tsx]) *)

Module Home.

(** The state hooks of [Home] that the history, the selection and the canvas
    read or write.  The eleven canvas-setting hooks ([meshColor], ...,
    [backgroundImageOverlayOpacity]) are grouped in [settings]. *)
Record State := mkState {
  elements : list CanvasElement;
  selectedElementIds : list string;
  activeTool : Tool;
  isPreviewMode : bool;
  settings : CanvasSettings;
  history : HistoryStack
}.

Definition setElements (els : list CanvasElement) (s : State) : State :=
  mkState els (selectedElementIds s) (activeTool s) (isPreviewMode s)
          (settings s) (history s).

Definition setSelectedElementIds (ids : list string) (s : State) : State :=
  mkState (elements s) ids (activeTool s) (isPreviewMode s)
          (settings s) (history s).

Definition setActiveTool (t : Tool) (s : State) : State :=
  mkState (elements s) (selectedElementIds s) t (isPreviewMode s)
          (settings s) (history s).

Definition setSettings (cs : CanvasSettings) (s : State) : State :=
  mkState (elements s) (selectedElementIds s) (activeTool s) (isPreviewMode s)
          cs (history s).

Definition setHistory (h : HistoryStack) (s : State) : State :=
  mkState (elements s) (selectedElementIds s) (activeTool s) (isPreviewMode s)
          (settings s) h.

Definition initialSettings : CanvasSettings :=
  mkCanvasSettings "#e2e8f0" "#ffffff" "16:9" true None 100 100 100 0
                   OverlayNone 50.

(** The initial value of the [history] hook, created at time [now]. *)
Definition initialHistory (now : Z) : HistoryStack :=
  mkHistoryStack [] (mkHistoryState [] initialSettings now "initial") [].

Definition initialState (now : Z) : State :=
  mkState [] [] ToolCursor false initialSettings (initialHistory now).

Definition MAX_HISTORY_SIZE : nat := 100.

(** The updater that [saveToHistory] hands to [setHistory]. *)
Definition pushHistory (newState : HistoryState) (prev : HistoryStack)
  : HistoryStack :=
  let newPast := past prev ++ [present prev] in
  let newPast :=
    if (MAX_HISTORY_SIZE <? List.length newPast)%nat then tl newPast else newPast in
  mkHistoryStack newPast newState [].

(** [saveToHistory(operation, newElements?, newCanvasSettings?)].  [snap] is
    the render the closure belongs to (it supplies [elements] and the canvas
    settings when an argument is omitted), [s] the state the queued updater
    is applied to. *)
Definition saveToHistory (snap : State) (now : Z) (operation : string)
    (newElements : option (list CanvasElement))
    (newCanvasSettings : option CanvasSettings) (s : State) : State :=
  let newState :=
    mkHistoryState
      (match newElements with Some els => els | None => elements snap end)
      (match newCanvasSettings with Some cs => cs | None => settings snap end)
      now operation in
  setHistory (pushHistory newState (history s)) s.

Definition undo (s : State) : State :=
  let h := history s in
  if (List.length (past h) =? 0)%nat then s
  else
    let previous := last (past h) (present h) in
    let newPast := removelast (past h) in
    setHistory
      (mkHistoryStack newPast previous (present h :: future h))
      (setSettings (canvasSettings previous)
         (setElements (Types.elements previous) s)).

Definition redo (s : State) : State :=
  match future (history s) with
  | [] => s
  | next :: newFuture =>
      setHistory
        (mkHistoryStack (past (history s) ++ [present (history s)]) next
                        newFuture)
        (setSettings (canvasSettings next)
           (setElements (Types.elements next) s))
  end.

(** [selectElement(elementId, isShiftClick = false)] *)
Definition selectElement (elementId : string) (isShiftClick : bool)
    (s : State) : State :=
  if isShiftClick then
    let prev := selectedElementIds s in
    setSelectedElementIds
      (if includes prev elementId
       then filter (fun i => negb (String.eqb i elementId)) prev
       else prev ++ [elementId])
      s
  else setSelectedElementIds [elementId] s.

(** [updateElements(newElements, operation, newSelectedIds?)] *)
Definition updateElements (snap : State) (now : Z)
    (newElements : list CanvasElement) (operation : string)
    (newSelectedIds : option (list string)) (s : State) : State :=
  let s := setElements newElements s in
  let s := match newSelectedIds with
           | Some ids => setSelectedElementIds ids s
           | None => s
           end in
  saveToHistory snap now operation (Some newElements) None s.

Definition deleteSelectedElements (now : Z) (s : State) : State :=
  let remainingElements :=
    filter (fun el => negb (includes (selectedElementIds s) (id el)))
           (elements s) in
  saveToHistory s now "delete_elements" (Some remainingElements) None
    (setSelectedElementIds [] (setElements remainingElements s)).

Definition deleteElement (now : Z) (elementId : string) (s : State) : State :=
  let remainingElements :=
    filter (fun el => negb (String.eqb (id el) elementId)) (elements s) in
  let newSelectedIds :=
    filter (fun i => negb (String.eqb i elementId)) (selectedElementIds s) in
  saveToHistory s now "delete_element" (Some remainingElements) None
    (setSelectedElementIds newSelectedIds (setElements remainingElements s)).

(** [selectedElements] and [selectedElement], derived at each render. *)
Definition selectedElements (s : State) : list CanvasElement :=
  filter (fun el => includes (selectedElementIds s) (id el)) (elements s).

Definition selectedElement (s : State) : option CanvasElement :=
  match selectedElements s with
  | [el] => Some el
  | _ => None
  end.

Definition toggleLayerVisibility (now : Z) (elementId : string) (s : State)
  : State :=
  let element := find (fun el => String.eqb (id el) elementId) (elements s) in
  let hides :=
    match element with
    | Some el => visible el && includes (selectedElementIds s) elementId
    | None => false
    end in
  let s' :=
    if hides
    then setSelectedElementIds
           (filter (fun i => negb (String.eqb i elementId))
                   (selectedElementIds s)) s
    else s in
  let newElements :=
    map (fun el => if String.eqb (id el) elementId
                   then withVisible el (negb (visible el)) else el)
        (elements s) in
  saveToHistory s now "toggle_layer_visibility" (Some newElements) None
    (setElements newElements s').


(** [createGroup].  With an empty store [Math.max()] is [-Infinity], which
    is no [zIndex] of this model: the result is [None] there. *)
Definition createGroup (now : Z) (s : State) : option State :=
  if (List.length (selectedElementIds s) <? 2)%nat then Some s
  else
    match map zIndex (elements s) with
    | [] => None
    | z :: zs =>
        let groupId := ("group-" ++ string_of_Z now)%string in
        let newGroup :=
          Group groupId
            ("Group " ++ string_of_Z
               (Z.of_nat (List.length (filter isGroup (elements s))) + 1))%string
            (fold_right Z.max z zs + 1)%Z true (selectedElementIds s) in
        let updatedElements :=
          map (fun el =>
                 if includes (selectedElementIds s) (id el) && isText el
                 then withGroupId el (Some groupId) else el)
              (elements s) in
        let newElements := updatedElements ++ [newGroup] in
        Some (saveToHistory s now "create_group" (Some newElements) None
                (setSelectedElementIds [groupId] (setElements newElements s)))
    end.

Definition ungroupElements (now : Z) (groupId : string) (s : State) : State :=
  match find (fun el => String.eqb (id el) groupId && isGroup el)
             (elements s) with
  | Some (Group _ _ _ _ children) =>
      let newElements :=
        map (fun el => if isText el && groupIdIs el groupId
                       then withGroupId el None else el)
            (filter (fun el => negb (String.eqb (id el) groupId))
                    (elements s)) in
      saveToHistory s now "ungroup_elements" (Some newElements) None
        (setSelectedElementIds children (setElements newElements s))
  | _ => s
  end.

(** [handleDrop(e, targetElementId)] of the layer list; [draggedElementId]
    is the hook that [handleDragStart] set. *)
Definition handleDrop (now : Z) (draggedElementId : option string)
    (targetElementId : string) (s : State) : State :=
  match draggedElementId with
  | Some dragged =>
      if negb (truthy draggedElementId) || String.eqb dragged targetElementId
      then s
      else
        match find (fun el => String.eqb (id el) dragged) (elements s),
              find (fun el => String.eqb (id el) targetElementId) (elements s)
        with
        | Some draggedElement, Some targetElement =>
            let newElements :=
              map (fun el =>
                     if String.eqb (id el) dragged
                     then withZIndex el (zIndex targetElement)
                     else if String.eqb (id el) targetElementId
                          then withZIndex el (zIndex draggedElement)
                          else el)
                  (elements s) in
            saveToHistory s now "reorder_layers" (Some newElements) None
              (setElements newElements s)
        | _, _ => s
        end
  | None => s
  end.





(** [updateBackgroundImage(newImage?)]; [removeBackgroundImage] is the call
    without an image. *)
Definition updateBackgroundImage (now : Z) (newImage : option string)
    (s : State) : State :=
  let c := settings s in
  let newCanvasSettings :=
    mkCanvasSettings (meshColor c) (backgroundColor c) (canvasRatio c)
      (showGrid c) newImage (backgroundImageOpacity c)
      (backgroundImageBrightness c) (backgroundImageContrast c)
      (backgroundImageBlur c) (backgroundImageOverlay c)
      (backgroundImageOverlayOpacity c) in
  saveToHistory s now "change_background_image" (Some (elements s))
    (Some newCanvasSettings) (setSettings newCanvasSettings s).

Definition removeBackgroundImage (now : Z) (s : State) : State :=
  updateBackgroundImage now None s.

(** The dimensions that [exportAsImage] gives the exported image, before
    the export scale: its own [getCanvasDimensions]. *)
Definition getCanvasDimensions (canvasRatio : string) : number * number :=
  let baseGridSize := 20 in
  let baseUnitsWidth := 60 in
  if String.eqb canvasRatio "16:9" then
    let unitsHeight := inject_Z (Math_round (baseUnitsWidth * (9 / 16))) in
    (baseUnitsWidth * baseGridSize, unitsHeight * baseGridSize)
  else if String.eqb canvasRatio "4:3" then
    let unitsHeight := inject_Z (Math_round (baseUnitsWidth * (3 / 4))) in
    (baseUnitsWidth * baseGridSize, unitsHeight * baseGridSize)
  else if String.eqb canvasRatio "1:1" then
    let unitsHeight := baseUnitsWidth in
    (baseUnitsWidth * baseGridSize, unitsHeight * baseGridSize)
  else
    let unitsHeight := inject_Z (Math_round (baseUnitsWidth * (9 / 16))) in
    (baseUnitsWidth * baseGridSize, unitsHeight * baseGridSize).










End Home.

(** ** The [Canvas] component ([components/Canvas.tsx]) *)

Module Canvas.

(** The values [setResizeHandle] is called with: ['nw'], ['n'], ['ne'],
    ['e'], ['se'], ['s'], ['sw'], ['w']. *)
Inductive Handle :=
| HandleNW | HandleN | HandleNE | HandleE
| HandleSE | HandleS | HandleSW | HandleW.

(** [dragStart = { x, y }]: the grab offset. *)
Record DragStart := mkDragStart { drag_x : number; drag_y : number }.

(** [resizeStart = { x, y, width, height }]: the pointer position and the
    size of the element at pointer-down. *)
Record ResizeStart := mkResizeStart {
  resize_x : number;
  resize_y : number;
  resize_width : number;
  resize_height : number
}.

(** [rotateStart = { x, y, rotation }] *)
Record RotateStart := mkRotateStart {
  rotate_x : number;
  rotate_y : number;
  rotate_rotation : number
}.

(** The state hooks of [Canvas] that the pointer handlers read or write. *)
Record State := mkState {
  scale : number;
  isDragging : bool;
  dragStart : DragStart;
  dragElementId : option string;
  potentialDragElement : option string;
  isResizing : bool;
  resizeHandle : option Handle;
  resizeStart : ResizeStart;
  isRotating : bool;
  rotateStart : RotateStart
}.

Definition initialState : State :=
  mkState 1 false (mkDragStart 0 0) None None false None
          (mkResizeStart 0 0 0 0) false (mkRotateStart 0 0 0).

Record MouseEvent := mkMouseEvent {
  clientX : number;
  clientY : number;
  shiftKey : bool
}.

Record DOMRect := mkDOMRect { left : number; top : number }.

(** What a handler obtains from the browser while it runs:
    [canvasRef.current?.getBoundingClientRect()], [Date.now()] and the
    answers to the two [prompt] dialogs of the label tool. *)
Record Env := mkEnv {
  rect : option DOMRect;
  now : Z;
  promptJsonKey : option string;
  promptPlaceholder : option string
}.

(** The calls a handler makes on the callbacks it receives as props. *)
Inductive Call :=
| CallSetElements (els : list CanvasElement)
| CallUpdateElements (els : list CanvasElement) (operation : string)
                     (selectedIds : option (list string))
| CallSelectElement (id : string) (isShiftClick : bool)
| CallSetActiveTool (tool : Tool).

(** [Math.atan2] and [Math.PI]. *)
Record MathLib := mkMathLib {
  atan2 : number -> number -> number;
  PI : number
}.

(** The white space and line terminators that [String.prototype.trim]
    strips, in UTF-8: U+0009 to U+000D and U+0020 (one byte), U+00A0 (two
    bytes), U+1680, U+2000 to U+200A, U+2028, U+2029, U+202F, U+205F,
    U+3000 and U+FEFF (three bytes). *)
Definition isSpace1 (n : nat) : bool :=
  ((n =? 32) || ((9 <=? n) && (n <=? 13)))%nat.

Definition isSpace2 (n m : nat) : bool :=
  ((n =? 194) && (m =? 160))%nat.

Definition isSpace3 (n m k : nat) : bool :=
  (((n =? 225) && (m =? 154) && (k =? 128)) ||
   ((n =? 226) && (m =? 128) &&
    (((128 <=? k) && (k <=? 138)) || (k =? 168) || (k =? 169) || (k =? 175))) ||
   ((n =? 226) && (m =? 129) && (k =? 159)) ||
   ((n =? 227) && (m =? 128) && (k =? 128)) ||
   ((n =? 239) && (m =? 187) && (k =? 191)))%nat.

(** What follows one white space character at the head of [l]. *)
Definition whiteSpaceAt (l : list ascii) : option (list ascii) :=
  match l with
  | a :: l1 =>
      if isSpace1 (nat_of_ascii a) then Some l1
      else
        match l1 with
        | b :: l2 =>
            if isSpace2 (nat_of_ascii a) (nat_of_ascii b) then Some l2
            else
              match l2 with
              | c :: l3 =>
                  if isSpace3 (nat_of_ascii a) (nat_of_ascii b)
                              (nat_of_ascii c)
                  then Some l3 else None
              | [] => None
              end
        | [] => None
        end
  | [] => None
  end.

(** The same at the end of a string, on its bytes in reverse order. *)
Definition whiteSpaceBefore (r : list ascii) : option (list ascii) :=
  match r with
  | c :: r1 =>
      if isSpace1 (nat_of_ascii c) then Some r1
      else
        match r1 with
        | b :: r2 =>
            if isSpace2 (nat_of_ascii b) (nat_of_ascii c) then Some r2
            else
              match r2 with
              | a :: r3 =>
                  if isSpace3 (nat_of_ascii a) (nat_of_ascii b)
                              (nat_of_ascii c)
                  then Some r3 else None
              | [] => None
              end
        | [] => None
        end
  | [] => None
  end.

Fixpoint strip (next : list ascii -> option (list ascii)) (fuel : nat)
    (l : list ascii) : list ascii :=
  match fuel with
  | O => l
  | S fuel' =>
      match next l with
      | Some rest => strip next fuel' rest
      | None => l
      end
  end.

(** [s.trim()] *)
Definition trim (s : string) : string :=
  let l := list_ascii_of_string s in
  let l := strip whiteSpaceAt (List.length l) l in
  let r := rev l in
  string_of_list_ascii (rev (strip whiteSpaceBefore (List.length r) r)).

Definition isCursor (t : Tool) : bool :=
  match t with ToolCursor => true | _ => false end.

(** [el.id === dragElementId] *)
Definition idIs (target : option string) (el : CanvasElement) : bool :=
  match target with
  | Some d => String.eqb (id el) d
  | None => false
  end.

(** [Math.max(...elements.map(el => el.zIndex), 0) + 1] *)
Definition nextZIndex (els : list CanvasElement) : Z :=
  (fold_right Z.max 0 (map zIndex els) + 1)%Z.

(** The hit test of [handleMouseDown]. *)
Definition hit (px py : number) (el : CanvasElement) : bool :=
  match el with
  | Drawn _ _ _ _ _ g k =>
      match k with
      | KText _ _ _ _ _ _ | KLabel _ _ _ _ _ _ _ _ _ _ =>
          Qle_bool (x g) px && Qle_bool px (x g + width g) &&
          Qle_bool (y g) py && Qle_bool py (y g + height g)
      | _ => false
      end
  | Group _ _ _ _ _ => false
  end.

(** The [switch (resizeHandle)] of [handleMouseMove]: the new [x], [y],
    [width], [height] computed from the element found in the store, the
    sums and differences taken without rounding ([Rounded.resizeGeometry]
    rounds them). *)
Definition resizeGeometry (h : Handle) (rs : ResizeStart)
    (deltaX deltaY : number) (element : Geometry) : Geometry :=
  match h with
  | HandleNW =>
      let newWidth := Math_max 20 (resize_width rs - deltaX) in
      let newHeight := Math_max 20 (resize_height rs - deltaY) in
      mkGeometry (x element + (width element - newWidth))
                 (y element + (height element - newHeight))
                 newWidth newHeight (rotation element)
  | HandleNE =>
      let newWidth := Math_max 20 (resize_width rs + deltaX) in
      let newHeight := Math_max 20 (resize_height rs - deltaY) in
      mkGeometry (x element) (y element + (height element - newHeight))
                 newWidth newHeight (rotation element)
  | HandleSW =>
      let newWidth := Math_max 20 (resize_width rs - deltaX) in
      let newHeight := Math_max 20 (resize_height rs + deltaY) in
      mkGeometry (x element + (width element - newWidth)) (y element)
                 newWidth newHeight (rotation element)
  | HandleSE =>
      let newWidth := Math_max 20 (resize_width rs + deltaX) in
      let newHeight := Math_max 20 (resize_height rs + deltaY) in
      mkGeometry (x element) (y element) newWidth newHeight (rotation element)
  | HandleN =>
      let newHeight := Math_max 20 (resize_height rs - deltaY) in
      mkGeometry (x element) (y element + (height element - newHeight))
                 (width element) newHeight (rotation element)
  | HandleS =>
      let newHeight := Math_max 20 (resize_height rs + deltaY) in
      mkGeometry (x element) (y element) (width element) newHeight
                 (rotation element)
  | HandleW =>
      let newWidth := Math_max 20 (resize_width rs - deltaX) in
      mkGeometry (x element + (width element - newWidth)) (y element)
                 newWidth (height element) (rotation element)
  | HandleE =>
      let newWidth := Math_max 20 (resize_width rs + deltaX) in
      mkGeometry (x element) (y element) newWidth (height element)
                 (rotation element)
  end.

(** [newRotation = newRotation % 360; if (newRotation < 0) newRotation += 360],
    the sum taken without rounding ([Rounded.normalize360] rounds it). *)
Definition normalize360 (newRotation : number) : number :=
  let newRotation := js_rem newRotation 360 in
  if Qlt_bool newRotation 0 then newRotation + 360 else newRotation.

(** [elements.find(el => el.id === dragElementId)] *)
Definition findById (target : option string) (els : list CanvasElement)
  : option CanvasElement :=
  find (idIs target) els.

Section Handlers.

Variable M : MathLib.

Definition calculateRotationAngle (centerX centerY mouseX mouseY : number)
  : number :=
  let deltaX := mouseX - centerX in
  let deltaY := mouseY - centerY in
  atan2 M deltaY deltaX * (180 / PI M).

(** The rotation that a move of the rotation gesture writes. *)
Definition rotatedTo (rs : RotateStart) (mouseX mouseY : number)
    (element : Geometry) : number :=
  let centerX := x element + width element / 2 in
  let centerY := y element + height element / 2 in
  let currentAngle := calculateRotationAngle centerX centerY mouseX mouseY in
  let startAngle :=
    calculateRotationAngle centerX centerY (rotate_x rs) (rotate_y rs) in
  let deltaAngle := currentAngle - startAngle in
  normalize360 (rotate_rotation rs + deltaAngle).

Definition handleMouseDown (props : Home.State) (c : State) (env : Env)
    (e : MouseEvent) : State * list Call :=
  if Home.isPreviewMode props then (c, [])
  else
    let elements := Home.elements props in
    match Home.activeTool props with
    | ToolText =>
        match rect env with
        | Some r =>
            let px := (clientX e - left r) / scale c in
            let py := (clientY e - top r) / scale c in
            let newId := ("text-" ++ string_of_Z (now env))%string in
            let newTextElement :=
              Drawn newId (nextZIndex elements) true
                ("Text " ++ string_of_Z
                   (Z.of_nat (List.length (filter isText elements)) + 1))%string
                None (mkGeometry px py 100 40 0)
                (KText "Text" 16 "Arial" "#000000" "transparent" AlignLeft) in
            let newElements := elements ++ [newTextElement] in
            (c, [CallUpdateElements newElements "add_text" (Some [newId]);
                 CallSelectElement newId false;
                 CallSetActiveTool ToolCursor])
        | None => (c, [])
        end
    | ToolLabel =>
        match rect env with
        | Some r =>
            let px := (clientX e - left r) / scale c in
            let py := (clientY e - top r) / scale c in
            if truthy (promptJsonKey env) then
              match promptJsonKey env with
              | Some jsonKey =>
                  let placeholder :=
                    if truthy (promptPlaceholder env)
                    then match promptPlaceholder env with
                         | Some p => p
                         | None => EmptyString
                         end
                    else ("{" ++ jsonKey ++ "}")%string in
                  let newId := ("label-" ++ string_of_Z (now env))%string in
                  let newLabelElement :=
                    Drawn newId (nextZIndex elements) true
                      ("Label " ++ string_of_Z
                         (Z.of_nat (List.length (filter isLabel elements)) + 1))%string
                      None (mkGeometry px py 120 40 0)
                      (KLabel (trim jsonKey) placeholder 50 8 "Arial" "#000000"
                              "transparent" AlignLeft AlignMiddle true) in
                  let newElements := elements ++ [newLabelElement] in
                  (c, [CallUpdateElements newElements "add_label" (Some [newId]);
                       CallSelectElement newId false;
                       CallSetActiveTool ToolCursor])
              | None => (c, [])
              end
            else (c, [])
        | None => (c, [])
        end
    | ToolSignature => (c, [CallSetActiveTool ToolCursor])
    | ToolCursor =>
        match rect env with
        | Some r =>
            let px := (clientX e - left r) / scale c in
            let py := (clientY e - top r) / scale c in
            match find (hit px py) (rev elements) with
            | Some (Drawn i _ _ _ _ g _) =>
                let isShiftClick := shiftKey e in
                if isShiftClick then (c, [CallSelectElement i isShiftClick])
                else
                  (mkState (scale c) (isDragging c)
                           (mkDragStart (px - x g) (py - y g))
                           (dragElementId c) (Some i)
                           (isResizing c) (resizeHandle c) (resizeStart c)
                           (isRotating c) (rotateStart c),
                   [CallSelectElement i isShiftClick])
            | _ => (c, [CallSelectElement EmptyString false])
            end
        | None => (c, [])
        end
    | ToolMedia => (c, [])
    end.

(** [elements.map(el => el.id === dragElementId && <el carries a geometry>
    ? { ...el, <fields> } : el)], the shape of the three updates of
    [handleMouseMove]. *)
Definition updateGeometry (target : option string) (f : Geometry -> Geometry)
    (els : list CanvasElement) : list CanvasElement :=
  map (fun el =>
         match el with
         | Drawn _ _ _ _ _ g _ =>
             if idIs target el then withGeometry el (f g) else el
         | Group _ _ _ _ _ => el
         end) els.

(** The promotion of a pending drag at the start of [handleMouseMove]. *)
Definition promote (props : Home.State) (c : State) : State :=
  if truthy (potentialDragElement c) && negb (isDragging c) &&
     negb (isResizing c) && negb (isRotating c) &&
     isCursor (Home.activeTool props)
  then mkState (scale c) true (dragStart c) (potentialDragElement c) None
               (isResizing c) (resizeHandle c) (resizeStart c)
               (isRotating c) (rotateStart c)
  else c.

Definition isSome {A : Type} (o : option A) : bool :=
  match o with Some _ => true | None => false end.

(** The conditions of the three branches read the hooks of the render the
    handler was created in ([c]), not the values that [promote] has just
    queued. *)
Definition handleMouseMove (props : Home.State) (c : State) (env : Env)
    (e : MouseEvent) : State * list Call :=
  if Home.isPreviewMode props then (c, [])
  else
    let c' := promote props c in
    let elements := Home.elements props in
    if isDragging c && truthy (dragElementId c) &&
       isCursor (Home.activeTool props) &&
       negb (isResizing c) && negb (isRotating c)
    then
      match rect env with
      | Some r =>
          let px := (clientX e - left r) / scale c in
          let py := (clientY e - top r) / scale c in
          let newX := px - drag_x (dragStart c) in
          let newY := py - drag_y (dragStart c) in
          let newElements :=
            updateGeometry (dragElementId c)
              (fun g => mkGeometry newX newY (width g) (height g) (rotation g))
              elements in
          (c', [CallSetElements newElements])
      | None => (c', [])
      end
    else if isResizing c && truthy (dragElementId c) && isSome (resizeHandle c)
    then
      match resizeHandle c, rect env with
      | Some h, Some r =>
          let mouseX := (clientX e - left r) / scale c in
          let mouseY := (clientY e - top r) / scale c in
          let deltaX := mouseX - resize_x (resizeStart c) in
          let deltaY := mouseY - resize_y (resizeStart c) in
          match findById (dragElementId c) elements with
          | Some (Drawn _ _ _ _ _ element _) =>
              let new :=
                resizeGeometry h (resizeStart c) deltaX deltaY element in
              (c', [CallSetElements
                      (updateGeometry (dragElementId c)
                         (fun g => mkGeometry (x new) (y new) (width new)
                                              (height new) (rotation g))
                         elements)])
          | _ => (c', [])
          end
      | _, _ => (c', [])
      end
    else if isRotating c && truthy (dragElementId c) then
      match rect env with
      | Some r =>
          let mouseX := (clientX e - left r) / scale c in
          let mouseY := (clientY e - top r) / scale c in
          match findById (dragElementId c) elements with
          | Some (Drawn _ _ _ _ _ element _) =>
              let newRotation :=
                rotatedTo (rotateStart c) mouseX mouseY element in
              (c', [CallSetElements
                      (updateGeometry (dragElementId c)
                         (fun g => mkGeometry (x g) (y g) (width g) (height g)
                                              newRotation)
                         elements)])
          | _ => (c', [])
          end
      | None => (c', [])
      end
    else (c', []).

(** The state every gesture hook is reset to by [handleMouseUp]. *)
Definition released (c : State) : State :=
  mkState (scale c) false (mkDragStart 0 0) None None false None
          (mkResizeStart 0 0 0 0) false (mkRotateStart 0 0 0).

Definition handleMouseUp (props : Home.State) (c : State)
  : State * list Call :=
  if Home.isPreviewMode props then (c, [])
  else
    let elements := Home.elements props in
    (released c,
     (if isDragging c && truthy (dragElementId c)
      then [CallUpdateElements elements "move_element" None] else []) ++
     (if isResizing c && truthy (dragElementId c)
      then [CallUpdateElements elements "resize_element" None] else []) ++
     (if isRotating c && truthy (dragElementId c)
      then [CallUpdateElements elements "rotate_element" None] else [])).

(** [onMouseDown] of the [div] of a signature or media element; [el] is the
    element the closure was rendered for, with geometry [g]. *)
Definition elementMouseDown (props : Home.State) (c : State) (env : Env)
    (el : CanvasElement) (g : Geometry) (e : MouseEvent)
  : State * list Call :=
  if Home.isPreviewMode props then (c, [])
  else
    (match rect env with
     | Some r =>
         let px := (clientX e - left r) / scale c in
         let py := (clientY e - top r) / scale c in
         mkState (scale c) true (mkDragStart (px - x g) (py - y g))
                 (Some (id el)) (potentialDragElement c)
                 (isResizing c) (resizeHandle c) (resizeStart c)
                 (isRotating c) (rotateStart c)
     | None => c
     end,
     [CallSelectElement (id el) (shiftKey e)]).

(** [onMouseDown] of one of the eight resize handles of an element. *)
Definition resizeHandleMouseDown (c : State) (env : Env) (h : Handle)
    (el : CanvasElement) (g : Geometry) (e : MouseEvent)
  : State * list Call :=
  (match rect env with
   | Some r =>
       let mouseX := (clientX e - left r) / scale c in
       let mouseY := (clientY e - top r) / scale c in
       mkState (scale c) (isDragging c) (dragStart c) (Some (id el))
               (potentialDragElement c) true (Some h)
               (mkResizeStart mouseX mouseY (width g) (height g))
               (isRotating c) (rotateStart c)
   | None => c
   end, []).

(** [onMouseDown] of the rotation handle of an element. *)
Definition rotateHandleMouseDown (c : State) (env : Env)
    (el : CanvasElement) (g : Geometry) (e : MouseEvent)
  : State * list Call :=
  (match rect env with
   | Some r =>
       let mouseX := (clientX e - left r) / scale c in
       let mouseY := (clientY e - top r) / scale c in
       mkState (scale c) (isDragging c) (dragStart c) (Some (id el))
               (potentialDragElement c) (isResizing c) (resizeHandle c)
               (resizeStart c) true
               (mkRotateStart mouseX mouseY (orZero (rotation g)))
   | None => c
   end, []).

End Handlers.

(** [getCanvasDimensions()] for the [canvasRatio] prop. *)
Record CanvasDimensions := mkCanvasDimensions {
  dim_width : number;
  dim_height : number;
  unitsWidth : number;
  unitsHeight : number
}.

Definition baseGridSize : number := 20.

Definition getCanvasDimensions (canvasRatio : string) : CanvasDimensions :=
  let baseUnitsWidth := 60 in
  let dimensions unitsHeight :=
    mkCanvasDimensions (baseUnitsWidth * baseGridSize)
                       (unitsHeight * baseGridSize) baseUnitsWidth unitsHeight in
  if String.eqb canvasRatio "16:9" then
    dimensions (inject_Z (Math_round (baseUnitsWidth * (9 / 16))))
  else if String.eqb canvasRatio "4:3" then
    dimensions (inject_Z (Math_round (baseUnitsWidth * (3 / 4))))
  else if String.eqb canvasRatio "1:1" then
    dimensions baseUnitsWidth
  else if String.eqb canvasRatio "3:2" then
    dimensions (inject_Z (Math_round (baseUnitsWidth * (2 / 3))))
  else if String.eqb canvasRatio "21:9" then
    dimensions (inject_Z (Math_round (baseUnitsWidth * (9 / 21))))
  else
    dimensions 45.

Definition setScale (newScale : number) (c : State) : State :=
  mkState newScale (isDragging c) (dragStart c) (dragElementId c)
          (potentialDragElement c) (isResizing c) (resizeHandle c)
          (resizeStart c) (isRotating c) (rotateStart c).

Record WheelEvent := mkWheelEvent {
  deltaY : number;
  ctrlKey : bool;
  metaKey : bool
}.

Definition handleWheel (props : Home.State) (c : State) (e : WheelEvent)
  : State :=
  if Home.isPreviewMode props then c
  else if ctrlKey e || metaKey e then
    let delta := deltaY e in
    let scaleFactor := if Qlt_bool 0 delta then 9 # 10 else 11 # 10 in
    let newScale := Math_min (Math_max (scale c * scaleFactor) (1 # 10)) 4 in
    setScale newScale c
  else c.

(** One entry of [e.touches]. *)
Record Touch := mkTouch { touch_clientX : number; touch_clientY : number }.

(** [touchStart = { distance, centerX, centerY } | null] *)
Record TouchStart := mkTouchStart {
  distance : number;
  centerX : number;
  centerY : number
}.

Section Pinch.

(** [Math.sqrt] *)
Variable Math_sqrt : number -> number.

Definition getTouchDistance (touches : list Touch) : number :=
  match touches with
  | touch1 :: touch2 :: _ =>
      let dx := touch_clientX touch1 - touch_clientX touch2 in
      let dy := touch_clientY touch1 - touch_clientY touch2 in
      Math_sqrt (dx * dx + dy * dy)
  | _ => 0
  end.

Definition getTouchCenter (touches : list Touch) : number * number :=
  match touches with
  | touch1 :: touch2 :: _ =>
      ((touch_clientX touch1 + touch_clientX touch2) / 2,
       (touch_clientY touch1 + touch_clientY touch2) / 2)
  | _ => (0, 0)
  end.

(** The touch handlers work on the hooks of the pointer handlers and the
    [touchStart] hook. *)
Definition handleTouchStart (props : Home.State)
    (v : State * option TouchStart) (touches : list Touch)
  : State * option TouchStart :=
  if Home.isPreviewMode props then v
  else if (List.length touches =? 2)%nat then
    let distance := getTouchDistance touches in
    let center := getTouchCenter touches in
    (fst v, Some (mkTouchStart distance (fst center) (snd center)))
  else v.

Definition handleTouchMove (props : Home.State)
    (v : State * option TouchStart) (touches : list Touch)
  : State * option TouchStart :=
  if Home.isPreviewMode props then v
  else
    match snd v with
    | Some touchStart =>
        if (List.length touches =? 2)%nat then
          let distance := getTouchDistance touches in
          let center := getTouchCenter touches in
          if Qlt_bool 0 (Canvas.distance touchStart) then
            let scaleFactor := distance / Canvas.distance touchStart in
            let newScale :=
              Math_min (Math_max (scale (fst v) * scaleFactor) (1 # 10)) 4 in
            (setScale newScale (fst v),
             Some (mkTouchStart distance (fst center) (snd center)))
          else v
        else v
    | None => v
    end.

Definition handleTouchEnd (v : State * option TouchStart)
    (touches : list Touch) : State * option TouchStart :=
  if (List.length touches <? 2)%nat then (fst v, None) else v.

End Pinch.

(** [getSteppedWorkspaceSize(required)] *)
Definition getSteppedWorkspaceSize (required : number) : number :=
  let steps := [3000; 4000; 5000; 6500; 8000; 10000] in
  match find (fun step => Qle_bool required step) steps with
  | Some step => step
  | None => 10000
  end.

End Canvas.

(** ** Text measurement ([utils/textMeasurement.ts]) *)

Module TextMeasurement.

(** The 2D context used for measuring, when there is one: the width that
    [ctx.measureText(text)] reports once [ctx.font] is set from a font size
    and a font family. *)
Definition MeasurementContext := number -> string -> string -> number.

Record TextDimensions := mkTextDimensions {
  t_width : number;
  t_height : number
}.

(** [measureText({ text, fontFamily, fontSize, padding = 8 })]; [ctx] is
    the result of [getMeasurementContext()]. *)
Definition measureText (ctx : option MeasurementContext) (text : string)
    (fontFamily : string) (fontSize : number) (padding : number)
  : TextDimensions :=
  match ctx with
  | None =>
      let charWidth := fontSize * (6 # 10) in
      let width :=
        inject_Z (Z.of_nat (String.length text)) * charWidth + padding * 2 in
      let height := fontSize * (12 # 10) + padding * 2 in
      mkTextDimensions width height
  | Some measure =>
      let width := measure fontSize fontFamily text + padding * 2 in
      let height := fontSize * (12 # 10) + padding * 2 in
      mkTextDimensions width height
  end.

(** The [while] loop of [calculateOptimalFontSize]; [fuel] is what is left
    of [maxIterations].  It returns [maxSize]. *)
Fixpoint search (ctx : option MeasurementContext) (text fontFamily : string)
    (availableWidth : number) (fuel : nat) (minSize maxSize : number)
  : number :=
  match fuel with
  | O => maxSize
  | S fuel' =>
      if Qle_bool minSize maxSize then
        let fontSize := inject_Z (Math_floor ((minSize + maxSize) / 2)) in
        let width := t_width (measureText ctx text fontFamily fontSize 0) in
        if Qle_bool width availableWidth
        then search ctx text fontFamily availableWidth fuel'
                    (fontSize + 1) maxSize
        else search ctx text fontFamily availableWidth fuel'
                    minSize (fontSize - 1)
      else maxSize
  end.

(** [calculateOptimalFontSize({ text, fontFamily, maxWidth, maxFontSize,
    minFontSize = 8, padding = 8 })] *)
Definition calculateOptimalFontSize (ctx : option MeasurementContext)
    (text fontFamily : string) (maxWidth maxFontSize minFontSize
     padding : number) : number :=
  if String.eqb text EmptyString || Qle_bool maxWidth (padding * 2)
  then minFontSize
  else
    let availableWidth := maxWidth - padding * 2 in
    let maxIterations := 20%nat in
    let fontSize :=
      search ctx text fontFamily availableWidth maxIterations
             minFontSize maxFontSize in
    Math_max minFontSize (Math_min fontSize maxFontSize).

End TextMeasurement.

(** ** The two components together *)

(** [Home] renders [Canvas] with its own state as props and the functions
    [setElements], [updateElements], [selectElement], [setActiveTool] as
    callbacks.  [snap] is the render the callbacks belong to. *)
Definition applyCall (snap : Home.State) (now : Z) (s : Home.State)
    (call : Canvas.Call) : Home.State :=
  match call with
  | Canvas.CallSetElements els => Home.setElements els s
  | Canvas.CallUpdateElements els operation selectedIds =>
      Home.updateElements snap now els operation selectedIds s
  | Canvas.CallSelectElement i isShiftClick =>
      Home.selectElement i isShiftClick s
  | Canvas.CallSetActiveTool t => Home.setActiveTool t s
  end.

Definition applyCalls (snap : Home.State) (now : Z) (calls : list Canvas.Call)
  : Home.State :=
  fold_left (applyCall snap now) calls snap.

Record System := mkSystem {
  page : Home.State;
  canvas : Canvas.State
}.

Inductive Event :=
| MouseDown (e : Canvas.MouseEvent)
    (* on the canvas [div], also when the pointer is over a text or label *)
| MouseMove (e : Canvas.MouseEvent)
| MouseUp   (* [onMouseUp] and [onMouseLeave] *)
| ElementMouseDown (target : string) (e : Canvas.MouseEvent)
    (* on the [div] of a signature or media element *)
| ResizeHandleMouseDown (target : string) (h : Canvas.Handle)
                        (e : Canvas.MouseEvent)
| RotateHandleMouseDown (target : string) (e : Canvas.MouseEvent)
| DeleteKey
| UndoKey
| RedoKey.

Definition isSignatureOrMedia (el : CanvasElement) : bool :=
  match el with
  | Drawn _ _ _ _ _ _ (KSignature _ _ _ _) => true
  | Drawn _ _ _ _ _ _ (KMedia _ _ _ _ _ _) => true
  | _ => false
  end.

Definition isVisible (el : CanvasElement) : bool :=
  match el with Drawn _ _ v _ _ _ _ => v | Group _ _ _ v _ => v end.

(** The element with identifier [target] that [Canvas] renders, if any:
    [elements.filter(element => element.visible && <carries a geometry>)]. *)
Definition rendered (props : Home.State) (target : string)
  : option (CanvasElement * Geometry) :=
  match find (fun el => String.eqb (id el) target && isVisible el)
             (Home.elements props) with
  | Some (Drawn i z v n gi g k) => Some (Drawn i z v n gi g k, g)
  | _ => None
  end.

(** Handles are rendered for a selected element; those of a text or label
    only outside preview mode. *)
Definition handlesShown (props : Home.State) (el : CanvasElement) : bool :=
  includes (Home.selectedElementIds props) (id el) &&
  (isSignatureOrMedia el || negb (Home.isPreviewMode props)).

Section Step.

Variable M : Canvas.MathLib.

(** The handler that an event runs, on the state of the current render. *)
Definition handle (env : Canvas.Env) (ev : Event) (sys : System)
  : Canvas.State * list Canvas.Call :=
  let props := page sys in
  let c := canvas sys in
  match ev with
  | MouseDown e => Canvas.handleMouseDown props c env e
  | MouseMove e => Canvas.handleMouseMove M props c env e
  | MouseUp => Canvas.handleMouseUp props c
  | ElementMouseDown target e =>
      match rendered props target with
      | Some (el, g) =>
          if isSignatureOrMedia el
          then Canvas.elementMouseDown props c env el g e
          else (c, [])
      | None => (c, [])
      end
  | ResizeHandleMouseDown target h e =>
      match rendered props target with
      | Some (el, g) =>
          if handlesShown props el
          then Canvas.resizeHandleMouseDown c env h el g e
          else (c, [])
      | None => (c, [])
      end
  | RotateHandleMouseDown target e =>
      match rendered props target with
      | Some (el, g) =>
          if handlesShown props el
          then Canvas.rotateHandleMouseDown c env el g e
          else (c, [])
      | None => (c, [])
      end
  | DeleteKey | UndoKey | RedoKey => (c, [])
  end.

(** One event: the handler runs, then the updates it queued are applied.
    [DeleteKey], [UndoKey] and [RedoKey] are the branches of [handleKeyDown],
    taken with the closures of the current render; the listener is
    registered again only when [selectedElementIds] changes, so they stand
    for a key pressed in a render that follows a change of the selection.
    The layer list of [Home] sorts the array of the store in place, by
    descending [zIndex], each time it renders; [step] leaves the list in
    the order in which the functions of [Home] and [Canvas] build it. *)
Definition step (env : Canvas.Env) (ev : Event) (sys : System) : System :=
  let props := page sys in
  match ev with
  | DeleteKey =>
      if (0 <? List.length (Home.selectedElementIds props))%nat
      then mkSystem (Home.deleteSelectedElements (Canvas.now env) props)
                    (canvas sys)
      else sys
  | UndoKey => mkSystem (Home.undo props) (canvas sys)
  | RedoKey => mkSystem (Home.redo props) (canvas sys)
  | _ =>
      let (c', calls) := handle env ev sys in
      mkSystem (applyCalls props (Canvas.now env) calls) c'
  end.

Fixpoint run (inputs : list (Canvas.Env * Event)) (sys : System) : System :=
  match inputs with
  | [] => sys
  | (env, ev) :: rest => run rest (step env ev sys)
  end.

(** The number of history commits an event performs: the calls of
    [saveToHistory] it makes. *)
Definition isCommit (call : Canvas.Call) : bool :=
  match call with
  | Canvas.CallUpdateElements _ _ _ => true
  | _ => false
  end.

Definition commitsOf (env : Canvas.Env) (ev : Event) (sys : System) : nat :=
  match ev with
  | DeleteKey =>
      if (0 <? List.length (Home.selectedElementIds (page sys)))%nat
      then 1 else 0
  | UndoKey | RedoKey => 0
  | _ => List.length (filter isCommit (snd (handle env ev sys)))
  end%nat.

Fixpoint commits (inputs : list (Canvas.Env * Event)) (sys : System) : nat :=
  match inputs with
  | [] => 0
  | (env, ev) :: rest => commitsOf env ev sys + commits rest (step env ev sys)
  end%nat.

End Step.

(** ** Sequences of history operations *)

(** The arguments of one call of [saveToHistory], with the clock reading. *)
Record Commit := mkCommit {
  commit_now : Z;
  commit_operation : string;
  commit_elements : option (list CanvasElement);
  commit_settings : option CanvasSettings
}.

Definition commit (c : Commit) (s : Home.State) : Home.State :=
  Home.saveToHistory s (commit_now c) (commit_operation c)
                     (commit_elements c) (commit_settings c) s.

(** The snapshot that [commit c] installs as [present]. *)
Definition committed (s : Home.State) (c : Commit) : HistoryState :=
  mkHistoryState
    (match commit_elements c with Some els => els | None => Home.elements s end)
    (match commit_settings c with Some cs => cs | None => Home.settings s end)
    (commit_now c) (commit_operation c).

Definition commitAll (cs : list Commit) (s : Home.State) : Home.State :=
  fold_left (fun s c => commit c s) cs s.

Definition undoN (n : nat) (s : Home.State) : Home.State :=
  Nat.iter n Home.undo s.

Inductive HistoryOp :=
| OpCommit (c : Commit)
| OpUndo
| OpRedo.

Definition applyOp (s : Home.State) (op : HistoryOp) : Home.State :=
  match op with
  | OpCommit c => commit c s
  | OpUndo => Home.undo s
  | OpRedo => Home.redo s
  end.

Definition applyOps (ops : list HistoryOp) (s : Home.State) : Home.State :=
  fold_left applyOp ops s.

(** The history as one stack, newest first: [present] on top of [past]. *)
Definition stack (h : HistoryStack) : list HistoryState :=
  present h :: rev (past h).

(** The live state shows the snapshot in [present]. *)
Definition synced (s : Home.State) : Prop :=
  Home.elements s = elements (present (Home.history s)) /\
  Home.settings s = canvasSettings (present (Home.history s)).

(** [n] distinct commits, for the examples: the [k]-th one stores a single
    group element of z-index [k]. *)
Definition sampleCommit (k : nat) : Commit :=
  mkCommit (Z.of_nat k) "sample" (Some [Group "g" "Group" (Z.of_nat k) true []])
           None.

Definition sampleCommits (n : nat) : list Commit :=
  map sampleCommit (seq 1 n).

(** [undo] and a commit on the history seen as one stack ([stack]). *)
Definition pop (r : list HistoryState) : list HistoryState :=
  match r with
  | _ :: b :: t => b :: t
  | _ => r
  end.

Definition trimOldest (r : list HistoryState) : list HistoryState :=
  if (Home.MAX_HISTORY_SIZE <? List.length r)%nat then removelast r else r.

(** ** Gestures *)

(** Which edges a handle drags. *)
Definition dragsWest (h : Canvas.Handle) : bool :=
  match h with
  | Canvas.HandleNW | Canvas.HandleW | Canvas.HandleSW => true
  | _ => false
  end.

Definition dragsEast (h : Canvas.Handle) : bool :=
  match h with
  | Canvas.HandleNE | Canvas.HandleE | Canvas.HandleSE => true
  | _ => false
  end.

Definition dragsNorth (h : Canvas.Handle) : bool :=
  match h with
  | Canvas.HandleNW | Canvas.HandleN | Canvas.HandleNE => true
  | _ => false
  end.

Definition dragsSouth (h : Canvas.Handle) : bool :=
  match h with
  | Canvas.HandleSW | Canvas.HandleS | Canvas.HandleSE => true
  | _ => false
  end.

(** Two geometries with the same numbers. *)
Definition sameGeometry (g1 g2 : Geometry) : Prop :=
  x g1 == x g2 /\ y g1 == y g2 /\ width g1 == width g2 /\
  height g1 == height g2 /\ rotation g1 == rotation g2.

(** No gesture is under way and none is pending. *)
Definition idle (c : Canvas.State) : Prop :=
  Canvas.isDragging c = false /\ Canvas.isResizing c = false /\
  Canvas.isRotating c = false /\ Canvas.potentialDragElement c = None.

(** A gesture is under way: [handleMouseUp] will commit. *)
Definition gestureActive (c : Canvas.State) : bool :=
  (Canvas.isDragging c || Canvas.isResizing c || Canvas.isRotating c) &&
  truthy (Canvas.dragElementId c).

Definition moveEvents (ms : list (Canvas.Env * Canvas.MouseEvent))
  : list (Canvas.Env * Event) :=
  map (fun m => (fst m, MouseMove (snd m))) ms.

(** ** Sample data for the examples *)

Definition sampleText : CanvasElement :=
  Drawn "t1" 1 true "Text 1" None (mkGeometry 100 100 200 100 0)
        (KText "Text" 16 "Arial" "#000000" "transparent" AlignLeft).

(** A signature whose width has been set to 10 in the properties panel
    ([Math.max(1, value)]). *)
Definition sampleSignature : CanvasElement :=
  Drawn "s1" 2 true "Signature 1" None (mkGeometry 100 100 10 100 0)
        (KSignature "<svg/>" "data:image/png;base64," None "#000000").

Definition samplePage (els : list CanvasElement) (selected : list string)
    (preview : bool) : Home.State :=
  Home.mkState els selected ToolCursor preview Home.initialSettings
               (Home.initialHistory 0).

Definition sampleSystem (els : list CanvasElement) (selected : list string)
  : System :=
  mkSystem (samplePage els selected false) Canvas.initialState.

(** The canvas at the origin of the viewport, the clock at [t]. *)
Definition envAt (t : Z) : Canvas.Env :=
  Canvas.mkEnv (Some (Canvas.mkDOMRect 0 0)) t None None.

Definition pointer (px py : number) : Canvas.MouseEvent :=
  Canvas.mkMouseEvent px py false.

Definition shiftPointer (px py : number) : Canvas.MouseEvent :=
  Canvas.mkMouseEvent px py true.

(** A stand-in for [Math.atan2] and [Math.PI] in the examples; the theorems
    hold for every [MathLib]. *)
Definition sampleMath : Canvas.MathLib :=
  Canvas.mkMathLib (fun dy dx => if Qle_bool 0 dx then dy else - dy) (355 # 113).

(** A drag of [sampleText] during which the Delete key removes it: pointer
    down on the element, two moves, Delete. *)
Definition dragThenDelete : list (Canvas.Env * Event) :=
  [(envAt 1, MouseDown (pointer 150 150));
   (envAt 2, MouseMove (pointer 160 160));
   (envAt 3, MouseMove (pointer 170 170));
   (envAt 4, DeleteKey)].

(** A drag of element [i] is under way. *)
Definition dragging (i : string) (c : Canvas.State) : Prop :=
  Canvas.isDragging c = true /\ Canvas.dragElementId c = Some i /\
  Canvas.isResizing c = false /\ Canvas.isRotating c = false /\
  Canvas.potentialDragElement c = None.

(** [p'] differs from [p] at most in the store and the selection. *)
Definition sameSession (p p' : Home.State) : Prop :=
  Home.isPreviewMode p' = Home.isPreviewMode p /\
  Home.activeTool p' = Home.activeTool p /\
  Home.history p' = Home.history p /\
  Home.settings p' = Home.settings p.

(** A shift-click on [sampleText] followed by two moves and a release. *)
Definition shiftDrag : list (Canvas.Env * Event) :=
  [(envAt 1, MouseDown (shiftPointer 150 150));
   (envAt 2, MouseMove (pointer 160 160));
   (envAt 3, MouseMove (pointer 170 170));
   (envAt 4, MouseUp)].

(** A resize of [target] by one move: pointer-down on handle [h] at
    [from], one move to [to]. *)
Definition resizeOnce (target : string) (h : Canvas.Handle)
    (from to : number * number) : list (Canvas.Env * Event) :=
  [(envAt 1, ResizeHandleMouseDown target h (pointer (fst from) (snd from)));
   (envAt 2, MouseMove (pointer (fst to) (snd to)))].

(** A text whose rotation is a little below 0: [-2^-46]. *)
Definition tiltedText : CanvasElement :=
  Drawn "t1" 1 true "Text 1" None
        (mkGeometry 100 100 200 100 (- (1 # 70368744177664)))
        (KText "Text" 16 "Arial" "#000000" "transparent" AlignLeft).

(** ** More operations of [Home] and [Canvas] *)

(** The snapshots of a history in the order they were made: [past], then
    [present], then what [redo] would bring back. *)
Definition timeline (h : HistoryStack) : list HistoryState :=
  past h ++ present h :: future h.

Definition redoN (n : nat) (s : Home.State) : Home.State :=
  Nat.iter n Home.redo s.

(** A sequence of undos ([true]) and redos ([false]). *)
Definition travel (moves : list bool) (s : Home.State) : Home.State :=
  fold_left (fun s (back : bool) => if back then Home.undo s else Home.redo s)
            moves s.



(** A state whose history is three sample commits old. *)
Definition sampleHistoryState : Home.State :=
  commitAll (sampleCommits 3) (Home.initialState 0).

(** A state with two elements, the text selected, whose [present] snapshot
    shows the live store. *)
Definition sampleSynced : Home.State :=
  Home.updateElements (Home.initialState 0) 1 [sampleText; sampleSignature]
    "add_text" (Some ["t1"%string]) (Home.initialState 0).

(** [el.groupId] *)
Definition groupIdOf (el : CanvasElement) : option string :=
  match el with
  | Drawn _ _ _ _ gi _ _ => gi
  | Group _ _ _ _ _ => None
  end.

(** What [createGroup] at time [now] can be taken back from: no element has
    the id of the new group or names it as its group, and the selected texts
    belong to no group yet. *)
Definition freshGroup (groupId : string) (selected : list string)
    (el : CanvasElement) : bool :=
  negb (String.eqb (id el) groupId) && negb (groupIdIs el groupId) &&
  (if includes selected (id el) && isText el
   then match groupIdOf el with None => true | Some _ => false end
   else true).

(** The sample state with both of its elements selected. *)
Definition sampleSelection : Home.State :=
  Home.setSelectedElementIds ["t1"%string; "s1"%string] sampleSynced.

(** No two elements of the store share an id. *)
Definition distinctIds (els : list CanvasElement) : Prop :=
  NoDup (map id els).

(** What reaches the canvas: the pointer and key events of [Event], the
    wheel and the touches. *)
Inductive Input :=
| PointerInput (env : Canvas.Env) (ev : Event)
| WheelInput (e : Canvas.WheelEvent)
| TouchStartInput (touches : list Canvas.Touch)
| TouchMoveInput (touches : list Canvas.Touch)
| TouchEndInput (touches : list Canvas.Touch).

(** The page and the canvas together with the [touchStart] hook. *)
Record Session := mkSession {
  system : System;
  touchStart : option Canvas.TouchStart
}.

Section Interaction.

Variable M : Canvas.MathLib.
Variable Math_sqrt : number -> number.

Definition interact (v : Session) (i : Input) : Session :=
  let props := page (system v) in
  let hooks := (canvas (system v), touchStart v) in
  let withHooks (h : Canvas.State * option Canvas.TouchStart) :=
    mkSession (mkSystem props (fst h)) (snd h) in
  match i with
  | PointerInput env ev => mkSession (step M env ev (system v)) (touchStart v)
  | WheelInput e =>
      withHooks (Canvas.handleWheel props (canvas (system v)) e, touchStart v)
  | TouchStartInput touches =>
      withHooks (Canvas.handleTouchStart Math_sqrt props hooks touches)
  | TouchMoveInput touches =>
      withHooks (Canvas.handleTouchMove Math_sqrt props hooks touches)
  | TouchEndInput touches => withHooks (Canvas.handleTouchEnd hooks touches)
  end.

Definition interactAll (inputs : list Input) (v : Session) : Session :=
  fold_left interact inputs v.

End Interaction.

(** The zoom factor is between 10% and 400%. *)
Definition zoomInRange (c : Canvas.State) : Prop :=
  1 # 10 <= Canvas.scale c /\ Canvas.scale c <= 4.

(** The test of the loop of [calculateOptimalFontSize] at the whole font
    size [z]: the text, measured without padding, is not wider than
    [availableWidth]. *)
Definition fits (ctx : option TextMeasurement.MeasurementContext)
    (text fontFamily : string) (availableWidth : number) (z : Z) : bool :=
  Qle_bool
    (TextMeasurement.t_width
       (TextMeasurement.measureText ctx text fontFamily (inject_Z z) 0))
    availableWidth.


(** [el.jsonKey] and [el.placeholder] of a label. *)
Definition labelFields (el : CanvasElement) : option (string * string) :=
  match el with
  | Drawn _ _ _ _ _ _ (KLabel jsonKey placeholder _ _ _ _ _ _ _ _) =>
      Some (jsonKey, placeholder)
  | _ => None
  end.

(** The environment of a pointer-down with the label tool: the canvas at
    the origin, the clock at [t], and the answers to the two prompts. *)
Definition envPrompt (t : Z) (jsonKey placeholder : option string)
  : Canvas.Env :=
  Canvas.mkEnv (Some (Canvas.mkDOMRect 0 0)) t jsonKey placeholder.

(** The sample page with tool [t] chosen. *)
Definition sampleTool (t : Tool) : System :=
  mkSystem (Home.setActiveTool t sampleSynced) Canvas.initialState.




Section Actions.

Variable M : Canvas.MathLib.
Variable Math_sqrt : number -> number.




End Actions.



(** ** The resize and rotate computations on doubles *)

(** The handlers of [Canvas] above compute on exact rational numbers,
    which is what the code does as long as no result has to be rounded.
    The code computes on doubles: the result of every [+], [-], [*] and
    [/] is rounded to a double, while [%], [Math.max], the comparisons and
    the copies of a field are exact.  [Rounded] gives the computations of
    the resize and rotate gestures, and the sizing of the workspace, with
    that rounding written out: [fl] is the rounding of one result.  With
    the identity for [fl] these are the definitions of [Canvas].  The
    numbers are the finite ones: no result overflows, and the scale, which
    divides, is not 0. *)
Module Rounded.

(** The nearest integer, ties to the even one. *)
Definition rnZ (t : Q) : Z :=
  let f := Qfloor t in
  match Qcompare (t - inject_Z f) (1 # 2) with
  | Lt => f
  | Gt => (f + 1)%Z
  | Eq => if Z.even f then f else (f + 1)%Z
  end.

(** The binary exponent of [q > 0]: [2 ^ ilog2 q <= q < 2 ^ (ilog2 q + 1)]. *)
Definition ilog2 (q : Q) : Z :=
  let e := (Z.log2 (Qnum q) - Z.log2 (Zpos (Qden q)))%Z in
  if Qle_bool (2 ^ e) q then e else (e - 1)%Z.

(** Rounding to the nearest number with a significand of 53 bits, ties to
    even: the rounding of IEEE 754 binary64 on the numbers whose exponent
    is in range. *)
Definition round53 (q : Q) : Q :=
  if Qeq_bool q 0 then 0
  else
    let ulp := 2 ^ (ilog2 (Qabs q) - 52) in
    Qred (inject_Z (rnZ (q / ulp)) * ulp).

(** What the theorems use of the rounding of doubles: it is monotone, and
    it leaves the integers up to [2 ^ 53] as they are. *)
Definition rounding (fl : number -> number) : Prop :=
  (forall a b : Q, a <= b -> fl a <= fl b) /\
  (forall t : Z, (Z.abs t <= 2 ^ 53)%Z -> fl (inject_Z t) == inject_Z t).

Section Arithmetic.

Variable fl : number -> number.

(** The [switch (resizeHandle)] of [handleMouseMove]. *)
Definition resizeGeometry (h : Canvas.Handle) (rs : Canvas.ResizeStart)
    (deltaX deltaY : number) (element : Geometry) : Geometry :=
  let shrunkWidth := Math_max 20 (fl (Canvas.resize_width rs - deltaX)) in
  let grownWidth := Math_max 20 (fl (Canvas.resize_width rs + deltaX)) in
  let shrunkHeight := Math_max 20 (fl (Canvas.resize_height rs - deltaY)) in
  let grownHeight := Math_max 20 (fl (Canvas.resize_height rs + deltaY)) in
  let movedX newWidth := fl (x element + fl (width element - newWidth)) in
  let movedY newHeight := fl (y element + fl (height element - newHeight)) in
  match h with
  | Canvas.HandleNW =>
      mkGeometry (movedX shrunkWidth) (movedY shrunkHeight)
                 shrunkWidth shrunkHeight (rotation element)
  | Canvas.HandleNE =>
      mkGeometry (x element) (movedY shrunkHeight)
                 grownWidth shrunkHeight (rotation element)
  | Canvas.HandleSW =>
      mkGeometry (movedX shrunkWidth) (y element)
                 shrunkWidth grownHeight (rotation element)
  | Canvas.HandleSE =>
      mkGeometry (x element) (y element) grownWidth grownHeight
                 (rotation element)
  | Canvas.HandleN =>
      mkGeometry (x element) (movedY shrunkHeight) (width element)
                 shrunkHeight (rotation element)
  | Canvas.HandleS =>
      mkGeometry (x element) (y element) (width element) grownHeight
                 (rotation element)
  | Canvas.HandleW =>
      mkGeometry (movedX shrunkWidth) (y element) shrunkWidth
                 (height element) (rotation element)
  | Canvas.HandleE =>
      mkGeometry (x element) (y element) grownWidth (height element)
                 (rotation element)
  end.

(** [newRotation = newRotation % 360; if (newRotation < 0) newRotation +=
    360]: the remainder is exact, the addition is rounded. *)
Definition normalize360 (newRotation : number) : number :=
  let newRotation := js_rem newRotation 360 in
  if Qlt_bool newRotation 0 then fl (newRotation + 360) else newRotation.

(** [(e.clientX - rect.left) / scale] and [(e.clientY - rect.top) / scale] *)
Definition pointerX (c : Canvas.State) (r : Canvas.DOMRect)
    (e : Canvas.MouseEvent) : number :=
  fl (fl (Canvas.clientX e - Canvas.left r) / Canvas.scale c).

Definition pointerY (c : Canvas.State) (r : Canvas.DOMRect)
    (e : Canvas.MouseEvent) : number :=
  fl (fl (Canvas.clientY e - Canvas.top r) / Canvas.scale c).

Variable M : Canvas.MathLib.

Definition calculateRotationAngle (centerX centerY mouseX mouseY : number)
  : number :=
  let deltaX := fl (mouseX - centerX) in
  let deltaY := fl (mouseY - centerY) in
  fl (Canvas.atan2 M deltaY deltaX * fl (180 / Canvas.PI M)).

Definition rotatedTo (rs : Canvas.RotateStart) (mouseX mouseY : number)
    (element : Geometry) : number :=
  let centerX := fl (x element + fl (width element / 2)) in
  let centerY := fl (y element + fl (height element / 2)) in
  let currentAngle := calculateRotationAngle centerX centerY mouseX mouseY in
  let startAngle :=
    calculateRotationAngle centerX centerY (Canvas.rotate_x rs)
                           (Canvas.rotate_y rs) in
  let deltaAngle := fl (currentAngle - startAngle) in
  normalize360 (fl (Canvas.rotate_rotation rs + deltaAngle)).

(** [handleMouseMove], as in [Canvas]. *)
Definition handleMouseMove (props : Home.State) (c : Canvas.State)
    (env : Canvas.Env) (e : Canvas.MouseEvent)
  : Canvas.State * list Canvas.Call :=
  if Home.isPreviewMode props then (c, [])
  else
    let c' := Canvas.promote props c in
    let elements := Home.elements props in
    if Canvas.isDragging c && truthy (Canvas.dragElementId c) &&
       Canvas.isCursor (Home.activeTool props) &&
       negb (Canvas.isResizing c) && negb (Canvas.isRotating c)
    then
      match Canvas.rect env with
      | Some r =>
          let px := pointerX c r e in
          let py := pointerY c r e in
          let newX := fl (px - Canvas.drag_x (Canvas.dragStart c)) in
          let newY := fl (py - Canvas.drag_y (Canvas.dragStart c)) in
          let newElements :=
            Canvas.updateGeometry (Canvas.dragElementId c)
              (fun g => mkGeometry newX newY (width g) (height g) (rotation g))
              elements in
          (c', [Canvas.CallSetElements newElements])
      | None => (c', [])
      end
    else if Canvas.isResizing c && truthy (Canvas.dragElementId c) &&
            Canvas.isSome (Canvas.resizeHandle c)
    then
      match Canvas.resizeHandle c, Canvas.rect env with
      | Some h, Some r =>
          let mouseX := pointerX c r e in
          let mouseY := pointerY c r e in
          let deltaX := fl (mouseX - Canvas.resize_x (Canvas.resizeStart c)) in
          let deltaY := fl (mouseY - Canvas.resize_y (Canvas.resizeStart c)) in
          match Canvas.findById (Canvas.dragElementId c) elements with
          | Some (Drawn _ _ _ _ _ element _) =>
              let new :=
                resizeGeometry h (Canvas.resizeStart c) deltaX deltaY element in
              (c', [Canvas.CallSetElements
                      (Canvas.updateGeometry (Canvas.dragElementId c)
                         (fun g => mkGeometry (x new) (y new) (width new)
                                              (height new) (rotation g))
                         elements)])
          | _ => (c', [])
          end
      | _, _ => (c', [])
      end
    else if Canvas.isRotating c && truthy (Canvas.dragElementId c) then
      match Canvas.rect env with
      | Some r =>
          let mouseX := pointerX c r e in
          let mouseY := pointerY c r e in
          match Canvas.findById (Canvas.dragElementId c) elements with
          | Some (Drawn _ _ _ _ _ element _) =>
              let newRotation :=
                rotatedTo (Canvas.rotateStart c) mouseX mouseY element in
              (c', [Canvas.CallSetElements
                      (Canvas.updateGeometry (Canvas.dragElementId c)
                         (fun g => mkGeometry (x g) (y g) (width g) (height g)
                                              newRotation)
                         elements)])
          | _ => (c', [])
          end
      | None => (c', [])
      end
    else (c', []).

(** [onMouseDown] of a resize handle and of the rotation handle. *)
Definition resizeHandleMouseDown (c : Canvas.State) (env : Canvas.Env)
    (h : Canvas.Handle) (el : CanvasElement) (g : Geometry)
    (e : Canvas.MouseEvent) : Canvas.State * list Canvas.Call :=
  (match Canvas.rect env with
   | Some r =>
       Canvas.mkState (Canvas.scale c) (Canvas.isDragging c)
         (Canvas.dragStart c) (Some (id el)) (Canvas.potentialDragElement c)
         true (Some h)
         (Canvas.mkResizeStart (pointerX c r e) (pointerY c r e)
                               (width g) (height g))
         (Canvas.isRotating c) (Canvas.rotateStart c)
   | None => c
   end, []).

Definition rotateHandleMouseDown (c : Canvas.State) (env : Canvas.Env)
    (el : CanvasElement) (g : Geometry) (e : Canvas.MouseEvent)
  : Canvas.State * list Canvas.Call :=
  (match Canvas.rect env with
   | Some r =>
       Canvas.mkState (Canvas.scale c) (Canvas.isDragging c)
         (Canvas.dragStart c) (Some (id el)) (Canvas.potentialDragElement c)
         (Canvas.isResizing c) (Canvas.resizeHandle c) (Canvas.resizeStart c)
         true
         (Canvas.mkRotateStart (pointerX c r e) (pointerY c r e)
                               (orZero (rotation g)))
   | None => c
   end, []).

(** [requiredWorkspaceSize] and [targetWorkspaceSize]. *)
Definition requiredWorkspaceSize (canvasRatio : string) (scale : number)
  : number :=
  let canvasDimensions := Canvas.getCanvasDimensions canvasRatio in
  let scaledCanvasWidth := fl (Canvas.dim_width canvasDimensions * scale) in
  let scaledCanvasHeight := fl (Canvas.dim_height canvasDimensions * scale) in
  Math_max (Math_max (fl (scaledCanvasWidth + 1200))
                     (fl (scaledCanvasHeight + 1200)))
           3000.

Definition targetWorkspaceSize (canvasRatio : string) (scale : number)
  : number :=
  Canvas.getSteppedWorkspaceSize (requiredWorkspaceSize canvasRatio scale).

(** One event of a resize or rotate gesture: the handler runs on the state
    of the current render, then the updates it queued are applied. *)
Definition event (env : Canvas.Env) (ev : Event) (sys : System) : System :=
  let props := page sys in
  let c := canvas sys in
  let outcome :=
    match ev with
    | MouseMove e => handleMouseMove props c env e
    | ResizeHandleMouseDown target h e =>
        match rendered props target with
        | Some (el, g) =>
            if handlesShown props el
            then resizeHandleMouseDown c env h el g e
            else (c, [])
        | None => (c, [])
        end
    | RotateHandleMouseDown target e =>
        match rendered props target with
        | Some (el, g) =>
            if handlesShown props el
            then rotateHandleMouseDown c env el g e
            else (c, [])
        | None => (c, [])
        end
    | _ => (c, [])
    end in
  mkSystem (applyCalls props (Canvas.now env) (snd outcome)) (fst outcome).

Definition events (inputs : list (Canvas.Env * Event)) (sys : System)
  : System :=
  fold_left (fun s input => event (fst input) (snd input) s) inputs sys.

End Arithmetic.

End Rounded.

(** The sample text selected on a canvas zoomed to 110%: the double
    nearest to 1.1. *)
Definition sampleZoomed : System :=
  mkSystem (samplePage [sampleText] ["t1"%string] false)
           (Canvas.setScale (Rounded.round53 (11 # 10)) Canvas.initialState).

(** * Theorems *)

(** ** The history engine *)

Lemma rev_tl {A : Type} (l : list A) : rev (tl l) = removelast (rev l).
Proof.
  destruct l as [|a l]; simpl; [reflexivity|].
  now rewrite removelast_last.
Qed.

Lemma stack_length (h : HistoryStack) :
  List.length (stack h) = S (List.length (past h)).
Proof. unfold stack; simpl; now rewrite length_rev. Qed.

Lemma stack_pushHistory (st : HistoryState) (h : HistoryStack) :
  stack (Home.pushHistory st h) = st :: trimOldest (stack h).
Proof.
  unfold Home.pushHistory, trimOldest, stack; simpl.
  rewrite length_app, length_rev; simpl.
  replace (List.length (past h) + 1)%nat with (S (List.length (past h))) by lia.
  destruct (Home.MAX_HISTORY_SIZE <? S (List.length (past h)))%nat.
  - rewrite rev_tl, rev_unit; reflexivity.
  - rewrite rev_unit; reflexivity.
Qed.

Lemma stack_commit (c : Commit) (s : Home.State) :
  stack (Home.history (commit c s)) =
  committed s c :: trimOldest (stack (Home.history s)).
Proof. unfold commit, Home.saveToHistory; simpl; apply stack_pushHistory. Qed.

Lemma stack_undo (s : Home.State) :
  stack (Home.history (Home.undo s)) = pop (stack (Home.history s)).
Proof.
  unfold Home.undo, stack; cbv zeta.
  destruct (past (Home.history s)) as [|a l] eqn:E.
  - simpl. rewrite E. reflexivity.
  - assert (Hne : a :: l <> []) by discriminate.
    destruct (exists_last Hne) as (l' & b & Hl). rewrite Hl.
    rewrite length_app; simpl.
    replace (List.length l' + 1 =? 0)%nat with false
      by (symmetry; apply Nat.eqb_neq; lia).
    simpl. rewrite last_last, removelast_last, rev_unit. reflexivity.
Qed.

Lemma commit_live (c : Commit) (s : Home.State) :
  Home.elements (commit c s) = Home.elements s /\
  Home.settings (commit c s) = Home.settings s /\
  Home.selectedElementIds (commit c s) = Home.selectedElementIds s.
Proof. repeat split. Qed.

Lemma commitAll_app (cs : list Commit) (c : Commit) (s : Home.State) :
  commitAll (cs ++ [c]) s = commit c (commitAll cs s).
Proof. unfold commitAll; now rewrite fold_left_app. Qed.

Lemma commitAll_live (cs : list Commit) (s : Home.State) :
  Home.elements (commitAll cs s) = Home.elements s /\
  Home.settings (commitAll cs s) = Home.settings s.
Proof.
  induction cs as [|c cs IH] using rev_ind; [now split|].
  rewrite commitAll_app.
  destruct (commit_live c (commitAll cs s)) as (He & Hs & _).
  rewrite He, Hs; exact IH.
Qed.

Lemma committed_commitAll (cs : list Commit) (c : Commit) (s : Home.State) :
  committed (commitAll cs s) c = committed s c.
Proof.
  unfold committed.
  destruct (commitAll_live cs s) as [He Hs]; now rewrite He, Hs.
Qed.

(** After at most [MAX_HISTORY_SIZE] commits the stack is the committed
    snapshots on top of what is left of the stack before them; eviction
    only starts once the stack holds more than a hundred and one entries. *)
Lemma stack_commitAll (cs : list Commit) (s : Home.State) :
  (List.length cs <= Home.MAX_HISTORY_SIZE)%nat ->
  exists m,
    (m <= List.length (stack (Home.history s)))%nat /\
    stack (Home.history (commitAll cs s)) =
      rev (map (committed s) cs) ++ firstn m (stack (Home.history s)) /\
    (m = List.length (stack (Home.history s)) \/
     (S Home.MAX_HISTORY_SIZE <= List.length cs + m)%nat).
Proof.
  unfold Home.MAX_HISTORY_SIZE.
  remember (stack (Home.history s)) as r eqn:Hr.
  induction cs as [|c cs IH] using rev_ind; intros Hlen.
  - exists (List.length r); simpl.
    rewrite firstn_all, Hr; auto.
  - rewrite length_app in Hlen; simpl in Hlen.
    destruct IH as (m & Hm & Hst & Hfull); [lia|].
    rewrite commitAll_app, stack_commit, committed_commitAll, Hst.
    clear Hst.
    rewrite map_app; cbn [map]; rewrite rev_unit.
    unfold trimOldest, Home.MAX_HISTORY_SIZE.
    rewrite !length_app, length_rev, length_map, firstn_length_le by exact Hm.
    simpl List.length.
    destruct (100 <? List.length cs + m)%nat eqn:Hfull'.
    + apply Nat.ltb_lt in Hfull'.
      destruct m as [|m]; [lia|].
      exists m; split; [lia|]; split; [|right; lia].
      rewrite removelast_app.
      * rewrite removelast_firstn by lia. reflexivity.
      * destruct r; [simpl in Hm; lia|discriminate].
    + apply Nat.ltb_ge in Hfull'.
      exists m; split; [exact Hm|]; split; [reflexivity|].
      destruct Hfull as [->|Hfull]; [left; reflexivity|right; lia].
Qed.

Lemma iter_pop_app (l1 l2 : list HistoryState) :
  l2 <> [] -> Nat.iter (List.length l1) pop (l1 ++ l2) = l2.
Proof.
  intros Hne; induction l1 as [|a l1 IH]; [reflexivity|].
  simpl List.length; rewrite Nat.iter_succ_r.
  replace (pop ((a :: l1) ++ l2)) with (l1 ++ l2); [exact IH|].
  simpl. destruct (l1 ++ l2) eqn:E; [|reflexivity].
  apply app_eq_nil in E; tauto.
Qed.

Lemma stack_undoN (n : nat) (s : Home.State) :
  stack (Home.history (undoN n s)) = Nat.iter n pop (stack (Home.history s)).
Proof.
  induction n as [|n IH]; [reflexivity|].
  unfold undoN in *; simpl. now rewrite stack_undo, IH.
Qed.

Lemma undo_synced (s : Home.State) :
  past (Home.history s) <> [] \/ synced s -> synced (Home.undo s).
Proof.
  unfold synced, Home.undo; cbv zeta.
  destruct (past (Home.history s)) as [|a l] eqn:E; simpl.
  - intros [H|H]; [congruence|exact H].
  - intros _; split; reflexivity.
Qed.

Lemma undoN_synced (n : nat) (s : Home.State) :
  past (Home.history s) <> [] \/ synced s -> (0 < n)%nat ->
  synced (undoN n s).
Proof.
  intros H Hn; destruct n as [|n]; [lia|clear Hn].
  unfold undoN; rewrite Nat.iter_succ_r.
  apply undo_synced in H.
  induction n as [|n IH]; [exact H|].
  simpl. apply undo_synced; right; exact IH.
Qed.

Lemma past_commit_length (c : Commit) (s : Home.State) :
  (1 <= List.length (past (Home.history (commit c s))))%nat.
Proof.
  unfold commit, Home.saveToHistory, Home.pushHistory, Home.MAX_HISTORY_SIZE.
  simpl.
  destruct (100 <? _)%nat eqn:L.
  - apply Nat.ltb_lt in L.
    destruct (past (Home.history s) ++ [present (Home.history s)]);
      simpl in *; lia.
  - rewrite length_app; simpl; lia.
Qed.

Lemma past_commit_nonempty (c : Commit) (s : Home.State) :
  past (Home.history (commit c s)) <> [].
Proof.
  pose proof (past_commit_length c s) as H; intros E.
  rewrite E in H; simpl in H; lia.
Qed.

Lemma stack_present (h : HistoryStack) (a : HistoryState)
    (l : list HistoryState) :
  stack h = a :: l -> present h = a.
Proof. unfold stack; intros H; now injection H. Qed.

(** C1, as the specification states it, at a concrete input: from the
    initial state, 101 commits followed by 101 undos do not bring back the
    elements that were present before the first commit; the initial
    snapshot has been evicted and the last undo finds [past] empty. *)
Lemma roundtrip_fails_beyond_capacity :
  let s := Home.initialState 0 in
  let cs := sampleCommits 101 in
  elements (present (Home.history (undoN (List.length cs) (commitAll cs s))))
  <> elements (present (Home.history s)).
Proof. vm_compute. discriminate. Qed.

(** C1 (amended): for every initial state and every sequence of N commits
    with N at most [MAX_HISTORY_SIZE] (100), N undos after them make
    [present] the snapshot it was before the first commit, and (for N > 0)
    the live elements and canvas settings are those of that snapshot. *)
Theorem undo_after_commits_roundtrip (s : Home.State) (cs : list Commit) :
  (List.length cs <= Home.MAX_HISTORY_SIZE)%nat ->
  let s' := undoN (List.length cs) (commitAll cs s) in
  present (Home.history s') = present (Home.history s) /\
  (cs <> [] ->
   Home.elements s' = elements (present (Home.history s)) /\
   Home.settings s' = canvasSettings (present (Home.history s))).
Proof.
  intros Hlen s'.
  assert (Hp : present (Home.history s') = present (Home.history s)).
  { destruct (stack_commitAll cs s Hlen) as (m & Hm & Hst & Hfull).
    assert (Hpos : (1 <= m)%nat).
    { unfold Home.MAX_HISTORY_SIZE in *.
      destruct Hfull as [->|Hfull]; [rewrite stack_length|]; lia. }
    pose proof (stack_undoN (List.length cs) (commitAll cs s)) as Hs'.
    fold s' in Hs'. rewrite Hst in Hs'.
    replace (List.length cs)
      with (List.length (rev (map (committed s) cs))) in Hs'
      by now rewrite length_rev, length_map.
    destruct m as [|m]; [lia|].
    change (stack (Home.history s))
      with (present (Home.history s) :: rev (past (Home.history s))) in Hs'.
    cbn [firstn] in Hs'.
    rewrite iter_pop_app in Hs' by discriminate.
    exact (stack_present _ _ _ Hs'). }
  split; [exact Hp|].
  intros Hne.
  assert (Hsync : synced s').
  { unfold s'. apply undoN_synced.
    - left. destruct cs as [|c cs] using rev_ind; [congruence|].
      rewrite commitAll_app. apply past_commit_nonempty.
    - destruct cs; [congruence|simpl; lia]. }
  destruct Hsync as [He Hs]; rewrite He, Hs, Hp; split; reflexivity.
Qed.

Lemma undo_after_commits_roundtrip_witness :
  let s := Home.initialState 0 in
  let cs := sampleCommits 100 in
  (List.length cs <= Home.MAX_HISTORY_SIZE)%nat /\
  present (Home.history (undoN (List.length cs) (commitAll cs s))) =
  present (Home.history s).
Proof.
  intros s cs.
  assert (H : (List.length cs <= Home.MAX_HISTORY_SIZE)%nat)
    by (vm_compute; lia).
  split; [exact H|].
  exact (proj1 (undo_after_commits_roundtrip s cs H)).
Defined.

(** C2: immediately after a commit [future] is empty; and when [undo] is
    called with [future] empty, one [redo] after it gives back the history
    stack, hence the [present] snapshot, of just before the undo, with the
    live elements and canvas settings showing that snapshot (when [past]
    was empty both calls do nothing). *)
Theorem redo_after_undo_restores (c : Commit) (s0 s : Home.State) :
  future (Home.history (commit c s0)) = [] /\
  (future (Home.history s) = [] ->
   let r := Home.redo (Home.undo s) in
   present (Home.history r) = present (Home.history s) /\
   Home.history r = Home.history s /\
   (past (Home.history s) = [] -> r = s) /\
   (past (Home.history s) <> [] ->
    Home.elements r = elements (present (Home.history s)) /\
    Home.settings r = canvasSettings (present (Home.history s)))).
Proof.
  split; [reflexivity|].
  intros Hf r; subst r.
  unfold Home.undo, Home.redo; cbv zeta.
  destruct s as [els sel tool pm cs [p pr f]]; simpl in *; subst f.
  destruct p as [|a l] eqn:E.
  - simpl. repeat split; congruence.
  - assert (Hne : a :: l <> []) by discriminate.
    destruct (exists_last Hne) as (l' & b & Hl). rewrite Hl.
    rewrite length_app; simpl.
    replace (List.length l' + 1 =? 0)%nat with false
      by (symmetry; apply Nat.eqb_neq; lia).
    simpl. rewrite last_last, removelast_last.
    repeat split; try reflexivity.
    intros H; destruct l'; discriminate.
Qed.

Lemma redo_after_undo_restores_witness :
  let s := commitAll (sampleCommits 3) (Home.initialState 0) in
  future (Home.history s) = [] /\
  present (Home.history (Home.redo (Home.undo s))) = present (Home.history s).
Proof.
  intros s.
  assert (H : future (Home.history s) = []) by reflexivity.
  split; [exact H|].
  exact (proj1 (proj2 (redo_after_undo_restores (sampleCommit 0) s s) H)).
Defined.


Lemma capacity_step (s : Home.State) (op : HistoryOp) :
  (List.length (past (Home.history s)) +
   List.length (future (Home.history s)) <= Home.MAX_HISTORY_SIZE)%nat ->
  (List.length (past (Home.history (applyOp s op))) +
   List.length (future (Home.history (applyOp s op)))
   <= Home.MAX_HISTORY_SIZE)%nat.
Proof.
  unfold Home.MAX_HISTORY_SIZE; intros H.
  destruct op as [c| |]; simpl.
  - unfold commit, Home.saveToHistory, Home.pushHistory,
      Home.MAX_HISTORY_SIZE; simpl.
    destruct (100 <? _)%nat eqn:L.
    + destruct (past (Home.history s)); simpl in *;
        rewrite ?length_app; simpl; lia.
    + apply Nat.ltb_ge in L. lia.
  - unfold Home.undo; cbv zeta. revert H.
    destruct (past (Home.history s)) as [|a l] eqn:E; intros H.
    + simpl. rewrite E. exact H.
    + assert (Hne : a :: l <> []) by discriminate.
      destruct (exists_last Hne) as (l' & b & Hl). rewrite Hl in *.
      rewrite length_app in *; simpl in H |- *.
      replace (List.length l' + 1 =? 0)%nat with false
        by (symmetry; apply Nat.eqb_neq; lia).
      simpl. rewrite removelast_last. lia.
  - unfold Home.redo. revert H.
    destruct (future (Home.history s)) eqn:E; intros H; simpl.
    + rewrite E. exact H.
    + rewrite length_app; simpl in *; lia.
Qed.

Lemma capacity_invariant (ops : list HistoryOp) (s : Home.State) :
  (List.length (past (Home.history s)) +
   List.length (future (Home.history s)) <= Home.MAX_HISTORY_SIZE)%nat ->
  (List.length (past (Home.history (applyOps ops s))) +
   List.length (future (Home.history (applyOps ops s)))
   <= Home.MAX_HISTORY_SIZE)%nat.
Proof.
  revert s; induction ops as [|op ops IH]; intros s H; [exact H|].
  simpl. apply IH, capacity_step, H.
Qed.

Lemma pop_incl (r : list HistoryState) : incl (pop r) r.
Proof.
  destruct r as [|a [|b t]]; simpl; try apply incl_refl.
  apply incl_tl, incl_refl.
Qed.

Lemma iter_pop_incl (k : nat) (r : list HistoryState) :
  incl (Nat.iter k pop r) r.
Proof.
  induction k as [|k IH]; simpl; [apply incl_refl|].
  eapply incl_tran; [apply pop_incl|exact IH].
Qed.

(** From the initial state, a hundred commits fill the stack and the next
    one evicts the initial snapshot. *)
Lemma stack_full (cs : list Commit) (now : Z) :
  List.length cs = Home.MAX_HISTORY_SIZE ->
  stack (Home.history (commitAll cs (Home.initialState now))) =
  rev (map (committed (Home.initialState now)) cs) ++
  [present (Home.initialHistory now)].
Proof.
  intros Hlen.
  destruct (stack_commitAll cs (Home.initialState now)) as (m & Hm & Hst & Hf);
    [lia|].
  rewrite Hst. f_equal.
  assert (m = 1)%nat as ->; [|reflexivity].
  unfold Home.MAX_HISTORY_SIZE in *; simpl in Hm, Hf. lia.
Qed.

Lemma pop_length (r : list HistoryState) :
  (2 <= List.length r)%nat -> List.length (pop r) = (List.length r - 1)%nat.
Proof. destruct r as [|a [|b t]]; simpl; lia. Qed.

Lemma stack_evicted (cs : list Commit) (c : Commit) (now : Z) :
  List.length cs = Home.MAX_HISTORY_SIZE ->
  stack (Home.history (commitAll (cs ++ [c]) (Home.initialState now))) =
  committed (Home.initialState now) c ::
  rev (map (committed (Home.initialState now)) cs).
Proof.
  intros Hlen.
  rewrite commitAll_app, stack_commit, committed_commitAll, stack_full
    by exact Hlen.
  unfold trimOldest.
  rewrite length_app, length_rev, length_map, Hlen; simpl.
  now rewrite removelast_last.
Qed.

(** C3: starting from the empty history, [past] never holds more than 100
    snapshots, whatever commits, undos and redos are performed; a commit on
    a full [past] evicts its oldest entry; after 101 commits the stack holds
    the snapshots of these commits only, so that no number of undos brings
    back the snapshot they started from; and after 100 commits, one undo and
    one commit, [future] is empty and [past] holds 100 snapshots. *)
Theorem history_capacity (now : Z) (ops : list HistoryOp)
    (st : HistoryState) (h : HistoryStack)
    (cs : list Commit) (c : Commit) (k : nat) :
  List.length cs = 100%nat ->
  let s0 := Home.initialState now in
  (List.length (past (Home.history (applyOps ops s0))) <= 100)%nat /\
  (List.length (past h) = 100%nat ->
   past (Home.pushHistory st h) = tl (past h) ++ [present h]) /\
  (let s101 := commitAll (cs ++ [c]) s0 in
   past (Home.history s101) = map (committed s0) cs /\
   present (Home.history s101) = committed s0 c /\
   In (present (Home.history (undoN k s101)))
      (map (committed s0) (cs ++ [c])) /\
   (~ In (present (Home.history s0)) (map (committed s0) (cs ++ [c])) ->
    present (Home.history (undoN k s101)) <> present (Home.history s0))) /\
  (let s := commit c (Home.undo (commitAll cs s0)) in
   future (Home.history s) = [] /\
   List.length (past (Home.history s)) = 100%nat).
Proof.
  intros Hlen s0; subst s0.
  split; [|split; [|split]].
  - pose proof (capacity_invariant ops (Home.initialState now)) as H.
    unfold Home.MAX_HISTORY_SIZE in H. simpl in H.
    specialize (H ltac:(lia)). lia.
  - intros Hfull. unfold Home.pushHistory, Home.MAX_HISTORY_SIZE.
    rewrite length_app, Hfull; simpl.
    destruct (past h); [discriminate|reflexivity].
  - intros s101.
    pose proof (stack_evicted cs c now Hlen) as Hst. fold s101 in Hst.
    assert (Hin : In (present (Home.history (undoN k s101)))
                     (map (committed (Home.initialState now)) (cs ++ [c]))).
    { assert (H : In (present (Home.history (undoN k s101)))
                     (stack (Home.history (undoN k s101)))) by (left; reflexivity).
      rewrite stack_undoN in H. apply iter_pop_incl in H.
      rewrite Hst in H. rewrite map_app, in_app_iff; simpl.
      destruct H as [H|H]; [right; left; exact H|left; now apply in_rev]. }
    unfold stack in Hst. injection Hst as Hpr Hpast.
    apply (f_equal (@rev _)) in Hpast. rewrite !rev_involutive in Hpast.
    repeat split; try assumption.
    intros Hnot E. apply Hnot. rewrite <- E. exact Hin.
  - intros s. split; [reflexivity|].
    assert (H : List.length (stack (Home.history s)) = 101%nat).
    { unfold s. rewrite stack_commit, stack_undo, stack_full by exact Hlen.
      unfold trimOldest, Home.MAX_HISTORY_SIZE.
      assert (L : List.length
                    (pop (rev (map (committed (Home.initialState now)) cs) ++
                          [present (Home.initialHistory now)])) = 100%nat).
      { rewrite pop_length; rewrite length_app, length_rev, length_map, Hlen;
          simpl; lia. }
      rewrite L. change (100 <? 100)%nat with false. cbv iota.
      cbn [List.length]. rewrite L. reflexivity. }
    rewrite stack_length in H. lia.
Qed.

Lemma history_capacity_witness :
  let cs := sampleCommits 100 in
  let c := sampleCommit 101 in
  let s := commit c (Home.undo (commitAll cs (Home.initialState 0))) in
  List.length cs = 100%nat /\
  future (Home.history s) = [] /\
  List.length (past (Home.history s)) = 100%nat.
Proof.
  intros cs c s.
  assert (H : List.length cs = 100%nat) by reflexivity.
  split; [exact H|].
  exact (proj2 (proj2 (proj2
           (history_capacity 0 [OpUndo; OpRedo] (committed (Home.initialState 0) c)
              (Home.initialHistory 0) cs c 101 H)))).
Defined.

(** ** Arithmetic of the handlers *)

Lemma Math_max_lower (a b : Q) : a <= Math_max a b.
Proof.
  unfold Math_max. destruct (Qle_bool a b) eqn:E.
  - now apply Qle_bool_iff.
  - apply Qle_refl.
Qed.

Lemma Qlt_bool_iff (a b : Q) : Qlt_bool a b = true <-> a < b.
Proof.
  unfold Qlt_bool. rewrite negb_true_iff.
  destruct (Qle_bool b a) eqn:E.
  - apply Qle_bool_iff in E. split; [discriminate|intros H; lra].
  - split; [intros _|reflexivity].
    apply Qnot_le_lt. intros H. apply Qle_bool_iff in H. congruence.
Qed.

(** [Math.trunc] leaves a fractional part of magnitude below one that has
    the sign of the number. *)
Lemma Math_trunc_fraction (q : Q) :
  -1 < q - inject_Z (Math_trunc q) < 1 /\
  (q < 0 -> q - inject_Z (Math_trunc q) <= 0) /\
  (0 <= q -> 0 <= q - inject_Z (Math_trunc q)).
Proof.
  destruct q as [n d]. unfold Math_trunc; cbn [Qnum Qden].
  pose proof (Z.quot_rem' n (Zpos d)) as Hqr.
  pose proof (Z.rem_bound_abs n (Zpos d) ltac:(lia)) as Habs.
  assert (Hneg : (n < 0 -> Z.rem n (Zpos d) <= 0)%Z)
    by (intros; apply Z.rem_nonpos; lia).
  assert (Hpos : (0 <= n -> 0 <= Z.rem n (Zpos d))%Z)
    by (intros; apply Z.rem_nonneg; lia).
  set (t := (n ÷ Zpos d)%Z) in *. set (r := Z.rem n (Zpos d)) in *.
  unfold Qlt, Qle, Qminus, Qplus, Qopp, inject_Z; cbn [Qnum Qden].
  repeat split; intros; nia.
Qed.

Lemma js_rem_360 (a : Q) :
  -360 < js_rem a 360 < 360 /\
  (a < 0 -> js_rem a 360 <= 0) /\
  (0 <= a -> 0 <= js_rem a 360).
Proof.
  unfold js_rem.
  destruct (Math_trunc_fraction (a / 360)) as ((Hl & Hu) & Hneg & Hpos).
  assert (Ha : a == 360 * (a / 360)) by (field).
  set (t := inject_Z (Math_trunc (a / 360))) in *.
  set (q := a / 360) in *.
  repeat split; intros.
  - lra.
  - lra.
  - assert (q < 0) by lra. specialize (Hneg H0). lra.
  - assert (0 <= q) by lra. specialize (Hpos H0). lra.
Qed.

(** ** The rounding of doubles *)

(** [Rounded.round53] is a rounding in the sense of [Rounded.rounding]:
    it is monotone, and exact on the integers up to [2 ^ 53]. *)

Lemma rnZ_cases (t : Q) :
  Rounded.rnZ t = Qfloor t \/ Rounded.rnZ t = (Qfloor t + 1)%Z.
Proof.
  unfold Rounded.rnZ.
  destruct (Qcompare _ _); [destruct (Z.even _)| |]; auto.
Qed.

Lemma rnZ_proper (s t : Q) : s == t -> Rounded.rnZ s = Rounded.rnZ t.
Proof.
  intros E. unfold Rounded.rnZ. rewrite (Qfloor_comp s t E).
  rewrite (Qcompare_comp (s - inject_Z (Qfloor t)) (t - inject_Z (Qfloor t))
             ltac:(rewrite E; reflexivity) (1 # 2) (1 # 2) (Qeq_refl _)).
  reflexivity.
Qed.

Lemma rnZ_integer (n : Z) : Rounded.rnZ (inject_Z n) = n.
Proof.
  unfold Rounded.rnZ. rewrite Qfloor_Z.
  destruct (Qcompare_spec (inject_Z n - inject_Z n) (1 # 2)) as [E|L|G];
    [exfalso; lra|reflexivity|exfalso; lra].
Qed.

Lemma rnZ_monotone (s t : Q) :
  s <= t -> (Rounded.rnZ s <= Rounded.rnZ t)%Z.
Proof.
  intros H. pose proof (Qfloor_resp_le s t H) as F.
  destruct (Z.eq_dec (Qfloor s) (Qfloor t)) as [E|N].
  - unfold Rounded.rnZ. rewrite E.
    destruct (Qcompare_spec (s - inject_Z (Qfloor t)) (1 # 2)) as [A|A|A];
      destruct (Qcompare_spec (t - inject_Z (Qfloor t)) (1 # 2)) as [B|B|B];
      try destruct (Z.even (Qfloor t)); try lia; exfalso; lra.
  - destruct (rnZ_cases s) as [-> | ->], (rnZ_cases t) as [-> | ->]; lia.
Qed.

Lemma rnZ_between (t : Q) (lo hi : Z) :
  inject_Z lo <= t -> t <= inject_Z hi ->
  (lo <= Rounded.rnZ t <= hi)%Z.
Proof.
  intros L H. split.
  - rewrite <- (rnZ_integer lo). now apply rnZ_monotone.
  - rewrite <- (rnZ_integer hi). now apply rnZ_monotone.
Qed.

Lemma pow2_pos (e : Z) : 0 < 2 ^ e.
Proof. apply Qpower_0_lt. reflexivity. Qed.

Lemma pow2_add (a b : Z) : 2 ^ (a + b) == 2 ^ a * 2 ^ b.
Proof. apply Qpower_plus. discriminate. Qed.

Lemma pow2_succ (e : Z) : 2 ^ (e + 1) == 2 * 2 ^ e.
Proof. rewrite pow2_add. change (2 ^ 1) with 2. ring. Qed.

Lemma pow2_inject (n : Z) : (0 <= n)%Z -> inject_Z (2 ^ n) == 2 ^ n.
Proof. intros H. now rewrite Zpower_Qpower. Qed.

Lemma pow2_le (a b : Z) : (a <= b)%Z -> 2 ^ a <= 2 ^ b.
Proof. intros H. apply Qpower_le_compat_l; [exact H|discriminate]. Qed.

Lemma pow2_lt_inv (a b : Z) : 2 ^ a < 2 ^ b -> (a < b)%Z.
Proof. intros H. apply (Qpower_lt_compat_l_inv 2); [exact H|reflexivity]. Qed.

(** Two numbers in order lie in binades in order. *)
Lemma binade_order (x y : Q) (a b : Z) :
  2 ^ a <= x -> y < 2 ^ (b + 1) -> x <= y -> (a <= b)%Z.
Proof.
  intros A B H. assert (L : 2 ^ a < 2 ^ (b + 1)) by lra.
  apply pow2_lt_inv in L. lia.
Qed.

Lemma ilog2_spec (q : Q) :
  0 < q ->
  2 ^ Rounded.ilog2 q <= q /\ q < 2 ^ (Rounded.ilog2 q + 1).
Proof.
  intros Hq. destruct q as [n d].
  assert (Hn : (0 < n)%Z) by (unfold Qlt in Hq; simpl in Hq; lia).
  unfold Rounded.ilog2. cbn [Qnum Qden].
  set (a := Z.log2 n). set (b := Z.log2 (Zpos d)).
  destruct (Z.log2_spec n Hn) as (A1 & A2). fold a in A1, A2.
  destruct (Z.log2_spec (Zpos d) eq_refl) as (B1 & B2). fold b in B1, B2.
  assert (Ha : (0 <= a)%Z) by apply Z.log2_nonneg.
  assert (Hb : (0 <= b)%Z) by apply Z.log2_nonneg.
  assert (QA1 : 2 ^ a <= inject_Z n)
    by (rewrite <- pow2_inject by exact Ha; now rewrite <- Zle_Qle).
  assert (QA2 : inject_Z n < 2 * 2 ^ a).
  { rewrite <- pow2_succ, <- pow2_inject by lia. rewrite <- Zlt_Qlt.
    now rewrite <- Z.add_1_r in A2. }
  assert (QB1 : 2 ^ b <= inject_Z (Zpos d))
    by (rewrite <- pow2_inject by exact Hb; now rewrite <- Zle_Qle).
  assert (QB2 : inject_Z (Zpos d) < 2 * 2 ^ b).
  { rewrite <- pow2_succ, <- pow2_inject by lia. rewrite <- Zlt_Qlt.
    now rewrite <- Z.add_1_r in B2. }
  assert (E : (n # d) * inject_Z (Zpos d) == inject_Z n).
  { rewrite (Qmake_Qdiv n d). field. discriminate. }
  assert (P : 2 ^ (a - b) * 2 ^ b == 2 ^ a).
  { rewrite <- pow2_add. now replace (a - b + b)%Z with a by lia. }
  pose proof (pow2_pos a) as Pa. pose proof (pow2_pos b) as Pb.
  pose proof (pow2_pos (a - b)) as Pe.
  set (q := n # d) in *. set (D := inject_Z (Zpos d)) in *.
  set (N := inject_Z n) in *. set (A := 2 ^ a) in *. set (B := 2 ^ b) in *.
  assert (U : q < 2 * 2 ^ (a - b)).
  { set (X := 2 ^ (a - b)) in *. clearbody q D N A B X.
    destruct (Qlt_le_dec q (2 * X)) as [L|G]; [exact L|exfalso].
    assert (2 * X * B <= q * D) by nra. nra. }
  assert (L : 2 ^ (a - b) < 2 * q).
  { set (X := 2 ^ (a - b)) in *. clearbody q D N A B X.
    destruct (Qlt_le_dec X (2 * q)) as [L|G]; [exact L|exfalso].
    assert (Hq0 : 0 < q) by exact Hq.
    assert (2 * q * D <= X * (2 * B)) by nra. nra. }
  destruct (Qle_bool (2 ^ (a - b)) q) eqn:T.
  - apply Qle_bool_iff in T. split; [exact T|]. now rewrite pow2_succ.
  - assert (G : ~ 2 ^ (a - b) <= q) by (rewrite <- Qle_bool_iff; congruence).
    replace (a - b - 1 + 1)%Z with (a - b)%Z by lia.
    split; [|lra].
    assert (S : 2 ^ (a - b) == 2 * 2 ^ (a - b - 1)).
    { rewrite <- pow2_succ. now replace (a - b - 1 + 1)%Z with (a - b)%Z by lia. }
    lra.
Qed.

Lemma round53_zero (q : Q) : q == 0 -> Rounded.round53 q = 0.
Proof.
  intros H. unfold Rounded.round53.
  apply Qeq_bool_iff in H. now rewrite H.
Qed.

Lemma round53_value (q : Q) :
  ~ q == 0 ->
  Rounded.round53 q
  == inject_Z (Rounded.rnZ (q / 2 ^ (Rounded.ilog2 (Qabs q) - 52)))
     * 2 ^ (Rounded.ilog2 (Qabs q) - 52).
Proof.
  intros H. unfold Rounded.round53.
  destruct (Qeq_bool q 0) eqn:E;
    [apply Qeq_bool_iff in E; contradiction|].
  cbv zeta. apply Qred_correct.
Qed.

(** A number of the binade of [e], counted in units in the last place. *)
Lemma binade_scaled (x : Q) (e : Z) :
  2 ^ e <= x -> x < 2 ^ (e + 1) ->
  inject_Z (2 ^ 52) <= x / 2 ^ (e - 52) /\
  x / 2 ^ (e - 52) <= inject_Z (2 ^ 53).
Proof.
  intros L U. pose proof (pow2_pos (e - 52)) as P.
  assert (E1 : 2 ^ e == inject_Z (2 ^ 52) * 2 ^ (e - 52)).
  { rewrite pow2_inject by lia. rewrite <- pow2_add.
    now replace (52 + (e - 52))%Z with e by lia. }
  assert (E2 : 2 ^ (e + 1) == inject_Z (2 ^ 53) * 2 ^ (e - 52)).
  { rewrite pow2_inject by lia. rewrite <- pow2_add.
    now replace (53 + (e - 52))%Z with (e + 1)%Z by lia. }
  split.
  - apply Qle_shift_div_l; [exact P|]. now rewrite <- E1.
  - apply Qle_shift_div_r; [exact P|]. rewrite <- E2. lra.
Qed.

Lemma binade_ends (e : Z) :
  2 ^ e == inject_Z (2 ^ 52) * 2 ^ (e - 52) /\
  2 ^ (e + 1) == inject_Z (2 ^ 53) * 2 ^ (e - 52).
Proof.
  split; rewrite pow2_inject by lia; rewrite <- pow2_add.
  - now replace (52 + (e - 52))%Z with e by lia.
  - now replace (53 + (e - 52))%Z with (e + 1)%Z by lia.
Qed.

Lemma round53_positive (q : Q) :
  0 < q ->
  2 ^ Rounded.ilog2 (Qabs q) <= Rounded.round53 q /\
  Rounded.round53 q <= 2 ^ (Rounded.ilog2 (Qabs q) + 1).
Proof.
  intros Hq. assert (Ha : Qabs q == q) by (apply Qabs_pos; lra).
  destruct (ilog2_spec (Qabs q)) as (L & U); [lra|].
  set (e := Rounded.ilog2 (Qabs q)) in *.
  rewrite Ha in L, U.
  destruct (binade_scaled q e L U) as (S1 & S2).
  destruct (rnZ_between _ _ _ S1 S2) as (R1 & R2).
  rewrite round53_value by lra. fold e.
  destruct (binade_ends e) as (-> & ->).
  pose proof (pow2_pos (e - 52)) as P.
  rewrite Zle_Qle in R1, R2.
  split; apply Qmult_le_compat_r; lra.
Qed.

Lemma round53_negative (q : Q) :
  q < 0 ->
  - 2 ^ (Rounded.ilog2 (Qabs q) + 1) <= Rounded.round53 q /\
  Rounded.round53 q <= - 2 ^ Rounded.ilog2 (Qabs q).
Proof.
  intros Hq. assert (Ha : Qabs q == - q) by (apply Qabs_neg; lra).
  destruct (ilog2_spec (Qabs q)) as (L & U); [lra|].
  set (e := Rounded.ilog2 (Qabs q)) in *.
  rewrite Ha in L, U.
  destruct (binade_scaled (- q) e L U) as (S1 & S2).
  pose proof (pow2_pos (e - 52)) as P.
  assert (N : q / 2 ^ (e - 52) == - (- q / 2 ^ (e - 52)))
    by (field; lra).
  assert (T1 : inject_Z (- 2 ^ 53) <= q / 2 ^ (e - 52))
    by (rewrite N, inject_Z_opp; lra).
  assert (T2 : q / 2 ^ (e - 52) <= inject_Z (- 2 ^ 52))
    by (rewrite N, inject_Z_opp; lra).
  destruct (rnZ_between _ _ _ T1 T2) as (R1 & R2).
  rewrite round53_value by lra. fold e.
  destruct (binade_ends e) as (-> & ->).
  rewrite Zle_Qle in R1, R2. rewrite inject_Z_opp in R1, R2.
  split.
  - setoid_replace (- (inject_Z (2 ^ 53) * 2 ^ (e - 52)))
      with (- inject_Z (2 ^ 53) * 2 ^ (e - 52)) by ring.
    apply Qmult_le_compat_r; lra.
  - setoid_replace (- (inject_Z (2 ^ 52) * 2 ^ (e - 52)))
      with (- inject_Z (2 ^ 52) * 2 ^ (e - 52)) by ring.
    apply Qmult_le_compat_r; lra.
Qed.

Lemma round53_sign (q : Q) :
  (0 <= q -> 0 <= Rounded.round53 q) /\ (q <= 0 -> Rounded.round53 q <= 0).
Proof.
  destruct (Q_dec q 0) as [[N|P]|Z].
  - destruct (round53_negative q N) as (_ & U).
    pose proof (pow2_pos (Rounded.ilog2 (Qabs q))). split; intros; lra.
  - destruct (round53_positive q P) as (L & _).
    pose proof (pow2_pos (Rounded.ilog2 (Qabs q))). split; intros; lra.
  - rewrite (round53_zero q Z). split; intros; lra.
Qed.

Lemma binade_of (q : Q) :
  ~ q == 0 ->
  2 ^ Rounded.ilog2 (Qabs q) <= Qabs q /\
  Qabs q < 2 ^ (Rounded.ilog2 (Qabs q) + 1).
Proof.
  intros H. apply ilog2_spec.
  destruct (Q_dec q 0) as [[N|P]|Z]; [| |contradiction].
  - rewrite Qabs_neg; lra.
  - rewrite Qabs_pos; lra.
Qed.

Lemma round53_same_binade (a b : Q) :
  ~ a == 0 -> ~ b == 0 -> a <= b ->
  Rounded.ilog2 (Qabs a) = Rounded.ilog2 (Qabs b) ->
  Rounded.round53 a <= Rounded.round53 b.
Proof.
  intros Ha Hb H E.
  rewrite (round53_value a Ha), (round53_value b Hb), E.
  pose proof (pow2_pos (Rounded.ilog2 (Qabs b) - 52)) as P.
  apply Qmult_le_compat_r; [|lra].
  rewrite <- Zle_Qle. apply rnZ_monotone.
  apply Qmult_le_compat_r; [exact H|].
  apply Qlt_le_weak, Qinv_lt_0_compat, P.
Qed.

Lemma round53_monotone (a b : Q) :
  a <= b -> Rounded.round53 a <= Rounded.round53 b.
Proof.
  intros H.
  destruct (Qlt_le_dec 0 a) as [Pa|Na].
  - (* 0 < a <= b *)
    assert (Pb : 0 < b) by lra.
    destruct (binade_of a) as (La & Ua); [lra|].
    destruct (binade_of b) as (Lb & Ub); [lra|].
    destruct (round53_positive a Pa) as (_ & Ra).
    destruct (round53_positive b Pb) as (Rb & _).
    set (ea := Rounded.ilog2 (Qabs a)) in *.
    set (eb := Rounded.ilog2 (Qabs b)) in *.
    rewrite (Qabs_pos a) in La, Ua by lra.
    rewrite (Qabs_pos b) in Lb, Ub by lra.
    pose proof (binade_order a b _ _ La Ub H) as O.
    destruct (Z.eq_dec ea eb) as [E|N].
    + apply round53_same_binade; [lra|lra|exact H|exact E].
    + assert (S : 2 ^ (ea + 1) <= 2 ^ eb) by (apply pow2_le; lia).
      lra.
  - destruct (Qlt_le_dec b 0) as [Nb|Pb].
    + (* a <= b < 0 *)
      assert (Na' : a < 0) by lra.
      destruct (binade_of a) as (La & Ua); [lra|].
      destruct (binade_of b) as (Lb & Ub); [lra|].
      destruct (round53_negative a Na') as (_ & Ra).
      destruct (round53_negative b Nb) as (Rb & _).
      set (ea := Rounded.ilog2 (Qabs a)) in *.
      set (eb := Rounded.ilog2 (Qabs b)) in *.
      rewrite (Qabs_neg a) in La, Ua by lra.
      rewrite (Qabs_neg b) in Lb, Ub by lra.
      assert (H' : - b <= - a) by lra.
      pose proof (binade_order (- b) (- a) _ _ Lb Ua H') as O.
      destruct (Z.eq_dec ea eb) as [E|N].
      * apply round53_same_binade; [lra|lra|exact H|exact E].
      * assert (S : 2 ^ (eb + 1) <= 2 ^ ea) by (apply pow2_le; lia).
        lra.
    + (* a <= 0 <= b *)
      pose proof (proj2 (round53_sign a) Na).
      pose proof (proj1 (round53_sign b) Pb). lra.
Qed.

Lemma round53_representable (q : Q) (n : Z) :
  ~ q == 0 ->
  q / 2 ^ (Rounded.ilog2 (Qabs q) - 52) == inject_Z n ->
  Rounded.round53 q == q.
Proof.
  intros H E. rewrite (round53_value q H).
  rewrite (rnZ_proper _ _ E), rnZ_integer, <- E.
  pose proof (pow2_pos (Rounded.ilog2 (Qabs q) - 52)).
  field. lra.
Qed.

Lemma round53_integer (t : Z) :
  (Z.abs t <= 2 ^ 53)%Z ->
  Rounded.round53 (inject_Z t) == inject_Z t.
Proof.
  intros B. destruct (Z.eq_dec t 0) as [->|N]; [reflexivity|].
  assert (H : ~ inject_Z t == 0)
    by (change 0 with (inject_Z 0); rewrite inject_Z_injective; exact N).
  destruct (binade_of (inject_Z t) H) as (L & U).
  set (e := Rounded.ilog2 (Qabs (inject_Z t))) in *.
  change (Qabs (inject_Z t)) with (inject_Z (Z.abs t)) in L, U.
  assert (B1 : 1 <= inject_Z (Z.abs t))
    by (change 1 with (inject_Z 1); rewrite <- Zle_Qle; lia).
  assert (B2 : inject_Z (Z.abs t) <= 2 ^ 53)
    by (rewrite <- pow2_inject by lia; rewrite <- Zle_Qle; exact B).
  assert (E0 : (0 <= e)%Z).
  { assert (X : 2 ^ 0 < 2 ^ (e + 1)) by (change (2 ^ 0) with 1; lra).
    apply pow2_lt_inv in X. lia. }
  assert (E1 : (e <= 53)%Z).
  { assert (X : 2 ^ e < 2 ^ 54).
    { assert (2 ^ 53 < 2 ^ 54) by reflexivity. lra. }
    apply pow2_lt_inv in X. lia. }
  destruct (Z.eq_dec e 53) as [E|E].
  - assert (A : Z.abs t = (2 ^ 53)%Z).
    { rewrite E in L. rewrite <- pow2_inject in L by lia.
      rewrite <- Zle_Qle in L. lia. }
    apply (round53_representable _ (t / 2)%Z H). fold e. rewrite E.
    destruct (Z.abs_eq_or_opp t) as [T|T]; rewrite T in A.
    + rewrite A. reflexivity.
    + assert (T' : t = (- 2 ^ 53)%Z) by lia. rewrite T'. reflexivity.
  - apply (round53_representable _ (t * 2 ^ (52 - e))%Z H). fold e.
    rewrite inject_Z_mult, pow2_inject by lia.
    replace (e - 52)%Z with (- (52 - e))%Z by lia.
    rewrite Qpower_opp.
    pose proof (pow2_pos (52 - e)). field. lra.
Qed.

Lemma round53_rounding : Rounded.rounding Rounded.round53.
Proof.
  split; [exact round53_monotone|exact round53_integer].
Qed.

(** ** The pointer handlers *)

Ltac break_match :=
  repeat match goal with
         | |- context [match ?b with _ => _ end] => destruct b eqn:?
         end.

Lemma setElements_same (p : Home.State) :
  Home.setElements (Home.elements p) p = p.
Proof. destruct p; reflexivity. Qed.

Lemma system_eta (sys : System) : mkSystem (page sys) (canvas sys) = sys.
Proof. destruct sys; reflexivity. Qed.

Lemma step_MouseDown (M : Canvas.MathLib) env e sys :
  step M env (MouseDown e) sys =
  mkSystem
    (applyCalls (page sys) (Canvas.now env)
       (snd (Canvas.handleMouseDown (page sys) (canvas sys) env e)))
    (fst (Canvas.handleMouseDown (page sys) (canvas sys) env e)).
Proof.
  unfold step, handle.
  destruct (Canvas.handleMouseDown (page sys) (canvas sys) env e); reflexivity.
Qed.

Lemma step_MouseMove (M : Canvas.MathLib) env e sys :
  step M env (MouseMove e) sys =
  mkSystem
    (applyCalls (page sys) (Canvas.now env)
       (snd (Canvas.handleMouseMove M (page sys) (canvas sys) env e)))
    (fst (Canvas.handleMouseMove M (page sys) (canvas sys) env e)).
Proof.
  unfold step, handle.
  destruct (Canvas.handleMouseMove M (page sys) (canvas sys) env e);
    reflexivity.
Qed.

Lemma step_MouseUp (M : Canvas.MathLib) env sys :
  step M env MouseUp sys =
  mkSystem
    (applyCalls (page sys) (Canvas.now env)
       (snd (Canvas.handleMouseUp (page sys) (canvas sys))))
    (fst (Canvas.handleMouseUp (page sys) (canvas sys))).
Proof.
  unfold step, handle.
  destruct (Canvas.handleMouseUp (page sys) (canvas sys)); reflexivity.
Qed.


Lemma commits_app (M : Canvas.MathLib) l1 l2 sys :
  commits M (l1 ++ l2) sys =
  (commits M l1 sys + commits M l2 (run M l1 sys))%nat.
Proof.
  revert sys; induction l1 as [|[env ev] l1 IH]; intros sys; simpl; auto.
  rewrite IH; lia.
Qed.

(** C10: in preview mode [handleMouseDown], [handleMouseMove] and
    [handleMouseUp] return at once, for every tool, pointer position and
    state of the gesture hooks: they make no call on the callbacks of
    [Home] (no element created or changed, no commit) and leave the gesture
    hooks as they are. *)
Theorem preview_mode_blocks_pointer_handlers (M : Canvas.MathLib)
    (sys : System) (env : Canvas.Env) (e : Canvas.MouseEvent) :
  Home.isPreviewMode (page sys) = true ->
  Canvas.handleMouseDown (page sys) (canvas sys) env e = (canvas sys, []) /\
  Canvas.handleMouseMove M (page sys) (canvas sys) env e = (canvas sys, []) /\
  Canvas.handleMouseUp (page sys) (canvas sys) = (canvas sys, []) /\
  step M env (MouseDown e) sys = sys /\
  step M env (MouseMove e) sys = sys /\
  step M env MouseUp sys = sys /\
  commits M [(env, MouseDown e); (env, MouseMove e); (env, MouseUp)] sys
  = 0%nat.
Proof.
  intros Hp.
  assert (Hd : Canvas.handleMouseDown (page sys) (canvas sys) env e
               = (canvas sys, []))
    by (unfold Canvas.handleMouseDown; now rewrite Hp).
  assert (Hm : Canvas.handleMouseMove M (page sys) (canvas sys) env e
               = (canvas sys, []))
    by (unfold Canvas.handleMouseMove; now rewrite Hp).
  assert (Hu : Canvas.handleMouseUp (page sys) (canvas sys)
               = (canvas sys, []))
    by (unfold Canvas.handleMouseUp; now rewrite Hp).
  assert (Sd : step M env (MouseDown e) sys = sys)
    by (rewrite step_MouseDown, Hd; apply system_eta).
  assert (Sm : step M env (MouseMove e) sys = sys)
    by (rewrite step_MouseMove, Hm; apply system_eta).
  assert (Su : step M env MouseUp sys = sys)
    by (rewrite step_MouseUp, Hu; apply system_eta).
  repeat split; try assumption.
  cbn [commits]. rewrite Sd, Sm.
  unfold commitsOf, handle. now rewrite Hd, Hm, Hu.
Qed.

Lemma preview_mode_blocks_pointer_handlers_witness :
  let sys := mkSystem (samplePage [sampleText] [] true) Canvas.initialState in
  Home.isPreviewMode (page sys) = true /\
  step sampleMath (envAt 1) (MouseDown (pointer 150 150)) sys = sys.
Proof.
  intros sys.
  assert (H : Home.isPreviewMode (page sys) = true) by reflexivity.
  split; [exact H|].
  exact (proj1 (proj2 (proj2 (proj2
           (preview_mode_blocks_pointer_handlers sampleMath sys (envAt 1)
              (pointer 150 150) H))))).
Defined.

(** ** Selection *)

Lemma includes_In (arr : list string) (s : string) :
  includes arr s = true <-> In s arr.
Proof.
  unfold includes. rewrite existsb_exists. split.
  - intros (y & Hy & E). apply String.eqb_eq in E. now subst.
  - intros H. exists s. split; [exact H|apply String.eqb_refl].
Qed.

(** The parts of C8 that hold: a plain selection makes the list of selected
    ids the one-element list of the id, and an additive one toggles the id
    and leaves the membership of every other id as it was. *)
Lemma selectElement_single_and_toggle (s : Home.State) (i : string) :
  Home.selectedElementIds (Home.selectElement i false s) = [i] /\
  (In i (Home.selectedElementIds (Home.selectElement i true s)) <->
   ~ In i (Home.selectedElementIds s)) /\
  (forall j, j <> i ->
     (In j (Home.selectedElementIds (Home.selectElement i true s)) <->
      In j (Home.selectedElementIds s))).
Proof.
  split; [reflexivity|].
  unfold Home.selectElement; simpl.
  destruct (includes (Home.selectedElementIds s) i) eqn:E.
  - apply includes_In in E. split.
    + rewrite filter_In, negb_true_iff, String.eqb_neq. tauto.
    + intros j Hj. rewrite filter_In, negb_true_iff, String.eqb_neq. tauto.
  - assert (Hn : ~ In i (Home.selectedElementIds s))
      by (rewrite <- includes_In; congruence).
    split.
    + rewrite in_app_iff; simpl. tauto.
    + intros j Hj. rewrite in_app_iff; simpl. intuition congruence.
Qed.

(** C8 at the sentinel: [selectElement('')], which [handleMouseDown] calls
    "to clear the selection", leaves one selected id, the empty string. *)
Theorem selectElement_sentinel_not_empty (s : Home.State) :
  Home.selectedElementIds (Home.selectElement EmptyString false s) = [EmptyString] /\
  Home.selectedElementIds (Home.selectElement EmptyString false s) <> [] /\
  List.length (Home.selectedElementIds (Home.selectElement EmptyString false s)) = 1%nat.
Proof. repeat split. discriminate. Qed.

(** What follows from it: after a click on the empty canvas the Delete key
    still finds a selection and commits a snapshot, with no element
    removed. *)
Lemma blank_click_then_delete_commits :
  let sys := sampleSystem [sampleText] ["t1"%string] in
  let clicked := step sampleMath (envAt 1) (MouseDown (pointer 5 5)) sys in
  Home.selectedElementIds (page clicked) = [EmptyString] /\
  commitsOf sampleMath (envAt 2) DeleteKey clicked = 1%nat /\
  Home.elements (page (step sampleMath (envAt 2) DeleteKey clicked))
  = [sampleText] /\
  List.length
    (past (Home.history (page (step sampleMath (envAt 2) DeleteKey clicked))))
  = 1%nat.
Proof. vm_compute. repeat split. Qed.

(** The [onMouseDown] closures of the resize and rotation handles are not
    among these three handlers and have no test of [isPreviewMode]: the
    handles of a signature or media element that is selected while the
    preview is on still start a gesture, which the three handlers then
    neither carry out nor end. *)
Lemma preview_handle_starts_gesture :
  let sys := mkSystem (samplePage [sampleSignature] ["s1"%string] true)
                      Canvas.initialState in
  let sys' := run sampleMath
                (resizeOnce "s1" Canvas.HandleSE (110, 200) (150, 230) ++
                 [(envAt 3, MouseUp)]) sys in
  Canvas.isResizing (canvas sys') = true /\
  page sys' = page sys.
Proof. vm_compute. split; reflexivity. Qed.

(** ** A gesture whose element has left the store *)

Lemma findById_None (els : list CanvasElement) : Canvas.findById None els = None.
Proof. induction els; simpl; auto. Qed.

Lemma updateGeometry_absent (target : option string)
    (f : Geometry -> Geometry) (els : list CanvasElement) :
  Canvas.findById target els = None ->
  Canvas.updateGeometry target f els = els.
Proof.
  unfold Canvas.findById, Canvas.updateGeometry.
  induction els as [|el els IH]; simpl; [reflexivity|].
  destruct (Canvas.idIs target el) eqn:E; [discriminate|].
  intros H. rewrite (IH H). destruct el; reflexivity.
Qed.

Lemma fst_handleMouseMove (M : Canvas.MathLib) props c env e :
  fst (Canvas.handleMouseMove M props c env e) =
  if Home.isPreviewMode props then c else Canvas.promote props c.
Proof. unfold Canvas.handleMouseMove. break_match; reflexivity. Qed.

(** A move makes no call but, possibly, one [setElements]. *)
Lemma handleMouseMove_calls (M : Canvas.MathLib) props c env e :
  snd (Canvas.handleMouseMove M props c env e) = [] \/
  exists els,
    snd (Canvas.handleMouseMove M props c env e) = [Canvas.CallSetElements els].
Proof.
  unfold Canvas.handleMouseMove.
  break_match; simpl; auto; right; eexists; reflexivity.
Qed.

Lemma handleMouseMove_absent (M : Canvas.MathLib) props c env e :
  Canvas.findById (Canvas.dragElementId c) (Home.elements props) = None ->
  snd (Canvas.handleMouseMove M props c env e) = [] \/
  snd (Canvas.handleMouseMove M props c env e)
  = [Canvas.CallSetElements (Home.elements props)].
Proof.
  intros Habs. unfold Canvas.handleMouseMove; cbv zeta.
  rewrite Habs.
  break_match; simpl; rewrite ?updateGeometry_absent by exact Habs; auto.
Qed.

Lemma step_move_absent (M : Canvas.MathLib) env e sys :
  Canvas.findById (Canvas.dragElementId (canvas sys))
                  (Home.elements (page sys)) = None ->
  page (step M env (MouseMove e) sys) = page sys /\
  commitsOf M env (MouseMove e) sys = 0%nat.
Proof.
  intros Habs. rewrite step_MouseMove. unfold commitsOf, handle.
  cbn [page].
  destruct (handleMouseMove_absent M (page sys) (canvas sys) env e Habs)
    as [-> | ->]; unfold applyCalls; cbn [fold_left applyCall filter isCommit];
    split; auto using setElements_same.
Qed.

Lemma promote_targets props c :
  (Canvas.dragElementId (Canvas.promote props c) = Canvas.dragElementId c \/
   Canvas.dragElementId (Canvas.promote props c)
   = Canvas.potentialDragElement c) /\
  (Canvas.potentialDragElement (Canvas.promote props c)
   = Canvas.potentialDragElement c \/
   Canvas.potentialDragElement (Canvas.promote props c) = None).
Proof. unfold Canvas.promote. break_match; simpl; auto. Qed.

Lemma moves_absent (M : Canvas.MathLib) ms sys :
  Canvas.findById (Canvas.dragElementId (canvas sys))
                  (Home.elements (page sys)) = None ->
  Canvas.findById (Canvas.potentialDragElement (canvas sys))
                  (Home.elements (page sys)) = None ->
  page (run M (moveEvents ms) sys) = page sys /\
  commits M (moveEvents ms) sys = 0%nat.
Proof.
  revert sys; induction ms as [|[env e] ms IH]; intros sys Hd Hp;
    [split; reflexivity|].
  unfold moveEvents; cbn [map run commits fst snd]; fold (moveEvents ms).
  destruct (step_move_absent M env e sys Hd) as [Hpage Hc].
  rewrite Hc.
  assert (Hcanvas : canvas (step M env (MouseMove e) sys) =
                    if Home.isPreviewMode (page sys) then canvas sys
                    else Canvas.promote (page sys) (canvas sys))
    by (rewrite step_MouseMove; simpl; apply fst_handleMouseMove).
  destruct (IH (step M env (MouseMove e) sys)) as [IH1 IH2].
  - rewrite Hpage, Hcanvas.
    destruct (Home.isPreviewMode (page sys)); [exact Hd|].
    destruct (promote_targets (page sys) (canvas sys)) as [[->| ->] _];
      assumption.
  - rewrite Hpage, Hcanvas.
    destruct (Home.isPreviewMode (page sys)); [exact Hp|].
    destruct (promote_targets (page sys) (canvas sys)) as [_ [->| ->]];
      [assumption|apply findById_None].
  - rewrite IH1, IH2, Hpage. split; reflexivity.
Qed.

Lemma handleMouseUp_commits props c :
  Home.isPreviewMode props = false ->
  gestureActive c = true ->
  (1 <= List.length (filter isCommit (snd (Canvas.handleMouseUp props c))))%nat /\
  Forall (fun call => exists op,
            call = Canvas.CallUpdateElements (Home.elements props) op None)
         (snd (Canvas.handleMouseUp props c)).
Proof.
  unfold gestureActive, Canvas.handleMouseUp. intros -> H.
  apply andb_true_iff in H as [Hflag ->]. rewrite !andb_true_r.
  destruct (Canvas.isDragging c), (Canvas.isResizing c),
    (Canvas.isRotating c); try discriminate; simpl;
    (split; [lia|repeat constructor; eexists; reflexivity]).
Qed.

Lemma applyCalls_commits snap now (calls : list Canvas.Call) :
  Forall (fun call => exists op,
            call = Canvas.CallUpdateElements (Home.elements snap) op None)
         calls ->
  forall s, Home.elements s = Home.elements snap ->
  Home.elements (fold_left (applyCall snap now) calls s) = Home.elements snap /\
  (calls <> [] ->
   elements (present (Home.history (fold_left (applyCall snap now) calls s)))
   = Home.elements snap).
Proof.
  induction 1 as [|call calls (op & ->) _ IH]; intros s Hs.
  - split; [exact Hs|congruence].
  - simpl. destruct (IH (Home.updateElements snap now (Home.elements snap) op
                           None s) eq_refl) as [IH1 IH2].
    split; [exact IH1|]. intros _.
    destruct calls as [|call' calls']; [reflexivity|].
    apply IH2; discriminate.
Qed.

(** C7, as the specification states it, at a concrete input: the text
    element is deleted in the middle of a drag; the next move changes
    nothing, but the pointer-up that ends the gesture performs a commit. *)
Lemma removed_target_still_commits :
  let sys := run sampleMath dragThenDelete (sampleSystem [sampleText] []) in
  let sys' := step sampleMath (envAt 5) (MouseMove (pointer 180 180)) sys in
  Home.elements (page sys) = [] /\
  Home.elements (page sys') = [] /\
  commitsOf sampleMath (envAt 6) MouseUp sys' = 1%nat.
Proof. vm_compute. repeat split. Qed.

(** C7 (amended): once the element a gesture refers to is no longer in the
    store, every pointer-move leaves the store (and the rest of the state of
    [Home]) unchanged and commits nothing; the pointer-up that ends the
    gesture performs the commit of the gesture all the same, with the
    unchanged store as its snapshot. *)
Theorem removed_target_moves_keep_store (M : Canvas.MathLib) (sys : System)
    (ms : list (Canvas.Env * Canvas.MouseEvent)) (envU : Canvas.Env) :
  Canvas.findById (Canvas.dragElementId (canvas sys))
                  (Home.elements (page sys)) = None ->
  Canvas.findById (Canvas.potentialDragElement (canvas sys))
                  (Home.elements (page sys)) = None ->
  let sys' := run M (moveEvents ms) sys in
  page sys' = page sys /\
  commits M (moveEvents ms) sys = 0%nat /\
  (Home.isPreviewMode (page sys) = false ->
   gestureActive (canvas sys') = true ->
   (1 <= commitsOf M envU MouseUp sys')%nat /\
   Home.elements (page (step M envU MouseUp sys')) = Home.elements (page sys) /\
   elements (present (Home.history (page (step M envU MouseUp sys'))))
   = Home.elements (page sys)).
Proof.
  intros Hd Hp sys'.
  destruct (moves_absent M ms sys Hd Hp) as [Hpage Hc]. fold sys' in Hpage.
  split; [exact Hpage|]. split; [exact Hc|].
  intros Hprev Hact.
  destruct (handleMouseUp_commits (page sys') (canvas sys')) as [Hn Hall];
    [now rewrite Hpage|exact Hact|].
  split; [exact Hn|].
  rewrite step_MouseUp; cbn [page]. unfold applyCalls.
  destruct (applyCalls_commits (page sys') (Canvas.now envU) _ Hall
              (page sys') eq_refl) as [He Hh].
  rewrite He, Hh, Hpage; [split; reflexivity|].
  intros E. rewrite E in Hn. simpl in Hn. lia.
Qed.

Lemma removed_target_moves_keep_store_witness :
  let sys := run sampleMath dragThenDelete (sampleSystem [sampleText] []) in
  let ms := [(envAt 5, pointer 180 180)] in
  let sys' := run sampleMath (moveEvents ms) sys in
  Canvas.findById (Canvas.dragElementId (canvas sys))
                  (Home.elements (page sys)) = None /\
  Canvas.findById (Canvas.potentialDragElement (canvas sys))
                  (Home.elements (page sys)) = None /\
  Home.isPreviewMode (page sys) = false /\
  gestureActive (canvas sys') = true /\
  page sys' = page sys /\
  (1 <= commitsOf sampleMath (envAt 6) MouseUp sys')%nat.
Proof.
  intros sys ms sys'.
  assert (Hd : Canvas.findById (Canvas.dragElementId (canvas sys))
                 (Home.elements (page sys)) = None) by reflexivity.
  assert (Hp : Canvas.findById (Canvas.potentialDragElement (canvas sys))
                 (Home.elements (page sys)) = None) by reflexivity.
  assert (Hv : Home.isPreviewMode (page sys) = false) by reflexivity.
  assert (Ha : gestureActive (canvas sys') = true) by reflexivity.
  pose proof (removed_target_moves_keep_store sampleMath sys ms (envAt 6)
                Hd Hp) as (H1 & _ & H3).
  split; [exact Hd|]. split; [exact Hp|]. split; [exact Hv|].
  split; [exact Ha|]. split; [exact H1|].
  exact (proj1 (H3 Hv Ha)).
Defined.

(** ** Click and drag *)

Lemma sameSession_refl p : sameSession p p.
Proof. repeat split. Qed.

Lemma sameSession_trans p q r :
  sameSession p q -> sameSession q r -> sameSession p r.
Proof. unfold sameSession; intuition congruence. Qed.

Lemma promote_no_pending props c :
  Canvas.potentialDragElement c = None -> Canvas.promote props c = c.
Proof. unfold Canvas.promote; intros ->; reflexivity. Qed.

Lemma step_move_session (M : Canvas.MathLib) env e sys :
  sameSession (page sys) (page (step M env (MouseMove e) sys)) /\
  Home.selectedElementIds (page (step M env (MouseMove e) sys))
  = Home.selectedElementIds (page sys) /\
  commitsOf M env (MouseMove e) sys = 0%nat.
Proof.
  rewrite step_MouseMove. unfold commitsOf, handle; cbn [page].
  destruct (handleMouseMove_calls M (page sys) (canvas sys) env e)
    as [-> | (els & ->)]; repeat split.
Qed.

Lemma step_move_dragging (M : Canvas.MathLib) env e sys i :
  dragging i (canvas sys) ->
  canvas (step M env (MouseMove e) sys) = canvas sys.
Proof.
  intros (_ & _ & _ & _ & Hp).
  rewrite step_MouseMove; cbn [canvas]. rewrite fst_handleMouseMove.
  rewrite promote_no_pending by exact Hp.
  now destruct (Home.isPreviewMode (page sys)).
Qed.

Lemma moves_dragging (M : Canvas.MathLib) ms sys i :
  dragging i (canvas sys) ->
  canvas (run M (moveEvents ms) sys) = canvas sys /\
  sameSession (page sys) (page (run M (moveEvents ms) sys)) /\
  commits M (moveEvents ms) sys = 0%nat.
Proof.
  revert sys; induction ms as [|[env e] ms IH]; intros sys Hd.
  - repeat split.
  - unfold moveEvents; cbn [map run commits fst snd]; fold (moveEvents ms).
    pose proof (step_move_dragging M env e sys i Hd) as Hc.
    destruct (step_move_session M env e sys) as (Hs & _ & Hn).
    destruct (IH (step M env (MouseMove e) sys)) as (IH1 & IH2 & IH3);
      [now rewrite Hc|].
    rewrite IH1, IH3, Hn, Hc.
    split; [reflexivity|split; [|reflexivity]].
    eapply sameSession_trans; eassumption.
Qed.

(** The first move after a pointer-down that left a pending drag only
    promotes it. *)
Lemma step_move_pending (M : Canvas.MathLib) env e sys i :
  i <> EmptyString ->
  Home.isPreviewMode (page sys) = false ->
  Home.activeTool (page sys) = ToolCursor ->
  Canvas.isDragging (canvas sys) = false ->
  Canvas.isResizing (canvas sys) = false ->
  Canvas.isRotating (canvas sys) = false ->
  Canvas.potentialDragElement (canvas sys) = Some i ->
  page (step M env (MouseMove e) sys) = page sys /\
  dragging i (canvas (step M env (MouseMove e) sys)) /\
  commitsOf M env (MouseMove e) sys = 0%nat.
Proof.
  intros Hi Hv Ht Hd Hr Ho Hp.
  assert (Hne : String.eqb i EmptyString = false) by now apply String.eqb_neq.
  rewrite step_MouseMove. unfold commitsOf, handle, Canvas.handleMouseMove,
    Canvas.promote, dragging.
  rewrite Hv, Ht, Hd, Hr, Ho, Hp. cbn. rewrite Hne. cbn.
  repeat split; auto.
Qed.

Lemma handleMouseUp_idle props c :
  Canvas.isDragging c = false -> Canvas.isResizing c = false ->
  Canvas.isRotating c = false ->
  snd (Canvas.handleMouseUp props c) = [].
Proof.
  intros Hd Hr Ho. unfold Canvas.handleMouseUp.
  rewrite Hd, Hr, Ho. now destruct (Home.isPreviewMode props).
Qed.

Lemma handleMouseUp_dragging props c i :
  i <> EmptyString -> Home.isPreviewMode props = false -> dragging i c ->
  snd (Canvas.handleMouseUp props c) =
  [Canvas.CallUpdateElements (Home.elements props) "move_element" None].
Proof.
  intros Hi Hv (Hd & Hid & Hr & Ho & _).
  assert (Hne : String.eqb i EmptyString = false) by now apply String.eqb_neq.
  unfold Canvas.handleMouseUp. rewrite Hv, Hd, Hid, Hr, Ho. cbn.
  now rewrite Hne.
Qed.

(** What [handleMouseDown] does with the cursor tool when the pointer is
    over a text or a label. *)
Lemma handleMouseDown_hit props c env e r i z v n gi g k :
  Home.isPreviewMode props = false ->
  Home.activeTool props = ToolCursor ->
  Canvas.rect env = Some r ->
  find (Canvas.hit ((Canvas.clientX e - Canvas.left r) / Canvas.scale c)
                   ((Canvas.clientY e - Canvas.top r) / Canvas.scale c))
       (rev (Home.elements props)) = Some (Drawn i z v n gi g k) ->
  snd (Canvas.handleMouseDown props c env e)
  = [Canvas.CallSelectElement i (Canvas.shiftKey e)] /\
  let c' := fst (Canvas.handleMouseDown props c env e) in
  Canvas.isDragging c' = Canvas.isDragging c /\
  Canvas.isResizing c' = Canvas.isResizing c /\
  Canvas.isRotating c' = Canvas.isRotating c /\
  Canvas.potentialDragElement c' =
  (if Canvas.shiftKey e then Canvas.potentialDragElement c else Some i).
Proof.
  intros Hv Ht Hr Hf. unfold Canvas.handleMouseDown.
  rewrite Hv, Ht, Hr. cbv zeta. rewrite Hf.
  destruct (Canvas.shiftKey e); repeat split.
Qed.

Lemma selectElement_session i b p :
  sameSession p (Home.selectElement i b p) /\
  Home.elements (Home.selectElement i b p) = Home.elements p.
Proof. unfold Home.selectElement; destruct b; repeat split. Qed.

Lemma updateElements_effect snap now els op sel s :
  Home.history (Home.updateElements snap now els op sel s) =
  Home.pushHistory (mkHistoryState els (Home.settings snap) now op)
                   (Home.history s) /\
  Home.elements (Home.updateElements snap now els op sel s) = els.
Proof. destruct sel; split; reflexivity. Qed.

(** C6, as the specification states it, at a concrete input: a pointer-down
    on a text element with the shift key held, two moves and a pointer-up
    produce no commit at all ([handleMouseDown] prepares a drag only
    "if not shift clicking"). *)
Lemma shift_drag_commits_nothing :
  commits sampleMath shiftDrag (sampleSystem [sampleText] []) = 0%nat /\
  Home.elements (page (run sampleMath shiftDrag (sampleSystem [sampleText] [])))
  = [sampleText].
Proof. vm_compute. split; reflexivity. Qed.

(** The [onMouseDown] of a signature or media element sets [isDragging] at
    once: a click on it without any move commits a [move_element]
    snapshot. *)
Lemma signature_click_commits :
  let click := [(envAt 1, ElementMouseDown "s1" (pointer 105 150));
                (envAt 2, MouseUp)] in
  let sys := sampleSystem [sampleSignature] [] in
  commits sampleMath click sys = 1%nat /\
  Home.elements (page (run sampleMath click sys)) = [sampleSignature] /\
  List.length (past (Home.history (page (run sampleMath click sys)))) = 1%nat.
Proof. vm_compute. repeat split. Qed.

(** C6 (amended): with the cursor tool, outside preview mode and with no
    gesture under way, a pointer-down over a text or label element followed
    at once by a pointer-up commits nothing and leaves the store and the
    history as they are; when the shift key is not held, the same
    pointer-down, one or more moves and a pointer-up perform exactly one
    commit, [move_element], whose snapshot is the store as the last move
    left it. *)
Theorem click_and_drag_commits (M : Canvas.MathLib) (sys : System)
    (env0 envU : Canvas.Env) (e : Canvas.MouseEvent) (r : Canvas.DOMRect)
    i z v n gi g k
    (m : Canvas.Env * Canvas.MouseEvent)
    (ms : list (Canvas.Env * Canvas.MouseEvent)) :
  Home.isPreviewMode (page sys) = false ->
  Home.activeTool (page sys) = ToolCursor ->
  idle (canvas sys) ->
  Canvas.rect env0 = Some r ->
  find (Canvas.hit
          ((Canvas.clientX e - Canvas.left r) / Canvas.scale (canvas sys))
          ((Canvas.clientY e - Canvas.top r) / Canvas.scale (canvas sys)))
       (rev (Home.elements (page sys))) = Some (Drawn i z v n gi g k) ->
  (let click := [(env0, MouseDown e); (envU, MouseUp)] in
   commits M click sys = 0%nat /\
   Home.elements (page (run M click sys)) = Home.elements (page sys) /\
   Home.history (page (run M click sys)) = Home.history (page sys)) /\
  (Canvas.shiftKey e = false -> i <> EmptyString ->
   let moves := (env0, MouseDown e) :: moveEvents (m :: ms) in
   let before := run M moves sys in
   let after := step M envU MouseUp before in
   commits M (moves ++ [(envU, MouseUp)]) sys = 1%nat /\
   Home.elements (page after) = Home.elements (page before) /\
   Home.history (page after) =
   Home.pushHistory
     (mkHistoryState (Home.elements (page before)) (Home.settings (page sys))
                     (Canvas.now envU) "move_element")
     (Home.history (page sys))).
Proof.
  intros Hv Ht (Hd & Hr & Ho & Hp) Hrect Hfind.
  destruct (handleMouseDown_hit (page sys) (canvas sys) env0 e r
              i z v n gi g k Hv Ht Hrect Hfind)
    as (Hcalls & Hd1 & Hr1 & Ho1 & Hp1).
  set (sys1 := step M env0 (MouseDown e) sys).
  assert (Hpage1 : page sys1
                   = Home.selectElement i (Canvas.shiftKey e) (page sys))
    by (unfold sys1; rewrite step_MouseDown, Hcalls; reflexivity).
  assert (Hcanvas1 : canvas sys1
                     = fst (Canvas.handleMouseDown (page sys) (canvas sys)
                              env0 e))
    by (unfold sys1; rewrite step_MouseDown; reflexivity).
  destruct (selectElement_session i (Canvas.shiftKey e) (page sys))
    as ((Sv & St & Sh & Ss) & Sel).
  assert (Hc0 : commitsOf M env0 (MouseDown e) sys = 0%nat)
    by (unfold commitsOf, handle; now rewrite Hcalls).
  rewrite <- Hcanvas1 in Hd1, Hr1, Ho1, Hp1.
  rewrite Hd in Hd1. rewrite Hr in Hr1. rewrite Ho in Ho1.
  split.
  - intros click. unfold click. cbn [commits run]. fold sys1.
    assert (Hup : snd (Canvas.handleMouseUp (page sys1) (canvas sys1)) = [])
      by (apply handleMouseUp_idle; assumption).
    rewrite Hc0, step_MouseUp, Hup. unfold commitsOf, handle. rewrite Hup.
    unfold applyCalls. cbn [page fold_left filter List.length Nat.add].
    rewrite Hpage1, Sel, Sh. repeat split.
  - intros Hshift Hi moves before after.
    rewrite Hshift in Hp1.
    destruct m as [env1 e1].
    set (sys2 := step M env1 (MouseMove e1) sys1).
    destruct (step_move_pending M env1 e1 sys1 i Hi) as (Hpage2 & Hdrag2 & Hc2);
      try assumption; try (rewrite Hpage1; congruence).
    fold sys2 in Hpage2, Hdrag2.
    destruct (moves_dragging M ms sys2 i Hdrag2) as (Hcanvas3 & Hsess3 & Hc3).
    assert (Hbefore : before = run M (moveEvents ms) sys2) by reflexivity.
    rewrite <- Hbefore in Hcanvas3, Hsess3.
    destruct Hsess3 as (Bv & Bt & Bh & Bs).
    assert (Hup : snd (Canvas.handleMouseUp (page before) (canvas before))
                  = [Canvas.CallUpdateElements (Home.elements (page before))
                       "move_element" None]).
    { apply (handleMouseUp_dragging _ _ i Hi).
      - rewrite Bv, Hpage2, Hpage1; congruence.
      - now rewrite Hcanvas3. }
    split; [|split].
    + unfold moves. cbn [app]. cbn [commits]. fold sys1.
      rewrite Hc0, commits_app.
      unfold moveEvents at 1; cbn [map fst snd commits]; fold (moveEvents ms).
      fold sys2. rewrite Hc2, Hc3.
      unfold moveEvents at 1; cbn [map fst snd run]; fold (moveEvents ms).
      fold sys2. rewrite <- Hbefore. cbn [commits].
      unfold commitsOf, handle. rewrite Hup. reflexivity.
    + unfold after. rewrite step_MouseUp, Hup. reflexivity.
    + unfold after. rewrite step_MouseUp, Hup.
      unfold applyCalls; cbn [page fold_left applyCall].
      rewrite (proj1 (updateElements_effect _ _ _ _ _ _)).
      rewrite Bh, Bs, Hpage2, Hpage1, Sh, Ss. reflexivity.
Qed.

Lemma click_and_drag_commits_witness :
  let sys := sampleSystem [sampleText] [] in
  let e := pointer 150 150 in
  let moves :=
    (envAt 1, MouseDown e) ::
    moveEvents [(envAt 2, pointer 160 160); (envAt 3, pointer 170 170)] in
  Home.isPreviewMode (page sys) = false /\
  Home.activeTool (page sys) = ToolCursor /\
  idle (canvas sys) /\
  Canvas.shiftKey e = false /\
  commits sampleMath (moves ++ [(envAt 4, MouseUp)]) sys = 1%nat.
Proof.
  intros sys e moves.
  assert (Hv : Home.isPreviewMode (page sys) = false) by reflexivity.
  assert (Ht : Home.activeTool (page sys) = ToolCursor) by reflexivity.
  assert (Hi : idle (canvas sys)) by (repeat split).
  assert (Hs : Canvas.shiftKey e = false) by reflexivity.
  assert (Hn : "t1"%string <> EmptyString) by discriminate.
  pose proof (click_and_drag_commits sampleMath sys (envAt 1) (envAt 4) e
                (Canvas.mkDOMRect 0 0) "t1" 1 true "Text 1" None
                (mkGeometry 100 100 200 100 0)
                (KText "Text" 16 "Arial" "#000000" "transparent" AlignLeft)
                (envAt 2, pointer 160 160) [(envAt 3, pointer 170 170)]
                Hv Ht Hi eq_refl eq_refl) as (_ & H).
  split; [exact Hv|]. split; [exact Ht|]. split; [exact Hi|].
  split; [exact Hs|].
  exact (proj1 (H Hs Hn)).
Defined.
(** ** Resize and rotation moves, on doubles *)

Lemma findById_updateGeometry (target : option string)
    (f : Geometry -> Geometry) (els : list CanvasElement) i z v n gi g k :
  Canvas.findById target els = Some (Drawn i z v n gi g k) ->
  Canvas.findById target (Canvas.updateGeometry target f els)
  = Some (Drawn i z v n gi (f g) k).
Proof.
  unfold Canvas.findById, Canvas.updateGeometry.
  induction els as [|el els IH]; simpl; [discriminate|].
  destruct (Canvas.idIs target el) eqn:E.
  - intros H; injection H as ->.
    change (Canvas.idIs target (withGeometry (Drawn i z v n gi g k) (f g)))
      with (Canvas.idIs target (Drawn i z v n gi g k)).
    now rewrite E.
  - intros H. destruct el; rewrite E; auto.
Qed.

(** With no rounding, [Rounded.handleMouseMove] is the handler of
    [Canvas]. *)
Lemma handleMouseMove_unrounded (M : Canvas.MathLib) props c env e :
  Rounded.handleMouseMove (fun q => q) M props c env e
  = Canvas.handleMouseMove M props c env e.
Proof. reflexivity. Qed.

Lemma rounding_unrounded : Rounded.rounding (fun q => q).
Proof. split; [intros a b H; exact H|intros t _; reflexivity]. Qed.

Lemma rounding_proper (fl : Q -> Q) :
  Rounded.rounding fl -> forall a b, a == b -> fl a == fl b.
Proof.
  intros [Hm _] a b E. apply Qle_antisym; apply Hm; rewrite E; apply Qle_refl.
Qed.

Lemma rounding_integer (fl : Q -> Q) (q : Q) (t : Z) :
  Rounded.rounding fl -> q == inject_Z t -> (Z.abs t <=? 2 ^ 53)%Z = true ->
  fl q == inject_Z t.
Proof.
  intros H E B. rewrite (rounding_proper fl H _ _ E).
  apply (proj2 H). now apply Z.leb_le.
Qed.

Lemma Math_max_value (a b c : Q) :
  b == c -> a <= c -> Math_max a b == c.
Proof.
  intros E H. unfold Math_max. destruct (Qle_bool a b) eqn:L; [exact E|].
  exfalso. assert (a <= b) by (rewrite E; exact H).
  apply Qle_bool_iff in H0. congruence.
Qed.

(** A move of a resize gesture writes [Rounded.resizeGeometry] of the
    element it finds in the store. *)
Lemma event_move_resizing (fl : Q -> Q) (M : Canvas.MathLib) sys env e h r
    i z v n gi g k :
  Home.isPreviewMode (page sys) = false ->
  Canvas.isResizing (canvas sys) = true ->
  Canvas.resizeHandle (canvas sys) = Some h ->
  truthy (Canvas.dragElementId (canvas sys)) = true ->
  Canvas.rect env = Some r ->
  Canvas.findById (Canvas.dragElementId (canvas sys))
                  (Home.elements (page sys)) = Some (Drawn i z v n gi g k) ->
  Home.elements (page (Rounded.event fl M env (MouseMove e) sys)) =
  Canvas.updateGeometry (Canvas.dragElementId (canvas sys))
    (fun g0 =>
       let new :=
         Rounded.resizeGeometry fl h (Canvas.resizeStart (canvas sys))
           (fl (Rounded.pointerX fl (canvas sys) r e
                - Canvas.resize_x (Canvas.resizeStart (canvas sys))))
           (fl (Rounded.pointerY fl (canvas sys) r e
                - Canvas.resize_y (Canvas.resizeStart (canvas sys)))) g in
       mkGeometry (x new) (y new) (width new) (height new) (rotation g0))
    (Home.elements (page sys)).
Proof.
  intros Hv Hr Hh Ht Hrect Hf.
  unfold Rounded.event, Rounded.handleMouseMove.
  rewrite Hv, Hr, Hh, Ht, Hrect. cbv zeta. rewrite Hf.
  rewrite !andb_false_r. reflexivity.
Qed.

Lemma event_move_rotating (fl : Q -> Q) (M : Canvas.MathLib) sys env e r
    i z v n gi g k :
  Home.isPreviewMode (page sys) = false ->
  Canvas.isRotating (canvas sys) = true ->
  Canvas.isResizing (canvas sys) = false ->
  truthy (Canvas.dragElementId (canvas sys)) = true ->
  Canvas.rect env = Some r ->
  Canvas.findById (Canvas.dragElementId (canvas sys))
                  (Home.elements (page sys)) = Some (Drawn i z v n gi g k) ->
  Home.elements (page (Rounded.event fl M env (MouseMove e) sys)) =
  Canvas.updateGeometry (Canvas.dragElementId (canvas sys))
    (fun g0 =>
       mkGeometry (x g0) (y g0) (width g0) (height g0)
         (Rounded.rotatedTo fl M (Canvas.rotateStart (canvas sys))
            (Rounded.pointerX fl (canvas sys) r e)
            (Rounded.pointerY fl (canvas sys) r e) g))
    (Home.elements (page sys)).
Proof.
  intros Hv Ho Hr Ht Hrect Hf.
  unfold Rounded.event, Rounded.handleMouseMove.
  rewrite Hv, Hr, Ho, Ht, Hrect. cbv zeta. rewrite Hf.
  rewrite !andb_false_r. reflexivity.
Qed.

(** C4, as the specification states it, at a concrete input: a signature
    whose width is 10 is resized by its top handle; the move leaves the
    width at 10, below the floor of 20. *)
Lemma edge_handle_keeps_small_width :
  let sys := run sampleMath
               (resizeOnce "s1" Canvas.HandleN (105, 100) (105, 95))
               (sampleSystem [sampleSignature] ["s1"%string]) in
  map geometryOf (Home.elements (page sys))
  = [Some (mkGeometry 100 95 10 105 0)] /\
  ~ 20 <= width (mkGeometry 100 95 10 105 0).
Proof.
  split; [vm_compute; reflexivity|].
  unfold Qle; simpl; lia.
Qed.

(** The two scenarios of the specification, through the handlers. *)
Lemma resize_scenarios_through_handlers :
  map geometryOf
    (Home.elements
       (page (run sampleMath
                (resizeOnce "t1" Canvas.HandleSE (300, 200) (350, 230))
                (sampleSystem [sampleText] ["t1"%string]))))
  = [Some (mkGeometry 100 100 250 130 0)] /\
  map geometryOf
    (Home.elements
       (page (run sampleMath
                (resizeOnce "t1" Canvas.HandleNW (100, 100) (120, 110))
                (sampleSystem [sampleText] ["t1"%string]))))
  = [Some (mkGeometry 120 110 180 90 0)].
Proof. split; vm_compute; reflexivity. Qed.

(** The same two scenarios on doubles. *)
Lemma resize_scenarios_on_doubles :
  map geometryOf
    (Home.elements
       (page (Rounded.events Rounded.round53 sampleMath
                (resizeOnce "t1" Canvas.HandleSE (300, 200) (350, 230))
                (sampleSystem [sampleText] ["t1"%string]))))
  = [Some (mkGeometry 100 100 250 130 0)] /\
  map geometryOf
    (Home.elements
       (page (Rounded.events Rounded.round53 sampleMath
                (resizeOnce "t1" Canvas.HandleNW (100, 100) (120, 110))
                (sampleSystem [sampleText] ["t1"%string]))))
  = [Some (mkGeometry 120 110 180 90 0)].
Proof. split; vm_compute; reflexivity. Qed.

(** The opposite edge on doubles: on a canvas zoomed to 110%, the left
    handle of the sample text (right edge at 300) is taken at 105 and moved
    to 185; the right edge of the result is not at 300. *)
Lemma west_handle_edge_drifts :
  exists g,
    map geometryOf
      (Home.elements
         (page (Rounded.events Rounded.round53 sampleMath
                  (resizeOnce "t1" Canvas.HandleW (105, 150) (185, 150))
                  sampleZoomed)))
    = [Some g] /\
    20 <= width g /\
    x g + width g == 300 - (1 # 70368744177664) /\
    ~ x g + width g == x (mkGeometry 100 100 200 100 0)
                       + width (mkGeometry 100 100 200 100 0).
Proof.
  eexists. split; [vm_compute; reflexivity|].
  split; [discriminate|]. split; [reflexivity|discriminate].
Qed.

(** C4 (amended): a move of a resize gesture, computed on doubles,
    replaces the geometry of the element it finds in the store, for each
    of the eight handles and every pointer delta.  A dimension that the
    handle drags becomes [Math.max(20, start size -/+ delta)], so it is at
    least 20 (both dimensions for a corner handle); a dimension that an
    edge handle does not drag is left as it is.  On a side that the handle
    does not drag, the origin is left as it is; on a dragged west or north
    side it is computed from the element as the store has it,
    [element.x + (element.width - newWidth)], every operation rounded: the
    opposite edge is kept up to that rounding only.  The rotation is kept.
    The two scenarios of the specification hold. *)
Theorem resize_move_floor_and_anchor (fl : Q -> Q) (M : Canvas.MathLib)
    (sys : System) (env : Canvas.Env) (e : Canvas.MouseEvent)
    (h : Canvas.Handle) (r : Canvas.DOMRect) i z v n gi element k :
  Rounded.rounding fl ->
  Home.isPreviewMode (page sys) = false ->
  Canvas.isResizing (canvas sys) = true ->
  Canvas.resizeHandle (canvas sys) = Some h ->
  truthy (Canvas.dragElementId (canvas sys)) = true ->
  Canvas.rect env = Some r ->
  Canvas.findById (Canvas.dragElementId (canvas sys))
                  (Home.elements (page sys))
  = Some (Drawn i z v n gi element k) ->
  let c := canvas sys in
  let start := Canvas.resizeStart c in
  let deltaX :=
    fl (fl (fl (Canvas.clientX e - Canvas.left r) / Canvas.scale c)
        - Canvas.resize_x start) in
  let deltaY :=
    fl (fl (fl (Canvas.clientY e - Canvas.top r) / Canvas.scale c)
        - Canvas.resize_y start) in
  let newWidth :=
    if dragsWest h then Math_max 20 (fl (Canvas.resize_width start - deltaX))
    else if dragsEast h
         then Math_max 20 (fl (Canvas.resize_width start + deltaX))
         else width element in
  let newHeight :=
    if dragsNorth h
    then Math_max 20 (fl (Canvas.resize_height start - deltaY))
    else if dragsSouth h
         then Math_max 20 (fl (Canvas.resize_height start + deltaY))
         else height element in
  let newX :=
    if dragsWest h then fl (x element + fl (width element - newWidth))
    else x element in
  let newY :=
    if dragsNorth h then fl (y element + fl (height element - newHeight))
    else y element in
  Canvas.findById (Canvas.dragElementId c)
    (Home.elements (page (Rounded.event fl M env (MouseMove e) sys)))
  = Some (Drawn i z v n gi
            (mkGeometry newX newY newWidth newHeight (rotation element)) k) /\
  (dragsWest h || dragsEast h = true -> 20 <= newWidth) /\
  (dragsNorth h || dragsSouth h = true -> 20 <= newHeight) /\
  sameGeometry
    (Rounded.resizeGeometry fl Canvas.HandleSE
       (Canvas.mkResizeStart 300 200 200 100) 50 30
       (mkGeometry 100 100 200 100 0))
    (mkGeometry 100 100 250 130 0) /\
  sameGeometry
    (Rounded.resizeGeometry fl Canvas.HandleNW
       (Canvas.mkResizeStart 100 100 200 100) 20 10
       (mkGeometry 100 100 200 100 0))
    (mkGeometry 120 110 180 90 0).
Proof.
  intros Hfl Hv Hr Hh Ht Hrect Hf c start deltaX deltaY newWidth newHeight
    newX newY.
  split; [|split; [|split; [|split]]].
  - rewrite (event_move_resizing fl M sys env e h r i z v n gi element k)
      by assumption.
    rewrite (findById_updateGeometry _ _ _ i z v n gi element k) by exact Hf.
    unfold newX, newY, newWidth, newHeight, deltaX, deltaY, start, c.
    destruct h; reflexivity.
  - unfold newWidth. destruct h; simpl; intros; try discriminate;
      apply Math_max_lower.
  - unfold newHeight. destruct h; simpl; intros; try discriminate;
      apply Math_max_lower.
  - unfold sameGeometry; cbn [Rounded.resizeGeometry x y width height rotation
                              Canvas.resize_width Canvas.resize_height].
    assert (W : Math_max 20 (fl (200 + 50)) == 250).
    { apply Math_max_value; [|discriminate].
      now apply (rounding_integer fl _ 250 Hfl). }
    assert (H : Math_max 20 (fl (100 + 30)) == 130).
    { apply Math_max_value; [|discriminate].
      now apply (rounding_integer fl _ 130 Hfl). }
    repeat split; try reflexivity; assumption.
  - unfold sameGeometry; cbn [Rounded.resizeGeometry x y width height rotation
                              Canvas.resize_width Canvas.resize_height].
    assert (W : Math_max 20 (fl (200 - 20)) == 180).
    { apply Math_max_value; [|discriminate].
      now apply (rounding_integer fl _ 180 Hfl). }
    assert (H : Math_max 20 (fl (100 - 10)) == 90).
    { apply Math_max_value; [|discriminate].
      now apply (rounding_integer fl _ 90 Hfl). }
    assert (X : fl (100 + fl (200 - Math_max 20 (fl (200 - 20)))) == 120).
    { apply (rounding_integer fl _ 120 Hfl); [|reflexivity].
      rewrite (rounding_integer fl (200 - Math_max 20 (fl (200 - 20))) 20 Hfl);
        [reflexivity|rewrite W; reflexivity|reflexivity]. }
    assert (Y : fl (100 + fl (100 - Math_max 20 (fl (100 - 10)))) == 110).
    { apply (rounding_integer fl _ 110 Hfl); [|reflexivity].
      rewrite (rounding_integer fl (100 - Math_max 20 (fl (100 - 10))) 10 Hfl);
        [reflexivity|rewrite H; reflexivity|reflexivity]. }
    repeat split; try reflexivity; assumption.
Qed.

Lemma resize_move_floor_and_anchor_witness :
  let sys := Rounded.event Rounded.round53 sampleMath (envAt 1)
               (ResizeHandleMouseDown "t1" Canvas.HandleW (pointer 105 150))
               sampleZoomed in
  let after :=
    Rounded.event Rounded.round53 sampleMath (envAt 2)
                  (MouseMove (pointer 185 150)) sys in
  Rounded.rounding Rounded.round53 /\
  Home.isPreviewMode (page sys) = false /\
  Canvas.isResizing (canvas sys) = true /\
  Canvas.resizeHandle (canvas sys) = Some Canvas.HandleW /\
  truthy (Canvas.dragElementId (canvas sys)) = true /\
  exists g,
    Canvas.findById (Canvas.dragElementId (canvas sys))
                    (Home.elements (page after))
    = Some (Drawn "t1" 1 true "Text 1" None g
              (KText "Text" 16 "Arial" "#000000" "transparent" AlignLeft)) /\
    20 <= width g /\ height g = 100.
Proof.
  intros sys after.
  assert (Hv : Home.isPreviewMode (page sys) = false) by reflexivity.
  assert (Hr : Canvas.isResizing (canvas sys) = true) by reflexivity.
  assert (Hh : Canvas.resizeHandle (canvas sys) = Some Canvas.HandleW)
    by reflexivity.
  assert (Ht : truthy (Canvas.dragElementId (canvas sys)) = true)
    by reflexivity.
  split; [exact round53_rounding|].
  split; [exact Hv|]. split; [exact Hr|]. split; [exact Hh|].
  split; [exact Ht|].
  destruct (resize_move_floor_and_anchor Rounded.round53 sampleMath sys
              (envAt 2) (pointer 185 150) Canvas.HandleW
              (Canvas.mkDOMRect 0 0)
              "t1" 1 true "Text 1" None (mkGeometry 100 100 200 100 0)
              (KText "Text" 16 "Arial" "#000000" "transparent" AlignLeft)
              round53_rounding Hv Hr Hh Ht eq_refl eq_refl)
    as (Hf & Hw & _).
  eexists. split; [exact Hf|]. split; [exact (Hw eq_refl)|reflexivity].
Defined.

(** C5, as the specification states it, at a concrete input on doubles: the
    rotation handle of a text whose rotation is [-2^-46], as a loaded
    template can hold, is pressed and the pointer moves without leaving its
    place.  The angle delta is 0, the remainder of [-2^-46] by 360 is
    [-2^-46], and [-2^-46 + 360] rounds to 360, which the move writes: the
    rotation is not below 360. *)
Lemma rotation_reaches_360 :
  let sys :=
    Rounded.events Rounded.round53 sampleMath
      [(envAt 1, RotateHandleMouseDown "t1" (pointer 200 80));
       (envAt 2, MouseMove (pointer 200 80))]
      (sampleSystem [tiltedText] ["t1"%string]) in
  map geometryOf (Home.elements (page sys))
  = [Some (mkGeometry 100 100 200 100 360)] /\
  ~ rotation (mkGeometry 100 100 200 100 360) < 360.
Proof.
  split; [vm_compute; reflexivity|].
  unfold Qlt; simpl; lia.
Qed.

(** C5 (amended): a move of a rotation gesture, computed on doubles, leaves
    the element where it is and sets its rotation from the rotation
    captured at pointer-down plus the angle delta (angle of the pointer
    minus angle of the pointer at pointer-down, both seen from the centre
    of the element), every operation rounded.  Of that sum the move takes
    the remainder by 360, which has the sign of the sum, and adds 360 to it
    when it is negative.  The result lies in the closed range [0, 360],
    wherever the pointer is and whatever the rotation was; it is below 360
    whenever the sum is not negative. *)
Theorem rotate_move_normalized (fl : Q -> Q) (M : Canvas.MathLib)
    (sys : System) (env : Canvas.Env) (e : Canvas.MouseEvent)
    (r : Canvas.DOMRect) i z v n gi element k :
  Rounded.rounding fl ->
  Home.isPreviewMode (page sys) = false ->
  Canvas.isRotating (canvas sys) = true ->
  Canvas.isResizing (canvas sys) = false ->
  truthy (Canvas.dragElementId (canvas sys)) = true ->
  Canvas.rect env = Some r ->
  Canvas.findById (Canvas.dragElementId (canvas sys))
                  (Home.elements (page sys))
  = Some (Drawn i z v n gi element k) ->
  let c := canvas sys in
  let mouseX := fl (fl (Canvas.clientX e - Canvas.left r) / Canvas.scale c) in
  let mouseY := fl (fl (Canvas.clientY e - Canvas.top r) / Canvas.scale c) in
  let centerX := fl (x element + fl (width element / 2)) in
  let centerY := fl (y element + fl (height element / 2)) in
  let angle px py :=
    fl (Canvas.atan2 M (fl (py - centerY)) (fl (px - centerX))
        * fl (180 / Canvas.PI M)) in
  let turned :=
    fl (Canvas.rotate_rotation (Canvas.rotateStart c)
        + fl (angle mouseX mouseY
              - angle (Canvas.rotate_x (Canvas.rotateStart c))
                      (Canvas.rotate_y (Canvas.rotateStart c)))) in
  exists (newRotation remainder : Q) (turns : Z),
    Canvas.findById (Canvas.dragElementId c)
      (Home.elements (page (Rounded.event fl M env (MouseMove e) sys)))
    = Some (Drawn i z v n gi
              (mkGeometry (x element) (y element) (width element)
                          (height element) newRotation) k) /\
    remainder = turned - 360 * inject_Z turns /\
    - (360) < remainder /\ remainder < 360 /\
    (0 <= turned -> 0 <= remainder) /\
    (turned < 0 -> remainder <= 0) /\
    newRotation
    = (if Qlt_bool remainder 0 then fl (remainder + 360) else remainder) /\
    0 <= newRotation /\ newRotation <= 360 /\
    (0 <= turned -> newRotation < 360).
Proof.
  intros Hfl Hv Ho Hr Ht Hrect Hf c mouseX mouseY centerX centerY angle
    turned.
  exists (if Qlt_bool (js_rem turned 360) 0
          then fl (js_rem turned 360 + 360) else js_rem turned 360),
    (js_rem turned 360), (Math_trunc (turned / 360)).
  destruct (js_rem_360 turned) as ((Hl & Hu) & Hneg & Hpos).
  split; [|split; [reflexivity|]].
  - rewrite (event_move_rotating fl M sys env e r i z v n gi element k)
      by assumption.
    rewrite (findById_updateGeometry _ _ _ i z v n gi element k) by exact Hf.
    reflexivity.
  - repeat (split; [assumption|]). split; [reflexivity|].
    destruct Hfl as [Hmono Hint].
    assert (H0 : fl 0 == 0) by (apply (Hint 0%Z); discriminate).
    assert (H360 : fl 360 == 360)
      by (apply (Hint 360%Z); apply Z.leb_le; reflexivity).
    destruct (Qlt_bool (js_rem turned 360) 0) eqn:E.
    + apply Qlt_bool_iff in E.
      assert (L : fl 0 <= fl (js_rem turned 360 + 360)) by (apply Hmono; lra).
      assert (U : fl (js_rem turned 360 + 360) <= fl 360)
        by (apply Hmono; lra).
      split; [lra|]. split; [lra|].
      intros Hp. specialize (Hpos Hp). lra.
    + assert (~ js_rem turned 360 < 0)
        by (rewrite <- Qlt_bool_iff; congruence).
      split; [lra|]. split; [lra|]. intros _. exact Hu.
Qed.

Lemma rotate_move_normalized_witness :
  let sys := Rounded.event Rounded.round53 sampleMath (envAt 1)
               (RotateHandleMouseDown "t1" (pointer 200 80))
               (sampleSystem [sampleText] ["t1"%string]) in
  let after :=
    Rounded.event Rounded.round53 sampleMath (envAt 2)
                  (MouseMove (pointer 100 150)) sys in
  Rounded.rounding Rounded.round53 /\
  Home.isPreviewMode (page sys) = false /\
  Canvas.isRotating (canvas sys) = true /\
  Canvas.isResizing (canvas sys) = false /\
  truthy (Canvas.dragElementId (canvas sys)) = true /\
  exists newRotation,
    Canvas.findById (Canvas.dragElementId (canvas sys))
                    (Home.elements (page after))
    = Some (Drawn "t1" 1 true "Text 1" None
              (mkGeometry 100 100 200 100 newRotation)
              (KText "Text" 16 "Arial" "#000000" "transparent" AlignLeft)) /\
    0 <= newRotation /\ newRotation <= 360.
Proof.
  intros sys after.
  assert (Hv : Home.isPreviewMode (page sys) = false) by reflexivity.
  assert (Ho : Canvas.isRotating (canvas sys) = true) by reflexivity.
  assert (Hr : Canvas.isResizing (canvas sys) = false) by reflexivity.
  assert (Ht : truthy (Canvas.dragElementId (canvas sys)) = true)
    by reflexivity.
  split; [exact round53_rounding|].
  split; [exact Hv|]. split; [exact Ho|]. split; [exact Hr|].
  split; [exact Ht|].
  destruct (rotate_move_normalized Rounded.round53 sampleMath sys (envAt 2)
              (pointer 100 150) (Canvas.mkDOMRect 0 0)
              "t1" 1 true "Text 1" None (mkGeometry 100 100 200 100 0)
              (KText "Text" 16 "Arial" "#000000" "transparent" AlignLeft)
              round53_rounding Hv Ho Hr Ht eq_refl eq_refl)
    as (newRotation & m & t & Hf & _ & _ & _ & _ & _ & _ & Hlo & Hhi & _).
  exists newRotation. split; [exact Hf|]. split; [exact Hlo|exact Hhi].
Defined.

(** * Further properties *)

(** ** Undo, redo and the operations that commit *)

Lemma undo_cases (s : Home.State) :
  (past (Home.history s) = [] /\ Home.undo s = s) \/
  (exists l a,
     past (Home.history s) = l ++ [a] /\
     Home.history (Home.undo s) =
     mkHistoryStack l a (present (Home.history s) :: future (Home.history s)) /\
     Home.elements (Home.undo s) = elements a /\
     Home.settings (Home.undo s) = canvasSettings a /\
     Home.selectedElementIds (Home.undo s) = Home.selectedElementIds s).
Proof.
  unfold Home.undo; cbv zeta.
  destruct (past (Home.history s)) as [|a l] eqn:E.
  - left. now split.
  - right. assert (Hne : a :: l <> []) by discriminate.
    destruct (exists_last Hne) as (l' & b & Hl). rewrite Hl.
    exists l', b. rewrite length_app; simpl.
    replace (List.length l' + 1 =? 0)%nat with false
      by (symmetry; apply Nat.eqb_neq; lia).
    simpl. rewrite last_last, removelast_last. repeat split.
Qed.

Lemma redo_cases (s : Home.State) :
  (future (Home.history s) = [] /\ Home.redo s = s) \/
  (exists a f,
     future (Home.history s) = a :: f /\
     Home.history (Home.redo s) =
     mkHistoryStack (past (Home.history s) ++ [present (Home.history s)]) a f /\
     Home.elements (Home.redo s) = elements a /\
     Home.settings (Home.redo s) = canvasSettings a /\
     Home.selectedElementIds (Home.redo s) = Home.selectedElementIds s).
Proof.
  unfold Home.redo.
  destruct (future (Home.history s)) as [|a f] eqn:E.
  - left. now split.
  - right. exists a, f. repeat split.
Qed.

Lemma undo_keeps_timeline (s : Home.State) :
  timeline (Home.history (Home.undo s)) = timeline (Home.history s).
Proof.
  destruct (undo_cases s) as [[_ ->]|(l & a & Hp & Hh & _)]; [reflexivity|].
  unfold timeline. rewrite Hh, Hp; simpl. now rewrite <- app_assoc.
Qed.

Lemma redo_keeps_timeline (s : Home.State) :
  timeline (Home.history (Home.redo s)) = timeline (Home.history s).
Proof.
  destruct (redo_cases s) as [[_ ->]|(a & f & Hf & Hh & _)]; [reflexivity|].
  unfold timeline. rewrite Hh, Hf; simpl. now rewrite <- app_assoc.
Qed.

Lemma timeline_kept (s : Home.State) (n : nat) :
  timeline (Home.history (Home.undo s)) = timeline (Home.history s) /\
  timeline (Home.history (Home.redo s)) = timeline (Home.history s) /\
  timeline (Home.history (undoN n s)) = timeline (Home.history s) /\
  timeline (Home.history (redoN n s)) = timeline (Home.history s).
Proof.
  split; [apply undo_keeps_timeline|]. split; [apply redo_keeps_timeline|].
  split.
  - induction n as [|n IH]; [reflexivity|].
    unfold undoN in *; simpl. now rewrite undo_keeps_timeline.
  - induction n as [|n IH]; [reflexivity|].
    unfold redoN in *; simpl. now rewrite redo_keeps_timeline.
Qed.

(** X1: undo and redo only move the position of [present] in the sequence
    of snapshots: whatever the order and the number of undos and redos, no
    snapshot is lost, added or reordered, and the selection is the same. *)
Theorem undo_redo_keep_timeline (moves : list bool) (s : Home.State) :
  timeline (Home.history (travel moves s)) = timeline (Home.history s) /\
  (List.length (past (Home.history (travel moves s))) +
   List.length (future (Home.history (travel moves s))) =
   List.length (past (Home.history s)) +
   List.length (future (Home.history s)))%nat /\
  Home.selectedElementIds (travel moves s) = Home.selectedElementIds s.
Proof.
  assert (H : timeline (Home.history (travel moves s))
              = timeline (Home.history s) /\
              Home.selectedElementIds (travel moves s)
              = Home.selectedElementIds s).
  { unfold travel. revert s.
    induction moves as [|back moves IH]; intros s; [now split|].
    cbn [fold_left]. destruct (IH (if back then Home.undo s else Home.redo s))
      as [-> ->].
    destruct back.
    - split; [apply undo_keeps_timeline|].
      destruct (undo_cases s) as [[_ ->]|(l & a & _ & _ & _ & _ & Hs)];
        [reflexivity|exact Hs].
    - split; [apply redo_keeps_timeline|].
      destruct (redo_cases s) as [[_ ->]|(a & f & _ & _ & _ & _ & Hs)];
        [reflexivity|exact Hs]. }
  destruct H as [Ht Hs]. split; [exact Ht|]. split; [|exact Hs].
  apply (f_equal (@List.length _)) in Ht.
  unfold timeline in Ht. rewrite !length_app in Ht. simpl in Ht. lia.
Qed.

Lemma timeline_determines (h h' : HistoryStack) :
  timeline h = timeline h' ->
  List.length (past h) = List.length (past h') -> h = h'.
Proof.
  destruct h as [p a f], h' as [p' a' f']; unfold timeline; simpl.
  intros Ht Hl.
  assert (Hp : p = p' /\ a :: f = a' :: f').
  { revert p' Hl Ht. induction p as [|x p IH]; intros [|x' p'] Hl Ht;
      simpl in *; try discriminate; [now split|].
    injection Ht as -> Ht. destruct (IH p') as [-> Hr]; auto. }
  destruct Hp as [-> Hr]. now injection Hr as -> ->.
Qed.

Lemma undoN_past_length (n : nat) (s : Home.State) :
  List.length (past (Home.history (undoN n s)))
  = (List.length (past (Home.history s)) - n)%nat.
Proof.
  induction n as [|n IH]; [simpl; lia|].
  unfold undoN in *; simpl.
  destruct (undo_cases (Nat.iter n Home.undo s))
    as [[Hp ->]|(l & a & Hp & Hh & _)].
  - rewrite Hp in IH |- *. simpl in *. lia.
  - rewrite Hh; simpl. rewrite Hp, length_app in IH; simpl in IH. lia.
Qed.

Lemma redoN_future_length (n : nat) (s : Home.State) :
  List.length (future (Home.history (redoN n s)))
  = (List.length (future (Home.history s)) - n)%nat.
Proof.
  induction n as [|n IH]; [simpl; lia|].
  unfold redoN in *; simpl.
  destruct (redo_cases (Nat.iter n Home.redo s))
    as [[Hp ->]|(a & f & Hf & Hh & _)].
  - rewrite Hp in IH |- *. simpl in *. lia.
  - rewrite Hh; simpl. rewrite Hf in IH; simpl in IH. lia.
Qed.

Lemma timeline_length (h : HistoryStack) :
  List.length (timeline h)
  = (List.length (past h) + S (List.length (future h)))%nat.
Proof. unfold timeline. now rewrite length_app. Qed.

Lemma undoN_synced_or_same (n : nat) (s : Home.State) :
  synced s -> synced (undoN n s).
Proof.
  intros H. induction n as [|n IH]; [exact H|].
  unfold undoN in *; simpl. apply undo_synced. now right.
Qed.

Lemma redo_synced (s : Home.State) : synced s -> synced (Home.redo s).
Proof.
  intros H. destruct (redo_cases s) as [[_ ->]|(a & f & _ & Hh & He & Hs & _)];
    [exact H|].
  unfold synced. now rewrite Hh, He, Hs.
Qed.

Lemma redoN_synced (n : nat) (s : Home.State) :
  synced s -> synced (redoN n s).
Proof.
  intros H. induction n as [|n IH]; [exact H|].
  unfold redoN in *; simpl. now apply redo_synced.
Qed.

(** X2: [n] undos followed by [n] redos give back the history stack, as
    long as [past] holds [n] snapshots; [n] redos followed by [n] undos
    do, as long as [future] holds [n].  The live store and settings then
    show [present] again, if they did before. *)
Theorem undo_redo_round_trips (s : Home.State) (n : nat) :
  ((n <= List.length (past (Home.history s)))%nat ->
   Home.history (redoN n (undoN n s)) = Home.history s) /\
  ((n <= List.length (future (Home.history s)))%nat ->
   Home.history (undoN n (redoN n s)) = Home.history s) /\
  (synced s -> synced (redoN n (undoN n s)) /\ synced (undoN n (redoN n s))).
Proof.
  destruct (timeline_kept s n) as (_ & _ & TU & TR).
  split; [|split].
  - intros Hn. apply timeline_determines.
    + destruct (timeline_kept (undoN n s) n) as (_ & _ & _ & T).
      now rewrite T.
    + pose proof (timeline_length (Home.history (redoN n (undoN n s)))) as L1.
      pose proof (timeline_length (Home.history (undoN n s))) as L2.
      pose proof (timeline_length (Home.history s)) as L3.
      destruct (timeline_kept (undoN n s) n) as (_ & _ & _ & T).
      rewrite T, TU in L1. rewrite TU in L2.
      rewrite redoN_future_length in L1. rewrite undoN_past_length in L2.
      lia.
  - intros Hn. apply timeline_determines.
    + destruct (timeline_kept (redoN n s) n) as (_ & _ & T & _).
      now rewrite T.
    + pose proof (timeline_length (Home.history (redoN n s))) as L2.
      rewrite TR, redoN_future_length in L2.
      pose proof (timeline_length (Home.history s)) as L3.
      rewrite undoN_past_length. lia.
  - intros Hs. split.
    + apply redoN_synced, undoN_synced_or_same, Hs.
    + apply undoN_synced_or_same, redoN_synced, Hs.
Qed.

Lemma undo_redo_round_trips_witness :
  let s := sampleHistoryState in
  Home.history (redoN 2 (undoN 2 s)) = Home.history s /\
  Home.history (undoN 2 (redoN 2 (undoN 2 s))) = Home.history (undoN 2 s) /\
  synced (redoN 1 (undoN 1 sampleSynced)).
Proof.
  intros s.
  assert (H1 : (2 <= List.length (past (Home.history s)))%nat)
    by (simpl; lia).
  assert (H2 : (2 <= List.length (future (Home.history (undoN 2 s))))%nat)
    by (simpl; lia).
  assert (H3 : synced sampleSynced) by (split; reflexivity).
  split; [|split].
  - exact (proj1 (undo_redo_round_trips s 2) H1).
  - exact (proj1 (proj2 (undo_redo_round_trips (undoN 2 s) 2)) H2).
  - exact (proj1 (proj2 (proj2 (undo_redo_round_trips sampleSynced 1)) H3)).
Defined.

Lemma pushHistory_last (st : HistoryState) (h : HistoryStack) l a :
  past (Home.pushHistory st h) = l ++ [a] -> a = present h.
Proof.
  unfold Home.pushHistory; simpl.
  destruct (Home.MAX_HISTORY_SIZE <? _)%nat.
  - destruct (past h) as [|x p]; simpl.
    + intros H. now apply app_cons_not_nil in H.
    + intros H. now apply app_inj_tail in H.
  - intros H. now apply app_inj_tail in H.
Qed.

Lemma pushHistory_past_nonempty (st : HistoryState) (h : HistoryStack) :
  past (Home.pushHistory st h) <> [].
Proof.
  unfold Home.pushHistory; simpl.
  destruct (Home.MAX_HISTORY_SIZE <? _)%nat eqn:L.
  - apply Nat.ltb_lt in L. unfold Home.MAX_HISTORY_SIZE in L.
    destruct (past h ++ [present h]) as [|x [|y p]]; simpl in *;
      try lia; discriminate.
  - intros H. now apply app_eq_nil in H as [_ H].
Qed.






(** X5: [deleteSelectedElements] removes exactly the elements whose id is
    selected, keeps the others as they are and in their order, and leaves
    no selection; an undo after it brings the removed elements back (when
    the store was the one of [present]), not the selection. *)
Theorem deleteSelectedElements_removes_selection (now : Z) (s : Home.State) :
  let s' := Home.deleteSelectedElements now s in
  Home.elements s' =
  filter (fun el => negb (includes (Home.selectedElementIds s) (id el)))
         (Home.elements s) /\
  (forall el, In el (Home.elements s') <->
              In el (Home.elements s) /\
              ~ In (id el) (Home.selectedElementIds s)) /\
  Home.selectedElementIds s' = [] /\
  Home.selectedElements s' = [] /\
  (synced s ->
   Home.elements (Home.undo s') = Home.elements s /\
   Home.selectedElementIds (Home.undo s') = []).
Proof.
  intros s'. split; [reflexivity|]. split; [|split; [reflexivity|split]].
  - intros el. unfold s', Home.deleteSelectedElements; simpl.
    rewrite filter_In, negb_true_iff.
    split; intros [H1 H2]; split; auto.
    + rewrite <- includes_In. congruence.
    + destruct (includes _ _) eqn:E; [|reflexivity].
      apply includes_In in E. contradiction.
  - unfold Home.selectedElements, s', Home.deleteSelectedElements; simpl.
    induction (filter _ (Home.elements s)); auto.
  - intros Hs.
    destruct (undo_cases s') as [[Hp _]|(l & a & Hp & Hu & Hel & Hse & Hsel)].
    + exfalso. now apply pushHistory_past_nonempty in Hp.
    + apply pushHistory_last in Hp. subst a.
      destruct Hs as [He _]. rewrite Hel, Hsel, He. split; reflexivity.
Qed.

Lemma deleteSelectedElements_removes_selection_witness :
  let s := sampleSynced in
  synced s /\
  Home.elements (Home.undo (Home.deleteSelectedElements 2 s))
  = Home.elements s.
Proof.
  intros s.
  assert (Hs : synced s) by (split; reflexivity).
  split; [exact Hs|].
  exact (proj1 (proj2 (proj2 (proj2 (proj2
           (deleteSelectedElements_removes_selection 2 s)))) Hs)).
Defined.

Lemma find_map_id (f : CanvasElement -> CanvasElement) (i : string)
    (els : list CanvasElement) :
  (forall el, id (f el) = id el) ->
  find (fun el => String.eqb (id el) i) (map f els) =
  option_map f (find (fun el => String.eqb (id el) i) els).
Proof.
  intros Hf. induction els as [|el els IH]; simpl; [reflexivity|].
  rewrite Hf. destruct (String.eqb (id el) i); [reflexivity|exact IH].
Qed.

Lemma filter_not_included (sel : list string) (i : string) :
  includes sel i = false ->
  filter (fun j => negb (String.eqb j i)) sel = sel.
Proof.
  unfold includes. induction sel as [|j sel IH]; simpl; [reflexivity|].
  intros H. apply orb_false_iff in H as [H1 H2].
  rewrite String.eqb_sym, H1; simpl. now rewrite IH.
Qed.

Lemma toggle_visible_id (i : string) (el : CanvasElement) :
  id (if String.eqb (id el) i then withVisible el (negb (visible el)) else el)
  = id el.
Proof. destruct (String.eqb (id el) i), el; reflexivity. Qed.

(** X6: [toggleLayerVisibility] called twice for the same id gives the
    store back, but not the selection: when an element has that id, the id
    is no longer selected after the two calls, whether the element started
    visible or hidden. *)
Theorem toggleLayerVisibility_twice (now1 now2 : Z) (i : string)
    (s : Home.State) :
  let s2 :=
    Home.toggleLayerVisibility now2 i (Home.toggleLayerVisibility now1 i s) in
  Home.elements s2 = Home.elements s /\
  Home.selectedElementIds s2 =
  match find (fun el => String.eqb (id el) i) (Home.elements s) with
  | Some _ =>
      filter (fun j => negb (String.eqb j i)) (Home.selectedElementIds s)
  | None => Home.selectedElementIds s
  end.
Proof.
  intros s2. split.
  - unfold s2, Home.toggleLayerVisibility; simpl.
    rewrite map_map. rewrite <- (map_id (Home.elements s)) at 2.
    apply map_ext. intros el.
    destruct (String.eqb (id el) i) eqn:E.
    + replace (id (withVisible el (negb (visible el)))) with (id el)
        by (now destruct el).
      rewrite E. destruct el as [? ? [] ? ? ? ?|? ? ? [] ?]; reflexivity.
    + now rewrite E.
  - unfold s2, Home.toggleLayerVisibility.
    cbn [Home.elements Home.selectedElementIds Home.saveToHistory
         Home.setHistory Home.setElements].
    rewrite (find_map_id _ i _ (toggle_visible_id i)).
    destruct (find _ (Home.elements s)) as [el|] eqn:F; simpl.
    + apply find_some in F as [_ E]. rewrite E.
      destruct el as [? ? [] ? ? ? ?|? ? ? [] ?]; simpl;
        destruct (includes (Home.selectedElementIds s) i) eqn:I; simpl;
        rewrite ?I; simpl; try reflexivity;
        now rewrite filter_not_included.
    + reflexivity.
Qed.

Lemma find_none_app {A} (p : A -> bool) (l : list A) (a : A) :
  forallb (fun e => negb (p e)) l = true ->
  find p (l ++ [a]) = if p a then Some a else None.
Proof.
  induction l as [|e l IH]; simpl; [reflexivity|].
  intros H. apply andb_true_iff in H as [H1 H2].
  apply negb_true_iff in H1. rewrite H1. now apply IH.
Qed.

Lemma ungroup_after_group (g : string) (sel : list string)
    (grp : CanvasElement) (els : list CanvasElement) :
  id grp = g ->
  forallb (freshGroup g sel) els = true ->
  map (fun el => if isText el && groupIdIs el g
                 then withGroupId el None else el)
      (filter (fun el => negb (String.eqb (id el) g))
         (map (fun el => if includes sel (id el) && isText el
                         then withGroupId el (Some g) else el) els
          ++ [grp]))
  = els.
Proof.
  intros Hg. induction els as [|el els IH]; simpl.
  - now rewrite Hg, String.eqb_refl.
  - intros H. apply andb_true_iff in H as [H1 H2].
    rewrite <- (IH H2) at 3. clear IH H2.
    unfold freshGroup in H1.
    apply andb_true_iff in H1 as [H1 H3].
    apply andb_true_iff in H1 as [H1 H4].
    apply negb_true_iff in H1, H4.
    destruct (includes sel (id el) && isText el) eqn:E.
    + apply andb_true_iff in E as [_ E].
      destruct el as [i z v n [gi|] ge k|]; try discriminate.
      simpl in *. rewrite H1; simpl. rewrite E, String.eqb_refl. reflexivity.
    + rewrite H1; simpl. rewrite H4, andb_false_r. reflexivity.
Qed.

(** X7: [ungroupElements] takes back a [createGroup] that grouped at least
    two selected ids: the store and the selection are again what they were,
    provided the store had at least one element, none with the id of the new
    group or naming it as its group, and the selected texts were in no
    group. *)
Theorem createGroup_then_ungroup (now now2 : Z) (s : Home.State) :
  let groupId := ("group-" ++ string_of_Z now)%string in
  (2 <= List.length (Home.selectedElementIds s))%nat ->
  Home.elements s <> [] ->
  forallb (freshGroup groupId (Home.selectedElementIds s)) (Home.elements s)
  = true ->
  exists s1,
    Home.createGroup now s = Some s1 /\
    Home.selectedElementIds s1 = [groupId] /\
    List.length (Home.elements s1) = S (List.length (Home.elements s)) /\
    Home.elements (Home.ungroupElements now2 groupId s1) = Home.elements s /\
    Home.selectedElementIds (Home.ungroupElements now2 groupId s1)
    = Home.selectedElementIds s.
Proof.
  intros groupId Hsel Hne Hfresh.
  unfold Home.createGroup.
  destruct (List.length (Home.selectedElementIds s) <? 2)%nat eqn:L;
    [apply Nat.ltb_lt in L; lia|].
  destruct (map zIndex (Home.elements s)) as [|z zs] eqn:Z.
  { destruct (Home.elements s); [now elim Hne|discriminate]. }
  fold groupId. eexists. split; [reflexivity|].
  split; [reflexivity|]. split.
  { cbn [Home.elements Home.saveToHistory Home.setHistory Home.setElements
         Home.setSelectedElementIds].
    rewrite length_app, length_map; simpl. lia. }
  unfold Home.ungroupElements.
  cbn [Home.elements Home.selectedElementIds Home.saveToHistory
       Home.setHistory Home.setElements Home.setSelectedElementIds].
  rewrite find_none_app.
  - cbn [id isGroup andb]. rewrite String.eqb_refl.
    cbn [andb Home.elements Home.selectedElementIds Home.saveToHistory
         Home.setHistory Home.setElements Home.setSelectedElementIds].
    split; [|reflexivity].
    now apply ungroup_after_group.
  - rewrite forallb_forall in *. intros e He.
    apply in_map_iff in He as (el & <- & He).
    specialize (Hfresh el He). unfold freshGroup in Hfresh.
    apply andb_true_iff in Hfresh as [H1 _].
    apply andb_true_iff in H1 as [H1 _].
    replace (id (if includes (Home.selectedElementIds s) (id el) && isText el
                 then withGroupId el (Some groupId) else el))
      with (id el)
      by (destruct (includes _ _ && isText el), el; reflexivity).
    apply negb_true_iff in H1. now rewrite H1.
Qed.

Lemma createGroup_then_ungroup_witness :
  exists s1,
    Home.createGroup 5 sampleSelection = Some s1 /\
    Home.selectedElementIds s1 = ["group-5"%string] /\
    List.length (Home.elements s1)
    = S (List.length (Home.elements sampleSelection)) /\
    Home.elements (Home.ungroupElements 6 "group-5" s1)
    = Home.elements sampleSelection /\
    Home.selectedElementIds (Home.ungroupElements 6 "group-5" s1)
    = Home.selectedElementIds sampleSelection.
Proof.
  apply (createGroup_then_ungroup 5 6 sampleSelection).
  - simpl; lia.
  - discriminate.
  - reflexivity.
Defined.

Lemma find_unique_id (i : string) (els : list CanvasElement)
    (e el : CanvasElement) :
  distinctIds els ->
  find (fun x => String.eqb (id x) i) els = Some e ->
  In el els -> id el = i -> el = e.
Proof.
  unfold distinctIds. induction els as [|a els IH]; simpl; [easy|].
  intros Hnd Hf Hin Hid. inversion Hnd as [|? ? Hna Hnd']; subst.
  destruct (String.eqb (id a) (id el)) eqn:E.
  - injection Hf as <-. destruct Hin as [H|H]; [now symmetry|].
    apply String.eqb_eq in E. exfalso. apply Hna. rewrite E.
    now apply in_map.
  - destruct Hin as [H|H].
    + subst a. now rewrite String.eqb_refl in E.
    + now apply IH.
Qed.

Lemma withZIndex_same (el : CanvasElement) : withZIndex el (zIndex el) = el.
Proof. now destruct el. Qed.

Lemma withZIndex_twice (el : CanvasElement) (a b : Z) :
  withZIndex (withZIndex el a) b = withZIndex el b.
Proof. now destruct el. Qed.

Lemma zIndex_withZIndex (el : CanvasElement) (z : Z) :
  zIndex (withZIndex el z) = z.
Proof. now destruct el. Qed.

Lemma id_withZIndex (el : CanvasElement) (z : Z) :
  id (withZIndex el z) = id el.
Proof. now destruct el. Qed.

Lemma swap_id (d t : string) (zd zt : Z) (el : CanvasElement) :
  id (if String.eqb (id el) d then withZIndex el zt
      else if String.eqb (id el) t then withZIndex el zd else el)
  = id el.
Proof.
  destruct (String.eqb (id el) d); [apply id_withZIndex|].
  destruct (String.eqb (id el) t); [apply id_withZIndex|reflexivity].
Qed.

(** X8: [handleDrop] changes no id, no order and no geometry of the store,
    only [zIndex] values; when no two elements share an id, the dragged and
    the target element exchange their [zIndex], and dropping the same
    element on the same target once more gives the store back. *)
Theorem handleDrop_swaps_zIndex (now now2 : Z) (dragged target : string)
    (s : Home.State) :
  let s1 := Home.handleDrop now (Some dragged) target s in
  map id (Home.elements s1) = map id (Home.elements s) /\
  map geometryOf (Home.elements s1) = map geometryOf (Home.elements s) /\
  Home.selectedElementIds s1 = Home.selectedElementIds s /\
  (distinctIds (Home.elements s) ->
   Home.elements (Home.handleDrop now2 (Some dragged) target s1)
   = Home.elements s /\
   forall d t,
     dragged <> EmptyString -> dragged <> target ->
     find (fun el => String.eqb (id el) dragged) (Home.elements s) = Some d ->
     find (fun el => String.eqb (id el) target) (Home.elements s) = Some t ->
     find (fun el => String.eqb (id el) dragged) (Home.elements s1)
     = Some (withZIndex d (zIndex t)) /\
     find (fun el => String.eqb (id el) target) (Home.elements s1)
     = Some (withZIndex t (zIndex d))).
Proof.
  intros s1. unfold s1, Home.handleDrop.
  destruct (negb (truthy (Some dragged)) || String.eqb dragged target) eqn:G.
  { split; [reflexivity|split; [reflexivity|split; [reflexivity|]]].
    intros _. split; [reflexivity|]. intros d t Hd Ht. exfalso.
    apply orb_true_iff in G as [G|G].
    - unfold truthy in G. rewrite negb_involutive in G.
      apply String.eqb_eq in G. contradiction.
    - apply String.eqb_eq in G. contradiction. }
  apply orb_false_iff in G as [_ Gdt].
  destruct (find _ (Home.elements s)) as [d|] eqn:Fd.
  2:{ rewrite Fd.
      split; [reflexivity|split; [reflexivity|split; [reflexivity|]]].
      intros _. split; [reflexivity|]. intros; discriminate. }
  destruct (find (fun el => String.eqb (id el) target) (Home.elements s))
    as [t|] eqn:Ft.
  2:{ rewrite Fd, Ft.
      split; [reflexivity|split; [reflexivity|split; [reflexivity|]]].
      intros _. split; [reflexivity|]. intros; discriminate. }
  cbn [Home.elements Home.selectedElementIds Home.saveToHistory
       Home.setHistory Home.setElements].
  pose proof (find_some _ _ Fd) as [Hdin Hdid].
  pose proof (find_some _ _ Ft) as [Htin Htid].
  apply String.eqb_eq in Hdid, Htid.
  assert (Ntd : String.eqb target dragged = false)
    by (now rewrite String.eqb_sym).
  split; [|split; [|split; [reflexivity|]]].
  - rewrite map_map. apply map_ext. intros el. apply swap_id.
  - rewrite map_map. apply map_ext. intros el.
    destruct (String.eqb (id el) dragged);
      [now destruct el|destruct (String.eqb (id el) target); now destruct el].
  - intros Hnd.
    rewrite !(find_map_id _ _ _ (swap_id dragged target (zIndex d) (zIndex t))).
    rewrite Fd, Ft; simpl.
    rewrite Hdid, Htid, String.eqb_refl, Ntd, Gdt, String.eqb_refl.
    split.
    + rewrite !zIndex_withZIndex, map_map.
      rewrite <- (map_id (Home.elements s)) at 2.
      apply map_ext_in. intros el Hin.
      destruct (String.eqb (id el) dragged) eqn:E1.
      * rewrite id_withZIndex, E1, withZIndex_twice.
        apply String.eqb_eq in E1.
        rewrite <- (find_unique_id _ _ _ _ Hnd Fd Hin E1).
        apply withZIndex_same.
      * destruct (String.eqb (id el) target) eqn:E2.
        -- rewrite id_withZIndex, E1, E2, withZIndex_twice.
           apply String.eqb_eq in E2.
           rewrite <- (find_unique_id _ _ _ _ Hnd Ft Hin E2).
           apply withZIndex_same.
        -- now rewrite E1, E2.
    + intros d' t' _ _ Hd' Ht'. injection Hd' as <-. injection Ht' as <-.
      split; reflexivity.
Qed.

Lemma handleDrop_swaps_zIndex_witness :
  distinctIds (Home.elements sampleSynced) /\
  Home.elements
    (Home.handleDrop 3 (Some "t1"%string) "s1"
       (Home.handleDrop 2 (Some "t1"%string) "s1" sampleSynced))
  = Home.elements sampleSynced.
Proof.
  assert (H : distinctIds (Home.elements sampleSynced)).
  { repeat constructor; simpl; intuition discriminate. }
  split; [exact H|].
  exact (proj1 (proj2 (proj2 (proj2
           (handleDrop_swaps_zIndex 2 3 "t1" "s1" sampleSynced))) H)).
Defined.

Lemma absent_id_facts (i : string) (els : list CanvasElement) :
  Forall (fun el => id el <> i) els ->
  filter (fun el => negb (String.eqb (id el) i)) els = els /\
  (forall f, map (fun el => if String.eqb (id el) i then f el else el) els
             = els) /\
  (forall p, find (fun el => String.eqb (id el) i && p el) els = None) /\
  find (fun el => String.eqb (id el) i) els = None.
Proof.
  induction 1 as [|el els Hel _ (IH1 & IH2 & IH3 & IH4)]; simpl.
  - repeat split.
  - apply String.eqb_neq in Hel. rewrite Hel; simpl.
    rewrite IH1, IH4. repeat split.
    + intros f. now rewrite IH2.
    + intros p. apply IH3.
Qed.

(** X9: [deleteElement] removes the elements with the given id and takes
    the id out of the selection, and touches nothing else: a group that
    lists the id among its children keeps listing it, and the elements
    whose [groupId] is the id of a removed group keep that [groupId]. *)
Theorem deleteElement_no_cascade (now : Z) (i : string) (s : Home.State) :
  let s' := Home.deleteElement now i s in
  (forall el, In el (Home.elements s') <->
              In el (Home.elements s) /\ id el <> i) /\
  (forall j, In j (Home.selectedElementIds s') <->
             In j (Home.selectedElementIds s) /\ j <> i) /\
  (forall gid n z v children,
     gid <> i ->
     In (Group gid n z v children) (Home.elements s) ->
     In (Group gid n z v children) (Home.elements s')) /\
  (forall el,
     id el <> i -> groupIdOf el = Some i -> In el (Home.elements s) ->
     In el (Home.elements s') /\ groupIdOf el = Some i).
Proof.
  intros s'.
  assert (H1 : forall el, In el (Home.elements s') <->
                          In el (Home.elements s) /\ id el <> i).
  { intros el. unfold s', Home.deleteElement; simpl.
    rewrite filter_In, negb_true_iff, String.eqb_neq. tauto. }
  split; [exact H1|]. split; [|split].
  - intros j. unfold s', Home.deleteElement; simpl.
    rewrite filter_In, negb_true_iff, String.eqb_neq. tauto.
  - intros gid n z v children Hne Hin. apply H1. split; [exact Hin|exact Hne].
  - intros el Hne Hg Hin. split; [apply H1; tauto|exact Hg].
Qed.

Lemma deleteElement_no_cascade_witness :
  let grouped := Drawn "t2" 3 true "Text 2" (Some "g1"%string)
                       (mkGeometry 0 0 10 10 0)
                       (KText "Text" 16 "Arial" "#000000" "transparent"
                              AlignLeft) in
  let group := Group "g1" "Group 1" 4 true ["t2"%string] in
  let s := samplePage [grouped; group] [] false in
  In grouped (Home.elements (Home.deleteElement 1 "g1" s)) /\
  groupIdOf grouped = Some "g1"%string.
Proof.
  intros grouped group s.
  assert (Hne : id grouped <> "g1"%string) by discriminate.
  assert (Hin : In grouped (Home.elements s)) by (left; reflexivity).
  exact (proj2 (proj2 (proj2 (deleteElement_no_cascade 1 "g1" s)))
           grouped Hne eq_refl Hin).
Defined.

(** X10: on an id that no element of the store has, [deleteElement] and
    [toggleLayerVisibility] leave the store as it is and still commit a
    snapshot of it, while [ungroupElements] and [handleDrop] return
    without doing anything. *)
Theorem operations_on_absent_id (now : Z) (i other : string)
    (s : Home.State) :
  Forall (fun el => id el <> i) (Home.elements s) ->
  (Home.elements (Home.deleteElement now i s) = Home.elements s /\
   Home.history (Home.deleteElement now i s)
   = Home.pushHistory
       (mkHistoryState (Home.elements s) (Home.settings s) now
                       "delete_element")
       (Home.history s)) /\
  (Home.elements (Home.toggleLayerVisibility now i s) = Home.elements s /\
   Home.selectedElementIds (Home.toggleLayerVisibility now i s)
   = Home.selectedElementIds s /\
   Home.history (Home.toggleLayerVisibility now i s)
   = Home.pushHistory
       (mkHistoryState (Home.elements s) (Home.settings s) now
                       "toggle_layer_visibility")
       (Home.history s)) /\
  Home.ungroupElements now i s = s /\
  Home.handleDrop now (Some i) other s = s /\
  Home.handleDrop now (Some other) i s = s.
Proof.
  intros H. destruct (absent_id_facts i _ H) as (F1 & F2 & F3 & F4).
  split; [|split; [|split; [|split]]].
  - unfold Home.deleteElement; simpl. rewrite F1. split; reflexivity.
  - unfold Home.toggleLayerVisibility. rewrite F4, F2. repeat split.
  - unfold Home.ungroupElements. now rewrite F3.
  - unfold Home.handleDrop. rewrite F4. break_match; reflexivity.
  - unfold Home.handleDrop. rewrite F4. break_match; reflexivity.
Qed.

Lemma operations_on_absent_id_witness :
  Forall (fun el => id el <> "zz"%string) (Home.elements sampleSynced) /\
  Home.elements (Home.deleteElement 2 "zz" sampleSynced)
  = Home.elements sampleSynced /\
  List.length (past (Home.history (Home.deleteElement 2 "zz" sampleSynced)))
  = S (List.length (past (Home.history sampleSynced))).
Proof.
  assert (H : Forall (fun el => id el <> "zz"%string)
                     (Home.elements sampleSynced))
    by (repeat constructor; discriminate).
  split; [exact H|]. split.
  - exact (proj1 (proj1 (operations_on_absent_id 2 "zz" "t1" sampleSynced H))).
  - rewrite (proj2 (proj1
               (operations_on_absent_id 2 "zz" "t1" sampleSynced H))).
    reflexivity.
Defined.

Lemma clamp_in_range (q : Q) :
  1 # 10 <= Math_min (Math_max q (1 # 10)) 4 /\
  Math_min (Math_max q (1 # 10)) 4 <= 4.
Proof.
  unfold Math_min, Math_max.
  destruct (Qle_bool q (1 # 10)) eqn:A.
  - vm_compute. split; discriminate.
  - destruct (Qle_bool q 4) eqn:B.
    + apply Qle_bool_iff in B. split; [|exact B].
      apply Qlt_le_weak, Qnot_le_lt. intros H.
      apply Qle_bool_iff in H. congruence.
    + split; [discriminate|apply Qle_refl].
Qed.

Lemma handle_scale (M : Canvas.MathLib) env ev sys :
  Canvas.scale (fst (handle M env ev sys)) = Canvas.scale (canvas sys).
Proof.
  unfold handle. destruct ev.
  - unfold Canvas.handleMouseDown. break_match; reflexivity.
  - rewrite fst_handleMouseMove.
    unfold Canvas.promote. break_match; reflexivity.
  - unfold Canvas.handleMouseUp. break_match; reflexivity.
  - unfold Canvas.elementMouseDown. break_match; reflexivity.
  - unfold Canvas.resizeHandleMouseDown. break_match; reflexivity.
  - unfold Canvas.rotateHandleMouseDown. break_match; reflexivity.
  - reflexivity.
  - reflexivity.
  - reflexivity.
Qed.

Lemma step_scale (M : Canvas.MathLib) env ev sys :
  Canvas.scale (canvas (step M env ev sys)) = Canvas.scale (canvas sys).
Proof.
  pose proof (handle_scale M env ev sys) as H.
  unfold step.
  destruct (handle M env ev sys) as [c' calls]; simpl in H.
  destruct ev; try exact H; simpl; break_match; reflexivity.
Qed.

Lemma interact_in_range (M : Canvas.MathLib) (Math_sqrt : number -> number)
    (v : Session) (i : Input) :
  zoomInRange (canvas (system v)) ->
  zoomInRange (canvas (system (interact M Math_sqrt v i))).
Proof.
  unfold zoomInRange. intros H. destruct i; cbn [interact system canvas fst].
  - now rewrite step_scale.
  - unfold Canvas.handleWheel. break_match; try exact H;
      cbn [Canvas.setScale Canvas.scale]; apply clamp_in_range.
  - unfold Canvas.handleTouchStart. break_match; exact H.
  - unfold Canvas.handleTouchMove. cbn [fst snd].
    break_match; try exact H;
      cbn [fst Canvas.setScale Canvas.scale]; apply clamp_in_range.
  - unfold Canvas.handleTouchEnd. break_match; exact H.
Qed.

Lemma interact_preview (M : Canvas.MathLib) (Math_sqrt : number -> number)
    (v : Session) (i : Input) :
  Home.isPreviewMode (page (system v)) = true ->
  Canvas.scale (canvas (system (interact M Math_sqrt v i)))
  = Canvas.scale (canvas (system v)).
Proof.
  intros H. destruct i; cbn [interact system canvas fst page].
  - apply step_scale.
  - unfold Canvas.handleWheel. now rewrite H.
  - unfold Canvas.handleTouchStart. now rewrite H.
  - unfold Canvas.handleTouchMove. now rewrite H.
  - unfold Canvas.handleTouchEnd. break_match; reflexivity.
Qed.

(** X11: whatever pointer, key, wheel and touch inputs reach a freshly
    mounted canvas, in any order, the zoom factor stays between 10% and
    400%.  Pointer and key events never change it, and in preview mode no
    input does. *)
Theorem zoom_stays_in_range (M : Canvas.MathLib)
    (Math_sqrt : number -> number) (props : Home.State)
    (inputs : list Input) :
  zoomInRange
    (canvas (system (interactAll M Math_sqrt inputs
                       (mkSession (mkSystem props Canvas.initialState) None))))
  /\
  (forall v env ev,
     Canvas.scale (canvas (system (interact M Math_sqrt v (PointerInput env ev))))
     = Canvas.scale (canvas (system v))) /\
  (forall v i,
     Home.isPreviewMode (page (system v)) = true ->
     Canvas.scale (canvas (system (interact M Math_sqrt v i)))
     = Canvas.scale (canvas (system v))).
Proof.
  split; [|split].
  - unfold interactAll.
    assert (H : zoomInRange
                  (canvas (system (mkSession
                     (mkSystem props Canvas.initialState) None))))
      by (split; discriminate).
    revert H. generalize (mkSession (mkSystem props Canvas.initialState) None).
    induction inputs as [|i inputs IH]; intros v H; simpl; [exact H|].
    apply IH. now apply interact_in_range.
  - intros v env ev. apply step_scale.
  - intros v i. apply interact_preview.
Qed.

Lemma zoom_stays_in_range_witness :
  let props :=
    Home.mkState [] [] ToolCursor true Home.initialSettings
                 (Home.initialHistory 0) in
  let v := mkSession (mkSystem props Canvas.initialState) None in
  let i := WheelInput (Canvas.mkWheelEvent (-100) true false) in
  Home.isPreviewMode (page (system v)) = true /\
  Canvas.scale (canvas (system (interact sampleMath (fun q => q) v i)))
  = Canvas.scale (canvas (system v)).
Proof.
  intros props v i. split; [reflexivity|].
  exact (proj2 (proj2 (zoom_stays_in_range sampleMath (fun q => q) props []))
           v i eq_refl).
Defined.

Lemma Math_round_units :
  inject_Z (Math_round (60 * (9 / 16))) = 34 /\
  inject_Z (Math_round (60 * (3 / 4))) = 45 /\
  inject_Z (Math_round (60 * (2 / 3))) = 40 /\
  inject_Z (Math_round (60 * (9 / 21))) = 26.
Proof. repeat split. Qed.

Lemma getCanvasDimensions_cases (ratio : string) :
  exists u,
    Canvas.getCanvasDimensions ratio
    = Canvas.mkCanvasDimensions (60 * 20) (u * 20) 60 u /\
    In u [34; 45; 60; 40; 26] /\
    ((ratio = "16:9"%string /\ u = 34) \/
     (ratio = "4:3"%string /\ u = 45) \/
     (ratio = "1:1"%string /\ u = 60) \/
     (ratio <> "16:9"%string /\ ratio <> "4:3"%string /\
      ratio <> "1:1"%string /\ (u = 40 \/ u = 26 \/ u = 45))).
Proof.
  unfold Canvas.getCanvasDimensions, Canvas.baseGridSize.
  destruct Math_round_units as (R1 & R2 & R3 & R4).
  destruct (String.eqb ratio "16:9") eqn:E1.
  { apply String.eqb_eq in E1. exists 34. rewrite R1. simpl; tauto. }
  destruct (String.eqb ratio "4:3") eqn:E2.
  { apply String.eqb_eq in E2. exists 45. rewrite R2. simpl; tauto. }
  destruct (String.eqb ratio "1:1") eqn:E3.
  { apply String.eqb_eq in E3. exists 60. simpl; tauto. }
  apply String.eqb_neq in E1, E2, E3.
  destruct (String.eqb ratio "3:2") eqn:E4.
  { exists 40. rewrite R3. simpl; tauto. }
  destruct (String.eqb ratio "21:9") eqn:E5.
  { exists 26. rewrite R4. simpl; tauto. }
  exists 45. simpl; tauto.
Qed.

Lemma canvas_dimensions_bounds (ratio : string) :
  Canvas.dim_width (Canvas.getCanvasDimensions ratio) == 1200 /\
  520 <= Canvas.dim_height (Canvas.getCanvasDimensions ratio) /\
  Canvas.dim_height (Canvas.getCanvasDimensions ratio) <= 1200.
Proof.
  destruct (getCanvasDimensions_cases ratio) as (u & -> & Hu & _).
  cbn [Canvas.dim_width Canvas.dim_height].
  split; [reflexivity|]. simpl in Hu.
  destruct Hu as [<-|[<-|[<-|[<-|[<-|[]]]]]]; split; discriminate.
Qed.

(** X12: the canvas is 60 grid units of 20 pixels wide for every ratio, and
    a whole number of grid units high: 34, 45, 60, 40 or 26 units, so that
    its height is between 520 and 1200 pixels. *)
Theorem canvas_dimensions_whole_units (ratio : string) :
  let d := Canvas.getCanvasDimensions ratio in
  Canvas.dim_width d == 1200 /\
  Canvas.unitsWidth d = 60 /\
  Canvas.dim_height d == Canvas.unitsHeight d * Canvas.baseGridSize /\
  In (Canvas.unitsHeight d) [34; 45; 60; 40; 26] /\
  520 <= Canvas.dim_height d <= 1200.
Proof.
  destruct (getCanvasDimensions_cases ratio) as (u & -> & Hu & _).
  cbn [Canvas.dim_width Canvas.dim_height Canvas.unitsWidth
       Canvas.unitsHeight].
  split; [reflexivity|]. split; [reflexivity|]. split; [reflexivity|].
  split; [exact Hu|].
  simpl in Hu.
  destruct Hu as [<-|[<-|[<-|[<-|[<-|[]]]]]]; split; discriminate.
Qed.

(** X13: the image that [exportAsImage] sizes has the width of the canvas
    on screen for every ratio, but its height only for the ratios 16:9,
    4:3 and 1:1; for every other ratio the export is 680 pixels high,
    which the canvas never is then. *)
Theorem export_dimensions_agree (ratio : string) :
  let d := Canvas.getCanvasDimensions ratio in
  fst (Home.getCanvasDimensions ratio) == Canvas.dim_width d /\
  (snd (Home.getCanvasDimensions ratio) == Canvas.dim_height d <->
   ratio = "16:9"%string \/ ratio = "4:3"%string \/ ratio = "1:1"%string) /\
  (ratio <> "16:9"%string -> ratio <> "4:3"%string -> ratio <> "1:1"%string ->
   snd (Home.getCanvasDimensions ratio) == 680).
Proof.
  destruct (getCanvasDimensions_cases ratio) as (u & -> & _ & Hu).
  cbn [Canvas.dim_width Canvas.dim_height].
  unfold Home.getCanvasDimensions.
  destruct Hu as [ [-> ->] | [ [-> ->] | [ [-> ->] | (N1 & N2 & N3 & Hu) ] ] ].
  - split; [reflexivity|]. split; [|congruence]. split; [tauto|reflexivity].
  - split; [reflexivity|]. split; [|congruence]. split; [tauto|reflexivity].
  - split; [reflexivity|]. split; [|congruence]. split; [tauto|reflexivity].
  - apply String.eqb_neq in N1, N2, N3. rewrite N1, N2, N3.
    apply String.eqb_neq in N1, N2, N3.
    split; [reflexivity|]. split; [|reflexivity].
    split; [|tauto].
    destruct Hu as [ -> | [ -> | -> ] ]; discriminate.
Qed.

Lemma export_dimensions_agree_witness :
  snd (Home.getCanvasDimensions "21:9") == 680 /\
  ~ snd (Home.getCanvasDimensions "21:9")
    == Canvas.dim_height (Canvas.getCanvasDimensions "21:9").
Proof.
  pose proof (export_dimensions_agree "21:9") as (_ & H1 & H2).
  split.
  - apply H2; discriminate.
  - intros H. apply H1 in H. destruct H as [H|[H|H]]; discriminate.
Defined.

Lemma Math_max_spec (a b : Q) :
  a <= Math_max a b /\ b <= Math_max a b /\
  (Math_max a b = a \/ Math_max a b = b).
Proof.
  unfold Math_max. destruct (Qle_bool a b) eqn:E.
  - apply Qle_bool_iff in E. repeat split; auto; lra.
  - assert (~ a <= b) by (rewrite <- Qle_bool_iff; congruence).
    repeat split; auto; lra.
Qed.

Lemma getSteppedWorkspaceSize_spec (required : Q) :
  required <= 6500 ->
  required <= Canvas.getSteppedWorkspaceSize required /\
  In (Canvas.getSteppedWorkspaceSize required) [3000; 4000; 5000; 6500].
Proof.
  intros H. unfold Canvas.getSteppedWorkspaceSize; cbn [find].
  destruct (Qle_bool required 3000) eqn:E1;
    [apply Qle_bool_iff in E1; simpl; tauto|].
  destruct (Qle_bool required 4000) eqn:E2;
    [apply Qle_bool_iff in E2; simpl; tauto|].
  destruct (Qle_bool required 5000) eqn:E3;
    [apply Qle_bool_iff in E3; simpl; tauto|].
  destruct (Qle_bool required 6500) eqn:E4;
    [apply Qle_bool_iff in E4; simpl; tauto|].
  apply Qle_bool_iff in H. congruence.
Qed.

(** X14: at every zoom factor between 10% and 400% and for every ratio, the
    workspace size that [Canvas] computes on doubles for the render,
    [targetWorkspaceSize], is at least the scaled width of the canvas plus
    1200 and at least the scaled height plus 1200, each sum as the code
    rounds it; it is at least the size required, and it is 3000, 4000,
    5000 or 6500 pixels, never the steps 8000 and 10000. *)
Theorem workspace_holds_canvas (fl : Q -> Q) (ratio : string) (scale : Q) :
  Rounded.rounding fl ->
  1 # 10 <= scale -> scale <= 4 ->
  let canvasDimensions := Canvas.getCanvasDimensions ratio in
  let scaledCanvasWidth := fl (Canvas.dim_width canvasDimensions * scale) in
  let scaledCanvasHeight := fl (Canvas.dim_height canvasDimensions * scale) in
  let targetWorkspaceSize := Rounded.targetWorkspaceSize fl ratio scale in
  fl (scaledCanvasWidth + 1200) <= targetWorkspaceSize /\
  fl (scaledCanvasHeight + 1200) <= targetWorkspaceSize /\
  Rounded.requiredWorkspaceSize fl ratio scale <= targetWorkspaceSize /\
  In targetWorkspaceSize [3000; 4000; 5000; 6500].
Proof.
  intros Hfl Hlo Hhi canvasDimensions scaledCanvasWidth scaledCanvasHeight
    targetWorkspaceSize.
  unfold targetWorkspaceSize, Rounded.targetWorkspaceSize,
    Rounded.requiredWorkspaceSize.
  fold canvasDimensions. fold scaledCanvasWidth. fold scaledCanvasHeight.
  pose proof (canvas_dimensions_bounds ratio) as (Hw & Hh1 & Hh2).
  fold canvasDimensions in Hw, Hh1, Hh2.
  assert (Sw : scaledCanvasWidth <= 4800).
  { rewrite <- (rounding_integer fl 4800 4800 Hfl (Qeq_refl _) eq_refl).
    apply (proj1 Hfl).
    set (w := Canvas.dim_width canvasDimensions) in *. clearbody w. nra. }
  assert (Sh : scaledCanvasHeight <= 4800).
  { rewrite <- (rounding_integer fl 4800 4800 Hfl (Qeq_refl _) eq_refl).
    apply (proj1 Hfl).
    set (h := Canvas.dim_height canvasDimensions) in *. clearbody h. nra. }
  assert (Pw : fl (scaledCanvasWidth + 1200) <= 6000).
  { rewrite <- (rounding_integer fl 6000 6000 Hfl (Qeq_refl _) eq_refl).
    apply (proj1 Hfl). lra. }
  assert (Ph : fl (scaledCanvasHeight + 1200) <= 6000).
  { rewrite <- (rounding_integer fl 6000 6000 Hfl (Qeq_refl _) eq_refl).
    apply (proj1 Hfl). lra. }
  destruct (Math_max_spec (fl (scaledCanvasWidth + 1200))
                          (fl (scaledCanvasHeight + 1200)))
    as (A1 & A2 & A3).
  set (m := Math_max (fl (scaledCanvasWidth + 1200))
                     (fl (scaledCanvasHeight + 1200))) in *.
  destruct (Math_max_spec m 3000) as (B1 & B2 & B3).
  set (r := Math_max m 3000) in *.
  assert (Hr : r <= 6500).
  { destruct B3 as [ -> | -> ]; [|lra].
    destruct A3 as [ -> | -> ]; lra. }
  destruct (getSteppedWorkspaceSize_spec r Hr) as (C1 & C2).
  split; [lra|]. split; [lra|]. split; [exact C1|exact C2].
Qed.

Lemma workspace_holds_canvas_witness :
  let scale := (3 # 2) + (1 # 4503599627370496) in
  Rounded.rounding Rounded.round53 /\
  1 # 10 <= scale /\ scale <= 4 /\
  Rounded.targetWorkspaceSize Rounded.round53 "16:9" scale = 3000 /\
  Rounded.round53 (Rounded.round53 (1200 * scale) + 1200)
  <= Rounded.targetWorkspaceSize Rounded.round53 "16:9" scale.
Proof.
  intros scale.
  assert (Hlo : 1 # 10 <= scale) by (vm_compute; discriminate).
  assert (Hhi : scale <= 4) by (vm_compute; discriminate).
  split; [exact round53_rounding|].
  split; [exact Hlo|]. split; [exact Hhi|].
  split; [vm_compute; reflexivity|].
  exact (proj1 (workspace_holds_canvas Rounded.round53 "16:9" scale
                  round53_rounding Hlo Hhi)).
Defined.

(** ** Text measurement *)

Lemma floor_midpoint (lo hi : Q) (a b : Z) :
  lo == inject_Z a -> hi == inject_Z b ->
  Math_floor ((lo + hi) / 2) = ((a + b) / 2)%Z.
Proof.
  intros Hlo Hhi. unfold Math_floor.
  assert (E : (lo + hi) / 2 == (a + b) # 2).
  { rewrite Hlo, Hhi. unfold Qeq, Qdiv, Qmult, Qplus, Qinv, inject_Z; simpl.
    lia. }
  rewrite (Qfloor_comp _ _ E). reflexivity.
Qed.

Lemma Qle_bool_inject (lo hi : Q) (a b : Z) :
  lo == inject_Z a -> hi == inject_Z b ->
  Qle_bool lo hi = (a <=? b)%Z.
Proof.
  intros Hlo Hhi.
  destruct (a <=? b)%Z eqn:E.
  - apply Qle_bool_iff. rewrite Hlo, Hhi. rewrite <- Zle_Qle.
    now apply Z.leb_le.
  - destruct (Qle_bool lo hi) eqn:F; [|reflexivity].
    apply Qle_bool_iff in F. rewrite Hlo, Hhi in F. rewrite <- Zle_Qle in F.
    apply Z.leb_le in F. congruence.
Qed.

Lemma search_spec (ctx : option TextMeasurement.MeasurementContext)
    (text fontFamily : string) (availableWidth : Q) (fuel : nat) :
  forall (lo hi : Q) (a b : Z),
    lo == inject_Z a -> hi == inject_Z b ->
    (a <= b + 1)%Z -> (b - a + 1 < 2 ^ Z.of_nat fuel)%Z ->
    exists r,
      TextMeasurement.search ctx text fontFamily availableWidth fuel lo hi
      == inject_Z r /\
      (a - 1 <= r <= b)%Z /\
      (r = (a - 1)%Z \/ fits ctx text fontFamily availableWidth r = true) /\
      (r = b \/ fits ctx text fontFamily availableWidth (r + 1) = false).
Proof.
  induction fuel as [|fuel IH]; intros lo hi a b Hlo Hhi Hab Hsize.
  - simpl in *. exists b. split; [exact Hhi|].
    split; [lia|]. split; [left; lia|now left].
  - cbn [TextMeasurement.search].
    rewrite (Qle_bool_inject lo hi a b Hlo Hhi).
    destruct (a <=? b)%Z eqn:E.
    2:{ apply Z.leb_gt in E. exists b. split; [exact Hhi|].
        split; [lia|]. split; [left; lia|now left]. }
    apply Z.leb_le in E. cbv zeta.
    rewrite (floor_midpoint lo hi a b Hlo Hhi).
    set (m := ((a + b) / 2)%Z).
    assert (Hm : (2 * m <= a + b < 2 * m + 2)%Z).
    { unfold m. pose proof (Z.div_mod (a + b) 2) as D.
      pose proof (Z.mod_pos_bound (a + b) 2) as B. lia. }
    assert (Hpow : (2 ^ Z.of_nat (S fuel) = 2 * 2 ^ Z.of_nat fuel)%Z).
    { rewrite Nat2Z.inj_succ. apply Z.pow_succ_r. lia. }
    fold (fits ctx text fontFamily availableWidth m).
    destruct (fits ctx text fontFamily availableWidth m) eqn:F.
    + destruct (IH (inject_Z m + 1) hi (m + 1)%Z b) as (r & R1 & R2 & R3 & R4).
      * unfold Qeq, Qplus, inject_Z; simpl; lia.
      * exact Hhi.
      * lia.
      * lia.
      * exists r. split; [exact R1|]. split; [lia|].
        split; [|exact R4].
        right. destruct R3 as [->|R3]; [|exact R3].
        now replace (m + 1 - 1)%Z with m by lia.
    + destruct (IH lo (inject_Z m - 1) a (m - 1)%Z) as (r & R1 & R2 & R3 & R4).
      * exact Hlo.
      * unfold Qeq, Qminus, Qplus, Qopp, inject_Z; simpl; lia.
      * lia.
      * lia.
      * exists r. split; [exact R1|]. split; [lia|].
        split; [exact R3|].
        destruct R4 as [->|R4]; [|now right].
        right. now replace (m - 1 + 1)%Z with m by lia.
Qed.

(** X15: on whole font-size bounds [a <= b] less than 2^20 apart, for a
    text that is not empty and a width that leaves room after the padding,
    [calculateOptimalFontSize] returns a whole size between the bounds such
    that either the text fits at that size and does not fit at the next
    size up (or the size is the upper bound), or the text does not fit at
    the lower bound, which is then the result. *)
Theorem calculateOptimalFontSize_largest_fit
    (ctx : option TextMeasurement.MeasurementContext)
    (text fontFamily : string) (maxWidth padding : Q) (a b : Z) :
  text <> EmptyString ->
  padding * 2 < maxWidth ->
  (a <= b)%Z ->
  (b - a + 1 < 2 ^ 20)%Z ->
  let fit := fits ctx text fontFamily (maxWidth - padding * 2) in
  exists r,
    TextMeasurement.calculateOptimalFontSize ctx text fontFamily maxWidth
      (inject_Z b) (inject_Z a) padding == inject_Z r /\
    (a <= r <= b)%Z /\
    ((fit r = true /\ (r = b \/ fit (r + 1)%Z = false)) \/
     (r = a /\ fit a = false)).
Proof.
  intros Htext Hwidth Hab Hsize fit.
  unfold TextMeasurement.calculateOptimalFontSize.
  apply String.eqb_neq in Htext. rewrite Htext.
  assert (Hw : Qle_bool maxWidth (padding * 2) = false).
  { destruct (Qle_bool maxWidth (padding * 2)) eqn:E; [|reflexivity].
    apply Qle_bool_iff in E. lra. }
  rewrite Hw. cbv zeta. cbn [orb].
  destruct (search_spec ctx text fontFamily (maxWidth - padding * 2) 20
              (inject_Z a) (inject_Z b) a b)
    as (r & R1 & R2 & R3 & R4); try reflexivity; try lia; try exact Hsize.
  fold fit in R3, R4.
  set (s := TextMeasurement.search _ _ _ _ _ _ _) in *. clearbody s.
  assert (Hmin : Math_min s (inject_Z b) = s).
  { unfold Math_min.
    rewrite (Qle_bool_inject s (inject_Z b) r b R1 (Qeq_refl _)).
    destruct (r <=? b)%Z eqn:E; [reflexivity|].
    apply Z.leb_gt in E. lia. }
  rewrite Hmin. unfold Math_max.
  rewrite (Qle_bool_inject (inject_Z a) s a r (Qeq_refl _) R1).
  destruct (a <=? r)%Z eqn:E.
  - apply Z.leb_le in E. exists r. split; [exact R1|]. split; [lia|].
    left. split; [|exact R4]. destruct R3 as [R3|R3]; [lia|exact R3].
  - apply Z.leb_gt in E. exists a. split; [reflexivity|]. split; [lia|].
    right. split; [reflexivity|].
    destruct R4 as [R4|R4]; [lia|].
    now replace (r + 1)%Z with a in R4 by lia.
Qed.

Lemma calculateOptimalFontSize_largest_fit_witness :
  exists r,
    TextMeasurement.calculateOptimalFontSize None "Hello" "Arial" 100
      (inject_Z 50) (inject_Z 8) 8 == inject_Z r /\
    (8 <= r <= 50)%Z /\
    ((fits None "Hello" "Arial" (100 - 8 * 2) r = true /\
      (r = 50%Z \/ fits None "Hello" "Arial" (100 - 8 * 2) (r + 1) = false)) \/
     (r = 8%Z /\ fits None "Hello" "Arial" (100 - 8 * 2) 8 = false)).
Proof.
  apply (calculateOptimalFontSize_largest_fit None "Hello" "Arial" 100 8 8 50).
  - discriminate.
  - reflexivity.
  - lia.
  - reflexivity.
Defined.

Lemma fits_fallback_monotone (text fontFamily : string) (availableWidth : Q)
    (z z' : Z) :
  (z' <= z)%Z ->
  fits None text fontFamily availableWidth z = true ->
  fits None text fontFamily availableWidth z' = true.
Proof.
  unfold fits, TextMeasurement.measureText; cbn [TextMeasurement.t_width].
  intros Hz H. apply Qle_bool_iff in H. apply Qle_bool_iff.
  assert (HL : 0 <= inject_Z (Z.of_nat (String.length text))).
  { replace 0 with (inject_Z 0) by reflexivity. rewrite <- Zle_Qle. lia. }
  assert (HZ : inject_Z z' <= inject_Z z) by now rewrite <- Zle_Qle.
  revert H HL HZ.
  generalize (inject_Z (Z.of_nat (String.length text))), (inject_Z z'),
    (inject_Z z).
  intros L A B H HL HZ. nra.
Qed.

(** X16: without a 2D context (the fallback estimate of [measureText]),
    when the text fits at the lower bound the result of
    [calculateOptimalFontSize] is the largest whole size between the
    bounds at which the text fits: it fits at every size up to the result
    and at no size above it. *)
Theorem calculateOptimalFontSize_fallback_maximal
    (text fontFamily : string) (maxWidth padding : Q) (a b : Z) :
  text <> EmptyString ->
  padding * 2 < maxWidth ->
  (a <= b)%Z ->
  (b - a + 1 < 2 ^ 20)%Z ->
  let fit := fits None text fontFamily (maxWidth - padding * 2) in
  fit a = true ->
  exists r,
    TextMeasurement.calculateOptimalFontSize None text fontFamily maxWidth
      (inject_Z b) (inject_Z a) padding == inject_Z r /\
    (a <= r <= b)%Z /\
    forall z, (z <= b)%Z -> fit z = true <-> (z <= r)%Z.
Proof.
  intros Htext Hwidth Hab Hsize fit Ha.
  unfold TextMeasurement.calculateOptimalFontSize.
  apply String.eqb_neq in Htext. rewrite Htext.
  assert (Hw : Qle_bool maxWidth (padding * 2) = false).
  { destruct (Qle_bool maxWidth (padding * 2)) eqn:E; [|reflexivity].
    apply Qle_bool_iff in E. lra. }
  rewrite Hw. cbv zeta. cbn [orb].
  destruct (search_spec None text fontFamily (maxWidth - padding * 2) 20
              (inject_Z a) (inject_Z b) a b)
    as (r & R1 & R2 & R3 & R4); try reflexivity; try lia; try exact Hsize.
  fold fit in R3, R4.
  set (s := TextMeasurement.search _ _ _ _ _ _ _) in *. clearbody s.
  assert (Hr : (a <= r)%Z).
  { destruct (Z_le_gt_dec a r) as [H|H]; [exact H|].
    destruct R4 as [R4|R4]; [lia|].
    replace (r + 1)%Z with a in R4 by lia. congruence. }
  assert (Hmin : Math_min s (inject_Z b) = s).
  { unfold Math_min.
    rewrite (Qle_bool_inject s (inject_Z b) r b R1 (Qeq_refl _)).
    destruct (r <=? b)%Z eqn:E; [reflexivity|].
    apply Z.leb_gt in E. lia. }
  rewrite Hmin. unfold Math_max.
  rewrite (Qle_bool_inject (inject_Z a) s a r (Qeq_refl _) R1).
  apply Z.leb_le in Hr. rewrite Hr. apply Z.leb_le in Hr.
  exists r. split; [exact R1|]. split; [lia|].
  intros z Hz. split.
  - intros Hfit. destruct (Z_le_gt_dec z r) as [H|H]; [exact H|exfalso].
    destruct R4 as [R4|R4]; [lia|].
    assert (fit (r + 1)%Z = true)
      by (apply (fits_fallback_monotone _ _ _ z); [lia|exact Hfit]).
    congruence.
  - intros Hzr. destruct R3 as [R3|R3]; [lia|].
    now apply (fits_fallback_monotone _ _ _ r).
Qed.

Lemma calculateOptimalFontSize_fallback_maximal_witness :
  exists r,
    TextMeasurement.calculateOptimalFontSize None "Hello" "Arial" 100
      (inject_Z 50) (inject_Z 8) 8 == inject_Z r /\
    (8 <= r <= 50)%Z /\
    forall z, (z <= 50)%Z ->
              fits None "Hello" "Arial" (100 - 8 * 2) z = true <-> (z <= r)%Z.
Proof.
  apply (calculateOptimalFontSize_fallback_maximal "Hello" "Arial" 100 8 8 50).
  - discriminate.
  - reflexivity.
  - lia.
  - reflexivity.
  - reflexivity.
Defined.

(** ** More on the pointer handlers *)

Lemma handleMouseMove_updates (M : Canvas.MathLib) props c env e :
  snd (Canvas.handleMouseMove M props c env e) = [] \/
  exists f,
    snd (Canvas.handleMouseMove M props c env e)
    = [Canvas.CallSetElements
         (Canvas.updateGeometry (Canvas.dragElementId c) f
            (Home.elements props))].
Proof.
  unfold Canvas.handleMouseMove.
  break_match; simpl; auto; right; eexists; reflexivity.
Qed.

Lemma updateGeometry_frame (target : option string)
    (f : Geometry -> Geometry) (els : list CanvasElement) :
  Forall2
    (fun a b =>
       b = a \/
       (Canvas.idIs target a = true /\
        exists g, geometryOf a = Some g /\ b = withGeometry a (f g)))
    els (Canvas.updateGeometry target f els).
Proof.
  induction els as [|a els IH]; simpl; constructor; [|exact IH].
  destruct a as [i z v n gi g k|]; [|now left].
  destruct (Canvas.idIs target _) eqn:E; [|now left].
  right. split; [reflexivity|]. exists g. split; reflexivity.
Qed.

Lemma Forall2_same {A} (R : A -> A -> Prop) (l : list A) :
  (forall a, R a a) -> Forall2 R l l.
Proof. intros H. induction l; constructor; auto. Qed.

(** X17: a pointer move never commits and never touches the selection, the
    tool, the canvas settings or the history; in the store it changes at
    most the geometry of elements that carry one and whose id is the
    [dragElementId] of the gesture: every other element, and every group,
    stays as it is and where it is in the array. *)
Theorem pointer_move_frame (M : Canvas.MathLib) (env : Canvas.Env)
    (e : Canvas.MouseEvent) (sys : System) :
  let sys' := step M env (MouseMove e) sys in
  commitsOf M env (MouseMove e) sys = 0%nat /\
  Home.selectedElementIds (page sys') = Home.selectedElementIds (page sys) /\
  Home.activeTool (page sys') = Home.activeTool (page sys) /\
  Home.settings (page sys') = Home.settings (page sys) /\
  Home.history (page sys') = Home.history (page sys) /\
  Forall2
    (fun a b =>
       b = a \/
       (Canvas.idIs (Canvas.dragElementId (canvas sys)) a = true /\
        exists g g', geometryOf a = Some g /\ b = withGeometry a g'))
    (Home.elements (page sys)) (Home.elements (page sys')).
Proof.
  intros sys'.
  destruct (step_move_session M env e sys) as ((_ & Ht & Hh & Hs) & Hsel & Hc).
  fold sys' in Ht, Hh, Hs, Hsel.
  repeat (split; [assumption|]).
  unfold sys'. rewrite step_MouseMove. cbn [page].
  destruct (handleMouseMove_updates M (page sys) (canvas sys) env e)
    as [-> | (f & ->)]; unfold applyCalls; cbn [fold_left applyCall].
  - apply Forall2_same. now left.
  - cbn [Home.elements Home.setElements].
    eapply Forall2_impl; [|apply updateGeometry_frame].
    intros a b [H|(H1 & g & H2 & H3)]; [now left|right].
    split; [exact H1|]. now exists g, (f g).
Qed.

Lemma applyCall_preview snap now s call :
  Home.isPreviewMode (applyCall snap now s call) = Home.isPreviewMode s.
Proof.
  destruct call as [els|els op [sel|]|i [|]|t]; reflexivity.
Qed.

Lemma applyCalls_preview snap now calls :
  Home.isPreviewMode (applyCalls snap now calls) = Home.isPreviewMode snap.
Proof.
  unfold applyCalls.
  assert (H : forall s,
             Home.isPreviewMode (fold_left (applyCall snap now) calls s)
             = Home.isPreviewMode s).
  { induction calls as [|call calls IH]; intros s; simpl; [reflexivity|].
    rewrite IH. apply applyCall_preview. }
  apply H.
Qed.

(** X18: [handleMouseUp] runs for [onMouseUp] and again for [onMouseLeave];
    once it has run, a second run changes nothing and commits nothing, and
    neither does a pointer move.  Outside preview mode no gesture is left
    under way. *)
Theorem release_is_final (M : Canvas.MathLib) (env1 env2 : Canvas.Env)
    (e : Canvas.MouseEvent) (sys : System) :
  let released := step M env1 MouseUp sys in
  step M env2 MouseUp released = released /\
  commitsOf M env2 MouseUp released = 0%nat /\
  step M env2 (MouseMove e) released = released /\
  commitsOf M env2 (MouseMove e) released = 0%nat /\
  (Home.isPreviewMode (page sys) = false ->
   gestureActive (canvas released) = false /\
   Canvas.potentialDragElement (canvas released) = None).
Proof.
  intros released.
  assert (Hp : Home.isPreviewMode (page released)
               = Home.isPreviewMode (page sys))
    by (unfold released; rewrite step_MouseUp; apply applyCalls_preview).
  assert (Hc : canvas released
               = if Home.isPreviewMode (page sys) then canvas sys
                 else Canvas.released (canvas sys)).
  { unfold released. rewrite step_MouseUp. cbn [canvas].
    unfold Canvas.handleMouseUp.
    now destruct (Home.isPreviewMode (page sys)). }
  rewrite step_MouseUp, step_MouseMove.
  unfold commitsOf, handle, Canvas.handleMouseUp, Canvas.handleMouseMove,
    Canvas.promote, gestureActive.
  rewrite Hp.
  destruct (Home.isPreviewMode (page sys)) eqn:V.
  - cbn. rewrite system_eta. repeat split; discriminate.
  - assert (E : mkSystem (page released) (Canvas.released (canvas sys))
                = released)
      by (rewrite <- Hc; apply system_eta).
    rewrite Hc. cbn. repeat split; exact E.
Qed.

Lemma release_is_final_witness :
  let sys := sampleSystem [sampleText] [] in
  Home.isPreviewMode (page sys) = false /\
  gestureActive (canvas (step sampleMath (envAt 1) MouseUp sys)) = false.
Proof.
  intros sys. split; [reflexivity|].
  exact (proj1 (proj2 (proj2 (proj2 (proj2
           (release_is_final sampleMath (envAt 1) (envAt 2) (pointer 0 0)
              sys)))) eq_refl)).
Defined.








Lemma nextZIndex_above (els : list CanvasElement) :
  (0 < Canvas.nextZIndex els)%Z /\
  Forall (fun el => (zIndex el < Canvas.nextZIndex els)%Z) els.
Proof.
  unfold Canvas.nextZIndex. induction els as [|a els [IH1 IH2]]; simpl.
  - split; [lia|constructor].
  - split; [lia|]. constructor; [lia|].
    eapply Forall_impl; [|exact IH2]. intros el H; simpl in H. lia.
Qed.



(** X22: a pointer-down with the label tool does nothing at all when the
    prompt for the JSON key is cancelled or left empty.  Otherwise it adds
    one label to the store (which is then, up to its order, the store of
    before and the new label), selects it, commits once and goes back to
    the cursor tool; the key it stores is the answer without the white
    space and line terminators at its ends, so that an answer of spaces or
    no-break spaces only gives a label with an empty key, and the default
    placeholder is the untrimmed answer in braces. *)
Theorem label_tool_adds_element (M : Canvas.MathLib) (env : Canvas.Env)
    (e : Canvas.MouseEvent) (r : Canvas.DOMRect) (sys : System) :
  Home.isPreviewMode (page sys) = false ->
  Home.activeTool (page sys) = ToolLabel ->
  Canvas.rect env = Some r ->
  let sys' := step M env (MouseDown e) sys in
  (truthy (Canvas.promptJsonKey env) = false ->
   sys' = sys /\ commitsOf M env (MouseDown e) sys = 0%nat) /\
  (forall jsonKey,
     Canvas.promptJsonKey env = Some jsonKey -> jsonKey <> EmptyString ->
     exists new,
       Permutation (Home.elements (page sys'))
                   (Home.elements (page sys) ++ [new]) /\
       id new = ("label-" ++ string_of_Z (Canvas.now env))%string /\
       labelFields new =
       Some (Canvas.trim jsonKey,
             if truthy (Canvas.promptPlaceholder env)
             then match Canvas.promptPlaceholder env with
                  | Some p => p
                  | None => EmptyString
                  end
             else ("{" ++ jsonKey ++ "}")%string) /\
       Forall (fun el => (zIndex el < zIndex new)%Z)
              (Home.elements (page sys)) /\
       Home.selectedElementIds (page sys') = [id new] /\
       Home.activeTool (page sys') = ToolCursor /\
       commitsOf M env (MouseDown e) sys = 1%nat /\
       synced (page sys')).
Proof.
  intros Hv Ht Hr sys'.
  unfold sys'. rewrite step_MouseDown.
  unfold commitsOf, handle, Canvas.handleMouseDown.
  rewrite Hv, Ht, Hr. cbv zeta. split.
  - intros Hk. rewrite Hk. cbn. split; [apply system_eta|reflexivity].
  - intros jsonKey Hk Hne.
    assert (Htru : truthy (Canvas.promptJsonKey env) = true).
    { rewrite Hk. unfold truthy. apply negb_true_iff.
      now apply String.eqb_neq. }
    rewrite Htru, Hk.
    destruct (nextZIndex_above (Home.elements (page sys))) as (Z1 & Z2).
    eexists. split; [apply Permutation_refl|].
    cbn [id labelFields zIndex].
    repeat (split; [first [reflexivity|assumption]|]).
    split; reflexivity.
Qed.

Lemma label_tool_adds_element_witness :
  let sys := sampleTool ToolLabel in
  let blank :=
    String (ascii_of_nat 32)
      (String (ascii_of_nat 194) (String (ascii_of_nat 160) EmptyString)) in
  step sampleMath (envPrompt 7 None None) (MouseDown (pointer 30 40)) sys
  = sys /\
  exists new,
    Permutation
      (Home.elements
         (page (step sampleMath (envPrompt 7 (Some blank) None)
                  (MouseDown (pointer 30 40)) sys)))
      (Home.elements (page sys) ++ [new]) /\
    labelFields new = Some (EmptyString, ("{" ++ blank ++ "}")%string).
Proof.
  intros sys blank. split.
  - exact (proj1 (proj1
      (label_tool_adds_element sampleMath (envPrompt 7 None None)
         (pointer 30 40) (Canvas.mkDOMRect 0 0) sys eq_refl eq_refl eq_refl)
      eq_refl)).
  - assert (Hne : blank <> EmptyString) by discriminate.
    destruct (proj2
      (label_tool_adds_element sampleMath (envPrompt 7 (Some blank) None)
         (pointer 30 40) (Canvas.mkDOMRect 0 0) sys eq_refl eq_refl eq_refl)
      blank eq_refl Hne) as (new & H1 & _ & H3 & _).
    exists new. split; [exact H1|exact H3].
Defined.

Lemma find_map_same {A} (p : A -> bool) (f : A -> A) (l : list A) :
  (forall a, p (f a) = p a) ->
  find p (map f l) = option_map f (find p l).
Proof.
  intros H. induction l as [|a l IH]; simpl; [reflexivity|].
  rewrite H. destruct (p a); [reflexivity|exact IH].
Qed.

Lemma handleMouseDown_layers (f : CanvasElement -> CanvasElement)
    (props props' : Home.State) c env e :
  (forall el, id (f el) = id el /\ geometryOf (f el) = geometryOf el /\
              isText (f el) = isText el /\ isLabel (f el) = isLabel el) ->
  Home.isPreviewMode props' = Home.isPreviewMode props ->
  Home.activeTool props = ToolCursor ->
  Home.activeTool props' = ToolCursor ->
  Home.elements props' = map f (Home.elements props) ->
  Canvas.handleMouseDown props' c env e = Canvas.handleMouseDown props c env e.
Proof.
  intros Hf Hv Ht Ht' Hels. unfold Canvas.handleMouseDown.
  rewrite Hv, Ht, Ht', Hels.
  destruct (Home.isPreviewMode props); [reflexivity|].
  destruct (Canvas.rect env) as [r|]; [|reflexivity]. cbv zeta.
  rewrite <- map_rev, find_map_same.
  - destruct (find _ (rev (Home.elements props))) as [el|]; [|reflexivity].
    cbn [option_map]. destruct (Hf el) as (H1 & H2 & _).
    destruct el as [i z v n gi g k|], (f _) as [i' z' v' n' gi' g' k'|];
      simpl in H1, H2; try discriminate; try reflexivity.
    injection H2 as <-. subst i'. reflexivity.
  - intros el. destruct (Hf el) as (_ & H2 & H3 & H4).
    destruct el as [i z v n gi g k|], (f _) as [i' z' v' n' gi' g' k'|];
      simpl in H2; try discriminate; try reflexivity.
    injection H2 as <-. simpl in H3, H4.
    destruct k, k'; simpl in *; try discriminate; reflexivity.
Qed.

(** X23: the hit test of [handleMouseDown] does not look at the visibility
    of the layers: with the cursor tool, a pointer-down does the same after
    [toggleLayerVisibility] as before it, whatever the layer toggled, so
    that a hidden text is still selected and dragged by a click on its
    place. *)
Theorem hit_test_ignores_visibility (now : Z) (i : string)
    (s : Home.State) (c : Canvas.State) (env : Canvas.Env)
    (e : Canvas.MouseEvent) :
  Home.activeTool s = ToolCursor ->
  Canvas.handleMouseDown (Home.toggleLayerVisibility now i s) c env e
  = Canvas.handleMouseDown s c env e.
Proof.
  intros Ht.
  apply (handleMouseDown_layers
           (fun el => if String.eqb (id el) i
                      then withVisible el (negb (visible el)) else el)).
  - intros el. destruct (String.eqb (id el) i); [|repeat split].
    destruct el as [? ? ? ? ? ? []|]; repeat split.
  - unfold Home.toggleLayerVisibility; cbn. break_match; reflexivity.
  - exact Ht.
  - unfold Home.toggleLayerVisibility; cbn. break_match; exact Ht.
  - reflexivity.
Qed.

Lemma hit_test_ignores_visibility_witness :
  let s := Home.setSelectedElementIds [] sampleSynced in
  let hidden := Home.toggleLayerVisibility 2 "t1" s in
  Forall (fun el => visible el = false \/ id el <> "t1"%string)
         (Home.elements hidden) /\
  snd (Canvas.handleMouseDown hidden Canvas.initialState (envAt 3)
         (pointer 150 150))
  = [Canvas.CallSelectElement "t1" false].
Proof.
  intros s hidden. split.
  - constructor; [left; reflexivity|].
    constructor; [right; discriminate|constructor].
  - unfold hidden.
    rewrite (hit_test_ignores_visibility 2 "t1" s
               Canvas.initialState (envAt 3) (pointer 150 150) eq_refl).
    reflexivity.
Defined.

(** X24: a pointer-down with the cursor tool on a point where no text or
    label lies selects the id that no element has, the empty string: when
    no element has it, [selectedElements] is empty and [selectedElement]
    is none after it; the store, the history and the gesture hooks are as
    before, and nothing is committed. *)
Theorem blank_click_selects_nothing (M : Canvas.MathLib) (env : Canvas.Env)
    (e : Canvas.MouseEvent) (r : Canvas.DOMRect) (sys : System) :
  Home.isPreviewMode (page sys) = false ->
  Home.activeTool (page sys) = ToolCursor ->
  Canvas.rect env = Some r ->
  find (Canvas.hit
          ((Canvas.clientX e - Canvas.left r) / Canvas.scale (canvas sys))
          ((Canvas.clientY e - Canvas.top r) / Canvas.scale (canvas sys)))
       (rev (Home.elements (page sys))) = None ->
  Forall (fun el => id el <> EmptyString) (Home.elements (page sys)) ->
  let sys' := step M env (MouseDown e) sys in
  Home.selectedElements (page sys') = [] /\
  Home.selectedElement (page sys') = None /\
  Home.elements (page sys') = Home.elements (page sys) /\
  Home.history (page sys') = Home.history (page sys) /\
  canvas sys' = canvas sys /\
  commitsOf M env (MouseDown e) sys = 0%nat.
Proof.
  intros Hv Ht Hr Hfind Hids sys'.
  assert (Hstep : Canvas.handleMouseDown (page sys) (canvas sys) env e
                  = (canvas sys, [Canvas.CallSelectElement EmptyString false])).
  { unfold Canvas.handleMouseDown. rewrite Hv, Ht, Hr. cbv zeta.
    now rewrite Hfind. }
  unfold sys'. rewrite step_MouseDown. unfold commitsOf, handle.
  rewrite Hstep.
  cbn [fst snd page canvas applyCalls fold_left applyCall filter isCommit
       List.length].
  assert (Hsel : Home.selectedElements
                   (Home.selectElement EmptyString false (page sys)) = []).
  { unfold Home.selectedElements, Home.selectElement.
    cbn [Home.selectedElementIds Home.setSelectedElementIds Home.elements].
    clear - Hids.
    induction Hids as [|el els Hel _ IH]; [reflexivity|].
    cbn [filter includes existsb].
    apply String.eqb_neq in Hel. rewrite Hel. exact IH. }
  unfold Home.selectedElement. rewrite Hsel. repeat split.
Qed.

Lemma blank_click_selects_nothing_witness :
  let sys := sampleSystem [sampleText] ["t1"%string] in
  Home.selectedElements (page sys) = [sampleText] /\
  Home.selectedElements
    (page (step sampleMath (envAt 1) (MouseDown (pointer 5 5)) sys)) = [].
Proof.
  intros sys. split; [reflexivity|].
  assert (Hids : Forall (fun el => id el <> EmptyString)
                        (Home.elements (page sys)))
    by (repeat constructor; discriminate).
  exact (proj1 (blank_click_selects_nothing sampleMath (envAt 1) (pointer 5 5)
                  (Canvas.mkDOMRect 0 0) sys eq_refl eq_refl eq_refl eq_refl
                  Hids)).
Defined.

(** ** The history under every action *)







